(** * SnarkLab: authenticated balance ledger and transfer orchestrator

    A shallow embedding of the TypeScript services of the ROFL backend:
    - [balance.service.ts]     (fixed-point codec, key derivation, balance tree),
    - [transaction.service.ts] (transaction ledger tree),
    - [wallet.service.ts]      (transfer orchestrator),
    together with the JavaScript built-ins they rely on.

    JavaScript strings are modelled as Rocq byte strings (ASCII text), the
    JavaScript Number type as IEEE-754 binary64 through [SpecFloat], BigInt as
    [Z], and the mutable module state (the two in-memory trees and the
    key-value store) by explicit state passing in an exception monad. *)

From Stdlib Require Import ZArith String Ascii List Bool Lia SpecFloat.
From Stdlib.Strings Require Import Byte.
From stdpp Require Import base gmap strings list.

Local Open Scope string_scope.

(* ===================================================================== *)
(** ** JavaScript built-ins                                                *)
(* ===================================================================== *)

Module JS.

(** *** Characters and strings *)

Definition code (c : ascii) : nat := nat_of_ascii c.

Definition isDigit (c : ascii) : bool :=
  (48 <=? code c)%nat && (code c <=? 57)%nat.

Definition isUpperHex (c : ascii) : bool :=
  (65 <=? code c)%nat && (code c <=? 70)%nat.

Definition isLowerHex (c : ascii) : bool :=
  (97 <=? code c)%nat && (code c <=? 102)%nat.

Definition isHexDigit (c : ascii) : bool :=
  isDigit c || isUpperHex c || isLowerHex c.

(** A hexadecimal digit in lower case. *)
Definition isLowerDigit (c : ascii) : bool := isDigit c || isLowerHex c.

Definition isUpper (c : ascii) : bool :=
  (65 <=? code c)%nat && (code c <=? 90)%nat.

(** White space and line terminators that fit in one byte. *)
Definition isWhiteSpace (c : ascii) : bool :=
  ((9 <=? code c)%nat && (code c <=? 13)%nat) || (code c =? 32)%nat.

Definition toLowerChar (c : ascii) : ascii :=
  if isUpper c then ascii_of_nat (code c + 32) else c.

(** [String.prototype.toLowerCase]. *)
Fixpoint toLowerCase (s : string) : string :=
  match s with
  | EmptyString => EmptyString
  | String c r => String (toLowerChar c) (toLowerCase r)
  end.

Fixpoint repeatChar (n : nat) (c : ascii) : string :=
  match n with
  | O => EmptyString
  | S k => String c (repeatChar k c)
  end.

(** [s.padStart(n, c)] for a one-character filler. *)
Definition padStart (n : nat) (c : ascii) (s : string) : string :=
  repeatChar (n - String.length s) c ++ s.

Fixpoint forallb_string (p : ascii -> bool) (s : string) : bool :=
  match s with
  | EmptyString => true
  | String c r => p c && forallb_string p r
  end.

(** Truthiness of a value of type [string | undefined | null]. *)
Definition truthy (v : option string) : bool :=
  match v with
  | Some s => negb (String.eqb s "")
  | None => false
  end.

(** [a || b] on strings that may be undefined. *)
Definition orElse (v : option string) (d : string) : string :=
  match v with
  | Some s => if String.eqb s "" then d else s
  | None => d
  end.

Fixpoint span (p : ascii -> bool) (l : list ascii) : list ascii * list ascii :=
  match l with
  | c :: r => if p c then let '(a, b) := span p r in (c :: a, b) else ([], l)
  | [] => ([], [])
  end.

Fixpoint dropWhile (p : ascii -> bool) (l : list ascii) : list ascii :=
  match l with
  | c :: r => if p c then dropWhile p r else l
  | [] => []
  end.

Fixpoint isPrefix (p l : list ascii) : bool :=
  match p, l with
  | [], _ => true
  | a :: p', b :: l' => Ascii.eqb a b && isPrefix p' l'
  | _ :: _, [] => false
  end.

(** *** Integers and their digits *)

Definition digitChar (d : Z) : ascii :=
  if (d <? 10)%Z then ascii_of_nat (48 + Z.to_nat d)
  else ascii_of_nat (87 + Z.to_nat d).

Definition digitVal (c : ascii) : Z :=
  if isDigit c then Z.of_nat (code c) - 48
  else if isUpperHex c then Z.of_nat (code c) - 55
  else Z.of_nat (code c) - 87.

Fixpoint digitsAcc (fuel : nat) (base n : Z) (acc : list ascii) : list ascii :=
  match fuel with
  | O => digitChar (n mod base) :: acc
  | S f =>
      if (n <? base)%Z then digitChar n :: acc
      else digitsAcc f base (n / base) (digitChar (n mod base) :: acc)
  end.

(** The digits of a non-negative integer in [base] (2 to 16), most
    significant first; lower-case letters, as JavaScript prints them. *)
Definition natDigits (base n : Z) : list ascii :=
  digitsAcc (Z.to_nat (Z.log2 n)) base n [].

Definition digitsValue (base : Z) (ds : list ascii) : Z :=
  fold_left (fun acc c => acc * base + digitVal c)%Z ds 0%Z.

Definition intToString (base n : Z) : string :=
  if (n <? 0)%Z then String "-" (string_of_list_ascii (natDigits base (- n)))
  else string_of_list_ascii (natDigits base n).

(** *** Number: IEEE-754 binary64 *)

Definition number : Type := spec_float.

Definition NaN : number := S754_nan.
Definition add : number -> number -> number := SFadd 53 1024.
Definition sub : number -> number -> number := SFsub 53 1024.
Definition mul : number -> number -> number := SFmul 53 1024.
Definition div : number -> number -> number := SFdiv 53 1024.
Definition ltb : number -> number -> bool := SFltb.

Definition isFinite (x : number) : bool :=
  match x with
  | S754_zero _ | S754_finite _ _ _ => true
  | _ => false
  end.

(** Structural equality; the operations above return canonical
    representations, on which it is equality of values (with NaN equal to
    itself and the two zeros distinct). *)
Definition sameValue (x y : number) : bool :=
  match x, y with
  | S754_zero a, S754_zero b => Bool.eqb a b
  | S754_infinity a, S754_infinity b => Bool.eqb a b
  | S754_nan, S754_nan => true
  | S754_finite a m e, S754_finite b m' e' =>
      Bool.eqb a b && Pos.eqb m m' && Z.eqb e e'
  | _, _ => false
  end.

(** The Number nearest to [digits * 10 ^ e10] (ties to even), with [digits]
    non-negative: one correctly rounded division of two integers. *)
Definition decimalToNumber (neg : bool) (digits e10 : Z) : number :=
  let num := if (0 <=? e10)%Z then (digits * 10 ^ e10)%Z else digits in
  let den := if (0 <=? e10)%Z then 1%Z else (10 ^ (- e10))%Z in
  match num, den with
  | Zpos n, Zpos q => div (S754_finite neg n 0) (S754_finite false q 0)
  | _, _ => S754_zero neg
  end.

(** [Number(b)] for a BigInt [b]. *)
Definition ofBigInt (b : Z) : number := binary_normalize 53 1024 b 0 false.

(** [BigInt(x)] for a Number [x]: a RangeError ([None]) unless [x] is an
    integer. *)
Definition toBigInt (x : number) : option Z :=
  match x with
  | S754_zero _ => Some 0%Z
  | S754_finite s m e =>
      if (0 <=? e)%Z then Some (cond_Zopp s (Zpos m * 2 ^ e))
      else if (Zpos m mod 2 ^ (- e) =? 0)%Z
           then Some (cond_Zopp s (Zpos m / 2 ^ (- e)))
           else None
  | _ => None
  end.

(** [Math.floor]. *)
Definition floor (x : number) : number :=
  match x with
  | S754_finite s m e =>
      if (0 <=? e)%Z then x
      else
        let q := (Zpos m / 2 ^ (- e))%Z in
        let r := (Zpos m mod 2 ^ (- e))%Z in
        if s then binary_normalize 53 1024 (- (if (r =? 0)%Z then q else q + 1)) 0 true
        else binary_normalize 53 1024 q 0 false
  | _ => x
  end.

Definition parseSign (l : list ascii) : bool * list ascii :=
  match l with
  | "-"%char :: r => (true, r)
  | "+"%char :: r => (false, r)
  | _ => (false, l)
  end.

(** The decimal exponent of an optional ExponentPart: [e] or [E], an
    optional sign and at least one digit; anything else is not part of the
    literal. *)
Definition parseExponent (l : list ascii) : Z :=
  match l with
  | c :: r =>
      if Ascii.eqb c "e" || Ascii.eqb c "E" then
        let '(neg, r1) := parseSign r in
        let '(ds, _) := span isDigit r1 in
        match ds with
        | [] => 0%Z
        | _ => cond_Zopp neg (digitsValue 10 ds)
        end
      else 0%Z
  | [] => 0%Z
  end.

(** [parseFloat]: leading white space is skipped, the longest prefix that is
    a StrDecimalLiteral is converted, and NaN is returned when there is
    none. *)
Definition parseFloat (s : string) : number :=
  let l := dropWhile isWhiteSpace (list_ascii_of_string s) in
  let '(neg, l1) := parseSign l in
  if isPrefix (list_ascii_of_string "Infinity") l1 then S754_infinity neg
  else
    let '(ip, l2) := span isDigit l1 in
    let '(fp, l3) :=
      match l2 with
      | "."%char :: r => span isDigit r
      | _ => ([], l2)
      end in
    match (ip ++ fp)%list with
    | [] => NaN
    | ds => decimalToNumber neg (digitsValue 10 ds)
              (parseExponent l3 - Z.of_nat (List.length fp))
    end.

(** The least [n], searched upwards from [n], with [num / den < 10 ^ n]. *)
Fixpoint magnitude (fuel : nat) (num den n : Z) : Z :=
  match fuel with
  | O => n
  | S f =>
      if (if (0 <=? n)%Z then num <? den * 10 ^ n else num * 10 ^ (- n) <? den)%Z
      then n
      else magnitude f num den (n + 1)
  end.

(** The [k]-digit decimal [s * 10 ^ (n - k)] that converts back to [x] and is
    nearest to it, if there is one; [num / den] is the value of [x] and
    [10 ^ (n - 1) <= num / den < 10 ^ n]. *)
Definition candidate (x : number) (num den n k : Z) : option Z :=
  let p := (n - k)%Z in
  let a := if (0 <=? p)%Z then num else (num * 10 ^ (- p))%Z in
  let b := if (0 <=? p)%Z then (den * 10 ^ p)%Z else den in
  let lo := (a / b)%Z in
  let r := (a mod b)%Z in
  let hi := (lo + 1)%Z in
  let okLo := sameValue (decimalToNumber false lo p) x in
  let okHi := sameValue (decimalToNumber false hi p) x in
  match okLo, okHi with
  | true, true =>
      if (2 * r <? b)%Z then Some lo
      else if (b <? 2 * r)%Z then Some hi
      else if Z.even lo then Some lo else Some hi
  | true, false => Some lo
  | false, true => Some hi
  | false, false => None
  end.

(** The shortest digit string: the least [k] with a candidate. *)
Fixpoint shortest (fuel : nat) (x : number) (num den n k : Z) : Z * Z :=
  match fuel with
  | O => (17%Z, (if (0 <=? n - 17)%Z then num / (den * 10 ^ (n - 17))
                 else num * 10 ^ (17 - n) / den)%Z)
  | S f =>
      match candidate x num den n k with
      | Some s => (k, s)
      | None => shortest f x num den n (k + 1)
      end
  end.

Definition zeros (n : Z) : string := repeatChar (Z.to_nat n) "0".

(** The digits [ds] (there are [k] of them) with the decimal point after
    the first [n], as Number::toString lays them out. *)
Definition layout (ds : list ascii) (k n : Z) : string :=
  let s := string_of_list_ascii in
  if ((k <=? n) && (n <=? 21))%Z then s ds ++ zeros (n - k)
  else if ((0 <? n) && (n <=? 21))%Z then
    s (firstn (Z.to_nat n) ds) ++ "." ++ s (skipn (Z.to_nat n) ds)
  else if ((-6 <? n) && (n <=? 0))%Z then "0." ++ zeros (- n) ++ s ds
  else
    let e := (n - 1)%Z in
    let es := (if (e <? 0)%Z then "-" else "+") ++ intToString 10 (Z.abs e) in
    match ds with
    | [d] => s [d] ++ "e" ++ es
    | d :: r => s [d] ++ "." ++ s r ++ "e" ++ es
    | [] => "e" ++ es
    end.

Definition positiveToString (m : positive) (e : Z) : string :=
  let num := if (0 <=? e)%Z then (Zpos m * 2 ^ e)%Z else Zpos m in
  let den := if (0 <=? e)%Z then 1%Z else (2 ^ (- e))%Z in
  let n := magnitude 800 num den (-400) in
  let '(k, s) := shortest 17 (S754_finite false m e) num den n 1 in
  if (s =? 10 ^ k)%Z then layout (natDigits 10 (10 ^ (k - 1))) k (n + 1)
  else layout (natDigits 10 s) k n.

(** [Number.prototype.toString] in radix 10. *)
Definition toString (x : number) : string :=
  match x with
  | S754_nan => "NaN"
  | S754_zero _ => "0"
  | S754_infinity s => if s then "-Infinity" else "Infinity"
  | S754_finite s m e =>
      if s then "-" ++ positiveToString m e else positiveToString m e
  end.

End JS.

(* ===================================================================== *)
(** ** The viem byte helpers used for key derivation                      *)
(* ===================================================================== *)

Module Viem.

Definition bytes : Type := list byte.

(** [isHex(value)] in its default strict mode: [/^0x[0-9a-fA-F]*$/]. *)
Definition isHex (value : string) : bool :=
  match value with
  | String "0" (String "x" r) => JS.forallb_string JS.isHexDigit r
  | _ => false
  end.

Definition byteOf (hi lo : ascii) : byte :=
  byte_of_ascii (ascii_of_N (Z.to_N (16 * JS.digitVal hi + JS.digitVal lo))).

Fixpoint pairs (l : list ascii) : bytes :=
  match l with
  | hi :: lo :: r => byteOf hi lo :: pairs r
  | _ => []
  end.

(** [hexToBytes]: the digits after [0x], left-padded with one [0] when their
    number is odd, two digits to a byte. *)
Definition hexToBytes (hex : string) : bytes :=
  let ds := list_ascii_of_string (String.substring 2 (String.length hex - 2) hex) in
  if Nat.even (List.length ds) then pairs ds else pairs ("0"%char :: ds).

(** [stringToBytes]: the UTF-8 encoding, which for ASCII text is the text. *)
Definition stringToBytes (value : string) : bytes :=
  List.map byte_of_ascii (list_ascii_of_string value).

(** [toBytes] on a string. *)
Definition toBytes (value : string) : bytes :=
  if isHex value then hexToBytes value else stringToBytes value.

(** [concat] on byte arrays. *)
Definition concat (parts : list bytes) : bytes := List.concat parts.

End Viem.

(* ===================================================================== *)
(** ** Data model                                                         *)
(* ===================================================================== *)

(** The shape shared by [BalanceProof] and [TransactionProof]. *)
Record Proof := mkProof {
  root : string;
  siblings : list string;
  key : string;
  value : string;
}.

Record TransactionEntry := mkTransactionEntry {
  sender : string;
  receiver : string;
  tx_token : string;
  tx_amount : string;
  timestamp : Z;
}.

Record SendTransaction := mkSendTransaction {
  from : string;
  to : string;
  token : string;
  amount : string;
}.

Record TransferRequest := mkTransferRequest {
  sendTransaction : SendTransaction;
  signature : string;
}.

Record TransferResult := mkTransferResult {
  txHash : string;
  r_from : string;
  r_to : string;
  r_token : string;
  r_amount : string;
}.

(** The result of [verifyWalletSignature]. *)
Record SignatureCheck := mkSignatureCheck {
  isValid : bool;
  error : option string;
}.

(** What [smt.createProof] returns, as far as the services read it. *)
Record SmtProof := mkSmtProof {
  smt_root : string;
  sidenodes : list string;
}.

(** Exceptions. [ZodError] is what [transferSchema.parse] throws (the
    ValidationError of the design), [AppError] carries its HTTP status,
    [Error] is a plain [new Error(message)], [RangeError] and [SyntaxError]
    come from the BigInt conversions and JSON.parse, [TypeError] from a
    method or an iteration that a value does not have, and
    [PersistenceError] is a failed write to the key-value store. *)
Inductive exn :=
| ZodError
| AppError (message : string) (status : nat)
| Error (message : string)
| RangeError
| SyntaxError
| TypeError
| PersistenceError.

(** What [JSON.parse] makes of the text of a bucket: an array of entries,
    or another value that has no [push] and cannot be iterated ([null], a
    boolean, a number or an object), kept as the text [JSON.stringify]
    gives back for it. JSON strings and arrays of other values are not
    covered. *)
Inductive parsed :=
| ParsedEntries (transactions : list TransactionEntry)
| ParsedOther (text : string).

Inductive outcome (A : Type) :=
| Return (a : A)
| Throw (e : exn).
Arguments Return {A} a.
Arguments Throw {A} e.

(** The mutable state of the process: the entries of the two in-memory
    trees ([smt] of the balance service, [txSmt] of the transaction
    service), the records of the key-value store, the number of writes the
    store still accepts ([None]: it never fails), and the clock. *)
Record State := mkState {
  smt : gmap string string;
  txSmt : gmap string string;
  kv : gmap string string;
  kvWrites : option nat;
  clock : Z;
}.

Definition set_smt (t : gmap string string) (st : State) : State :=
  mkState t (txSmt st) (kv st) (kvWrites st) (clock st).

Definition set_txSmt (t : gmap string string) (st : State) : State :=
  mkState (smt st) t (kv st) (kvWrites st) (clock st).

Definition set_kv (m : gmap string string) (w : option nat) (st : State) : State :=
  mkState (smt st) (txSmt st) m w (clock st).

(** Computations that read and write the state and may throw; a thrown
    exception keeps the writes made before it. *)
Definition M (A : Type) : Type := State -> outcome A * State.

Definition ret {A} (a : A) : M A := fun st => (Return a, st).

Definition throw {A} (e : exn) : M A := fun st => (Throw e, st).

Definition bind {A B} (c : M A) (k : A -> M B) : M B :=
  fun st =>
    match c st with
    | (Return a, st') => k a st'
    | (Throw e, st') => (Throw e, st')
    end.

Definition lift {A} (o : outcome A) : M A := fun st => (o, st).

Notation "x <- c ;; k" := (bind c (fun x => k))
  (at level 60, c at next level, right associativity).
Notation "c ;;; k" := (bind c (fun _ => k))
  (at level 60, right associativity).

(** What the services take from outside: the hash, the tree package, the
    signature check, JSON and the environment. *)
(** A digest as [keccak256] prints it: [0x] and the 64 lower-case
    hexadecimal digits of its 32 bytes. *)
Definition isDigest (s : string) : bool :=
  match s with
  | String "0" (String "x" r) =>
      (String.length r =? 64)%nat
      && JS.forallb_string (fun c => JS.isDigit c || JS.isLowerHex c) r
  | _ => false
  end.

Class Externals := {
  (** [keccak256] of ethers and viem: bytes to a [0x]-prefixed digest of 32
      bytes. *)
  keccak256 : Viem.bytes -> string;
  keccak256_digest : forall b : Viem.bytes, isDigest (keccak256 b) = true;
  (** The root of an [@cedoor/smt] tree with the given entries. *)
  smtRootOf : gmap string string -> string;
  (** The side nodes of the path to a key in such a tree. *)
  smtSidenodesOf : gmap string string -> string -> list string;
  (** [verifyWalletSignature({ walletAddress, signature, message })]. *)
  verifyWalletSignature : string -> string -> string -> SignatureCheck;
  (** [JSON.stringify] of the [sendTransaction] object. *)
  stringifySendTransaction : SendTransaction -> string;
  (** [JSON.stringify] of an array of entries, and [JSON.parse] of the
      text of a bucket; parsing a malformed text throws a SyntaxError
      ([None]). *)
  stringifyEntries : list TransactionEntry -> string;
  parseJson : string -> option parsed;
  (** [env.SKIP_RECEIVER_SECRET_CHECK]. *)
  SKIP_RECEIVER_SECRET_CHECK : bool;
}.

Section Services.
Context {E : Externals}.

(* ===================================================================== *)
(** ** The tree package, the store and the secrets                        *)
(* ===================================================================== *)

(** [checkHex] of the tree package, [/^[0-9A-Fa-f]{1,64}$/], and what the
    package throws for a key or a value that fails it. *)
Definition checkHex (n : string) : bool :=
  (1 <=? String.length n)%nat && (String.length n <=? 64)%nat
  && JS.forallb_string JS.isHexDigit n.

Definition notHexadecimal (parameter : string) : exn :=
  Error ("Parameter " ++ parameter ++ " must be a hexadecimal").

(** A key between double quotes, as the package prints it. *)
Definition quoted (key : string) : string :=
  String (ascii_of_nat 34) (key ++ String (ascii_of_nat 34) EmptyString).

(** The [@cedoor/smt] operations the services call, on the entries of a
    tree. Each first checks its key, and [add] and [update] their value,
    with [checkHex]; then [get] is a lookup, [add] refuses a key that is
    present, [update] one that is absent, and a proof carries the root of
    the tree it was created from. *)
Definition smt_get (t : gmap string string) (k : string)
  : outcome (option string) :=
  if negb (checkHex k) then Throw (notHexadecimal k)
  else Return (t !! k).

Definition smt_add (t : gmap string string) (k v : string)
  : outcome (gmap string string) :=
  if negb (checkHex k) then Throw (notHexadecimal k)
  else if negb (checkHex v) then Throw (notHexadecimal v)
  else
    match t !! k with
    | Some _ => Throw (Error ("Key " ++ quoted k ++ " already exists"))
    | None => Return (<[k := v]> t)
    end.

Definition smt_update (t : gmap string string) (k v : string)
  : outcome (gmap string string) :=
  if negb (checkHex k) then Throw (notHexadecimal k)
  else if negb (checkHex v) then Throw (notHexadecimal v)
  else
    match t !! k with
    | Some _ => Return (<[k := v]> t)
    | None => Throw (Error ("Key " ++ quoted k ++ " does not exist"))
    end.

Definition smt_createProof (t : gmap string string) (k : string)
  : outcome SmtProof :=
  if negb (checkHex k) then Throw (notHexadecimal k)
  else Return {| smt_root := smtRootOf t; sidenodes := smtSidenodesOf t k |}.

(** Modelled from the spec: the durable key-value store of [db.service.ts],
    which is not among the sources; a string-keyed store with [get(key)] and
    [put(key, value)], whose writes fail with a PersistenceError when the
    store is unavailable. *)
Definition dbGet (k : string) : M (option string) :=
  fun st => (Return (kv st !! k), st).

Definition dbPut (k v : string) : M unit :=
  fun st =>
    match kvWrites st with
    | Some O => (Throw PersistenceError, st)
    | Some (S n) => (Return tt, set_kv (<[k := v]> (kv st)) (Some n) st)
    | None => (Return tt, set_kv (<[k := v]> (kv st)) None st)
    end.

(** Modelled from the spec: the secret store of [secret.service.ts], which
    is not among the sources; the balance secret of a wallet is the record
    [secret:balance:{wallet}], its transaction secret the record
    [secret:tx:{wallet}], and [hasAllSecrets] requires both. *)
Definition getBalanceSecret (wallet : string) : M (option string) :=
  dbGet ("secret:balance:" ++ wallet).

Definition getTxSecret (wallet : string) : M (option string) :=
  dbGet ("secret:tx:" ++ wallet).

Definition hasAllSecrets (wallet : string) : M bool :=
  b <- getBalanceSecret wallet ;;
  t <- getTxSecret wallet ;;
  ret (JS.truthy b && JS.truthy t).

(** [Date.now()]. *)
Definition now : M Z := fun st => (Return (clock st), st).

(* ===================================================================== *)
(** ** balance.service.ts                                                 *)
(* ===================================================================== *)

(** [PRECISION = BigInt(10 ** 18)]. *)
Definition PRECISION : Z := 10 ^ 18.

Definition normalize (hex : string) : string :=
  let h := match hex with
           | String "0" (String "x" r) => r
           | _ => hex
           end in
  JS.padStart 64 "0" h.

Definition toHexBalance (balance : string) : outcome string :=
  let num := JS.parseFloat balance in
  match JS.toBigInt (JS.floor (JS.mul num (JS.ofBigInt PRECISION))) with
  | Some bigVal => Return (normalize (JS.intToString 16 bigVal))
  | None => Throw RangeError
  end.

(** [BigInt('0x' + value)]: the text after the prefix must be hexadecimal
    digits, at least one, with optional trailing white space. *)
Definition hexBigInt (value : string) : option Z :=
  let ds := rev (JS.dropWhile JS.isWhiteSpace (rev (list_ascii_of_string value))) in
  match ds with
  | [] => None
  | _ => if forallb JS.isHexDigit ds then Some (JS.digitsValue 16 ds) else None
  end.

Definition fromHexBalance (value : string) : outcome string :=
  match hexBigInt value with
  | Some bigVal =>
      let num := JS.div (JS.ofBigInt bigVal) (JS.ofBigInt PRECISION) in
      Return (JS.toString num)
  | None => Throw SyntaxError
  end.

(** The bytes [generateKey] hashes. *)
Definition generateKeyInput (wallet token userSecret : string) : Viem.bytes :=
  Viem.concat [Viem.toBytes (JS.toLowerCase wallet);
               Viem.toBytes (JS.toLowerCase token);
               Viem.toBytes userSecret].

Definition generateKey (wallet token userSecret : string) : string :=
  normalize (keccak256 (generateKeyInput wallet token userSecret)).

Definition getSmt : M (gmap string string) := fun st => (Return (smt st), st).

Definition smtAdd (k v : string) : M unit :=
  fun st =>
    match smt_add (smt st) k v with
    | Return t => (Return tt, set_smt t st)
    | Throw e => (Throw e, st)
    end.

Definition smtUpdate (k v : string) : M unit :=
  fun st =>
    match smt_update (smt st) k v with
    | Return t => (Return tt, set_smt t st)
    | Throw e => (Throw e, st)
    end.

Definition getBalance (wallet token : string) : M string :=
  userSecret <- getBalanceSecret wallet ;;
  if negb (JS.truthy userSecret) then ret "0"
  else
    let key := generateKey wallet token (default "" userSecret) in
    t <- getSmt ;;
    value <- lift (smt_get t key) ;;
    if JS.truthy value then lift (fromHexBalance (default "" value)) else ret "0".

Definition balanceDbKey (wallet token : string) : string :=
  "balance:" ++ JS.toLowerCase wallet ++ ":" ++ JS.toLowerCase token.

Definition setBalance (wallet token balance : string) : M unit :=
  userSecret <- getBalanceSecret wallet ;;
  if negb (JS.truthy userSecret)
  then throw (Error "User has not set balance secret")
  else
    let key := generateKey wallet token (default "" userSecret) in
    hexBalance <- lift (toHexBalance balance) ;;
    t <- getSmt ;;
    exists_ <- lift (smt_get t key) ;;
    (if JS.truthy exists_ then smtUpdate key hexBalance
     else smtAdd key hexBalance) ;;;
    dbPut (balanceDbKey wallet token) balance.

Definition updateBalance (wallet token newBalance : string) : M unit :=
  userSecret <- getBalanceSecret wallet ;;
  if negb (JS.truthy userSecret)
  then throw (Error "User has not set balance secret")
  else
    let key := generateKey wallet token (default "" userSecret) in
    t <- getSmt ;;
    exists_ <- lift (smt_get t key) ;;
    (if JS.truthy exists_
     then (v <- lift (toHexBalance newBalance) ;; smtUpdate key v)
     else (v <- lift (toHexBalance newBalance) ;; smtAdd key v)) ;;;
    dbPut (balanceDbKey wallet token) newBalance.

Definition getProof (wallet token : string) : M Proof :=
  userSecret <- getBalanceSecret wallet ;;
  if negb (JS.truthy userSecret)
  then throw (Error "User has not set balance secret")
  else
    let key := generateKey wallet token (default "" userSecret) in
    t <- getSmt ;;
    proof <- lift (smt_createProof t key) ;;
    balance <- getBalance wallet token ;;
    value <- lift (toHexBalance balance) ;;
    ret {| root := normalize (smt_root proof);
           siblings := List.map normalize (sidenodes proof);
           key := key;
           value := value |}.

Definition getRoot : M string :=
  t <- getSmt ;; ret (smtRootOf t).

Definition verifyProof (proof : Proof) : M bool :=
  t <- getSmt ;;
  smtProof <- lift (smt_createProof t (key proof)) ;;
  ret (String.eqb (normalize (smt_root smtProof)) (root proof)).

(* ===================================================================== *)
(** ** transaction.service.ts                                             *)
(* ===================================================================== *)

(** The bytes [generateTxKey] hashes. *)
Definition generateTxKeyInput (sender receiver token userSecret : string)
  : Viem.bytes :=
  Viem.concat [Viem.toBytes (JS.toLowerCase sender);
               Viem.toBytes (JS.toLowerCase receiver);
               Viem.toBytes (JS.toLowerCase token);
               Viem.toBytes userSecret].

Definition generateTxKey (sender receiver token userSecret : string) : string :=
  normalize (keccak256 (generateTxKeyInput sender receiver token userSecret)).

Definition hashTransactions (transactions : list TransactionEntry) : string :=
  let data := stringifyEntries transactions in
  normalize (keccak256 (Viem.toBytes data)).

(** The entries of a text that parses to an array of entries. *)
Definition parseEntries (text : string) : option (list TransactionEntry) :=
  match parseJson text with
  | Some (ParsedEntries transactions) => Some transactions
  | _ => None
  end.

(** [JSON.stringify] of a parsed value, and [hashTransactions] of it. *)
Definition stringifyParsed (value : parsed) : string :=
  match value with
  | ParsedEntries transactions => stringifyEntries transactions
  | ParsedOther text => text
  end.

Definition hashParsed (value : parsed) : string :=
  normalize (keccak256 (Viem.toBytes (stringifyParsed value))).

Definition getTxSmt : M (gmap string string) :=
  fun st => (Return (txSmt st), st).

Definition txSmtAdd (k v : string) : M unit :=
  fun st =>
    match smt_add (txSmt st) k v with
    | Return t => (Return tt, set_txSmt t st)
    | Throw e => (Throw e, st)
    end.

Definition txSmtUpdate (k v : string) : M unit :=
  fun st =>
    match smt_update (txSmt st) k v with
    | Return t => (Return tt, set_txSmt t st)
    | Throw e => (Throw e, st)
    end.

Inductive LeafType := SenderLeaf | ReceiverLeaf.

Definition leafTypeName (type : LeafType) : string :=
  match type with
  | SenderLeaf => "sender"
  | ReceiverLeaf => "receiver"
  end.

Definition txDbKey (sender receiver token : string) (type : LeafType) : string :=
  "txdata:" ++ JS.toLowerCase sender ++ ":" ++ JS.toLowerCase receiver ++ ":"
    ++ JS.toLowerCase token ++ ":" ++ leafTypeName type.

Definition updateTxLeaf (sender receiver token : string) (type : LeafType)
    (userSecret : string) (newTx : TransactionEntry) : M unit :=
  let dbKey := txDbKey sender receiver token type in
  existing <- dbGet dbKey ;;
  transactions0 <-
    (if JS.truthy existing then
       match parseJson (default "" existing) with
       | Some (ParsedEntries l) => ret l
       | Some (ParsedOther _) => throw TypeError
       | None => throw SyntaxError
       end
     else ret []) ;;
  let transactions := (transactions0 ++ [newTx])%list in
  let smtKey := generateTxKey sender receiver token userSecret in
  let valueHash := hashTransactions transactions in
  t <- getTxSmt ;;
  existingValue <- lift (smt_get t smtKey) ;;
  (if JS.truthy existingValue then txSmtUpdate smtKey valueHash
   else txSmtAdd smtKey valueHash) ;;;
  dbPut dbKey (stringifyEntries transactions).

Definition addTransaction (sender receiver token amount : string) : M Z :=
  timestamp <- now ;;
  senderSecret <- getTxSecret sender ;;
  receiverSecret <- getTxSecret receiver ;;
  if negb (JS.truthy senderSecret)
  then throw (Error "Sender has not set transaction secret")
  else if negb (JS.truthy receiverSecret)
  then throw (Error "Receiver has not set transaction secret")
  else
    let newTx := mkTransactionEntry sender receiver token amount timestamp in
    updateTxLeaf sender receiver token SenderLeaf (default "" senderSecret) newTx ;;;
    updateTxLeaf sender receiver token ReceiverLeaf (default "" receiverSecret) newTx ;;;
    ret timestamp.

Definition getTxProof (sender receiver token forWallet : string) : M Proof :=
  userSecret <- getTxSecret forWallet ;;
  if negb (JS.truthy userSecret)
  then throw (Error "User has not set transaction secret")
  else
    let key := generateTxKey sender receiver token (default "" userSecret) in
    t <- getTxSmt ;;
    proof <- lift (smt_createProof t key) ;;
    value <- lift (smt_get t key) ;;
    ret {| root := normalize (smt_root proof);
           siblings := List.map normalize (sidenodes proof);
           key := key;
           value := JS.orElse value "0" |}.

Definition getTxRoot : M string :=
  t <- getTxSmt ;; ret (smtRootOf t).

Definition verifyTxProof (proof : Proof) : M bool :=
  t <- getTxSmt ;;
  smtProof <- lift (smt_createProof t (key proof)) ;;
  ret (String.eqb (normalize (smt_root smtProof)) (root proof)).

(* ===================================================================== *)
(** ** wallet.service.ts                                                  *)
(* ===================================================================== *)

(** [/^0x[a-fA-F0-9]{40}$/]. *)
Definition isAddress (s : string) : bool :=
  match s with
  | String "0" (String "x" r) =>
      (String.length r =? 40)%nat && JS.forallb_string JS.isHexDigit r
  | _ => false
  end.

(** [/^0x[a-fA-F0-9]+$/]. *)
Definition isSignature (s : string) : bool :=
  match s with
  | String "0" (String "x" r) =>
      (1 <=? String.length r)%nat && JS.forallb_string JS.isHexDigit r
  | _ => false
  end.

(** [transferSchema.parse]. *)
Definition transferSchema (body : TransferRequest) : outcome TransferRequest :=
  let s := sendTransaction body in
  if isAddress (from s) && isAddress (to s)
     && (1 <=? String.length (token s))%nat
     && (1 <=? String.length (amount s))%nat
     && isSignature (signature body)
  then Return body
  else Throw ZodError.

Definition transfer (body : TransferRequest) : M TransferResult :=
  validated <- lift (transferSchema body) ;;
  let sendTransaction := sendTransaction validated in
  let signature := signature validated in
  if String.eqb (JS.toLowerCase (from sendTransaction))
                (JS.toLowerCase (to sendTransaction))
  then throw (AppError "Cannot transfer to yourself" 400)
  else
    let message := stringifySendTransaction sendTransaction in
    let result := verifyWalletSignature (from sendTransaction) signature message in
    if negb (isValid result)
    then throw (AppError (JS.orElse (error result) "Invalid signature") 401)
    else
      senderHasSecrets <- hasAllSecrets (from sendTransaction) ;;
      if negb senderHasSecrets
      then throw (AppError "Sender has not set all required secrets" 400)
      else
        receiverHasSecrets <- hasAllSecrets (to sendTransaction) ;;
        if negb SKIP_RECEIVER_SECRET_CHECK && negb receiverHasSecrets
        then throw (AppError "Receiver has not set all required secrets" 400)
        else
          senderBalance <- getBalance (from sendTransaction) (token sendTransaction) ;;
          let amountValue := JS.parseFloat (amount sendTransaction) in
          let currentBalance := JS.parseFloat senderBalance in
          if JS.ltb currentBalance amountValue
          then throw (AppError "Insufficient balance" 400)
          else
            let newSenderBalance := JS.toString (JS.sub currentBalance amountValue) in
            updateBalance (from sendTransaction) (token sendTransaction)
                          newSenderBalance ;;;
            (if receiverHasSecrets then
               receiverBalance <- getBalance (to sendTransaction)
                                             (token sendTransaction) ;;
               let newReceiverBalance :=
                 JS.toString (JS.add (JS.parseFloat receiverBalance) amountValue) in
               updateBalance (to sendTransaction) (token sendTransaction)
                             newReceiverBalance
             else ret tt) ;;;
            (if receiverHasSecrets then
               addTransaction (from sendTransaction) (to sendTransaction)
                              (token sendTransaction)
                              (amount sendTransaction) ;;; ret tt
             else ret tt) ;;;
            txHash <- getRoot ;;
            ret {| txHash := txHash;
                   r_from := from sendTransaction;
                   r_to := to sendTransaction;
                   r_token := token sendTransaction;
                   r_amount := amount sendTransaction |}.

End Services.

(* ===================================================================== *)
(** ** A concrete world, for running the services                         *)
(* ===================================================================== *)

Module Demo.

(** A stand-in for the digest: a checksum of 256 bits, printed as a digest
    is. It tells apart the inputs of the runs below, which is all they
    need of a hash. *)
Definition checksum (b : Viem.bytes) : Z :=
  fold_left (fun acc x => ((acc * 257 + Z.of_N (Byte.to_N x) + 1) mod 2 ^ 256)%Z)
            b 0%Z.

Definition hexDigits64 (n : Z) : string :=
  string_of_list_ascii
    (List.map (fun i => JS.digitChar ((n / 16 ^ Z.of_nat i) mod 16)%Z)
              (rev (seq 0 64))).

Definition digest (b : Viem.bytes) : string :=
  "0x" ++ hexDigits64 (checksum b).

(** A stand-in for the root: the digest of the entries in key order. *)
Definition rootOf (t : gmap string string) : string :=
  match map_to_list t with
  | [] => "0"
  | l => digest (Viem.stringToBytes
                   (String.concat "" (List.map (fun kv => fst kv ++ snd kv) l)))
  end.

(** A stand-in for the side nodes: the leaves beside the path's own. *)
Definition sidenodesOf (t : gmap string string) (k : string) : list string :=
  List.map snd (map_to_list (delete k t)).

(** A stand-in for the signature check: a wallet signs with its own
    address. *)
Definition checkSignature (walletAddress signature message : string)
  : SignatureCheck :=
  {| isValid := String.eqb (JS.toLowerCase signature) (JS.toLowerCase walletAddress);
     error := None |}.

Definition showSendTransaction (s : SendTransaction) : string :=
  from s ++ "," ++ to s ++ "," ++ token s ++ "," ++ amount s.

Definition showEntry (e : TransactionEntry) : string :=
  sender e ++ "," ++ receiver e ++ "," ++ tx_token e ++ "," ++ tx_amount e
    ++ "," ++ JS.intToString 10 (timestamp e) ++ ";".

Definition showEntries (l : list TransactionEntry) : string :=
  String.concat "" (List.map showEntry l).

(** Splits a text at every occurrence of a separator character. *)
Fixpoint splitOn (sep : ascii) (cur : string) (s : string) : list string :=
  match s with
  | EmptyString => [cur]
  | String c r =>
      if Ascii.eqb c sep then cur :: splitOn sep "" r
      else splitOn sep (cur ++ String c "") r
  end.

Definition readEntry (s : string) : option TransactionEntry :=
  match splitOn "," "" s with
  | [a; b; c; d; e] =>
      Some (mkTransactionEntry a b c d
              (JS.digitsValue 10 (list_ascii_of_string e)))
  | _ => None
  end.

Fixpoint readEntries (l : list string) : option (list TransactionEntry) :=
  match l with
  | [] => Some []
  | [EmptyString] => Some []
  | s :: r =>
      match readEntry s, readEntries r with
      | Some e, Some es => Some (e :: es)
      | _, _ => None
      end
  end.

(** A stand-in for [JSON.parse]: a text of digits is a number, any other
    text is read as a list of entries, or is malformed. *)
Definition readJson (s : string) : option parsed :=
  if (1 <=? String.length s)%nat && JS.forallb_string JS.isDigit s
  then Some (ParsedOther s)
  else option_map ParsedEntries (readEntries (splitOn ";" "" s)).

Program Definition world (skip : bool) : Externals :=
  {| keccak256 := digest;
     smtRootOf := rootOf;
     smtSidenodesOf := sidenodesOf;
     verifyWalletSignature := checkSignature;
     stringifySendTransaction := showSendTransaction;
     stringifyEntries := showEntries;
     parseJson := readJson;
     SKIP_RECEIVER_SECRET_CHECK := skip |}.
Next Obligation.
  intros _ b. unfold digest, hexDigits64. generalize (checksum b). intros n.
  assert (Hlen : forall l, String.length (string_of_list_ascii l) = List.length l).
  { induction l as [|c l IH]; simpl; [reflexivity|now rewrite IH]. }
  assert (Hall : forall l, forallb (fun c => JS.isDigit c || JS.isLowerHex c) l = true ->
            JS.forallb_string (fun c => JS.isDigit c || JS.isLowerHex c)
              (string_of_list_ascii l) = true).
  { induction l as [|c l IH]; simpl; [reflexivity|].
    intros Hl. apply andb_true_iff in Hl as [Hc Hl]. now rewrite Hc, IH. }
  assert (Hshape : forall r, String.length r = 64%nat ->
            JS.forallb_string (fun c => JS.isDigit c || JS.isLowerHex c) r = true ->
            isDigest ("0x" ++ r) = true).
  { intros r Hl Hp. unfold isDigest.
    change ("0x" ++ r) with (String "0" (String "x" r)). cbv beta iota.
    now rewrite Hl, Hp. }
  apply Hshape; [now rewrite Hlen, length_map, length_rev, length_seq|].
  apply Hall, forallb_forall. intros c Hc.
  apply in_map_iff in Hc as (i & <- & _).
  pose proof (Z.mod_pos_bound (n / 16 ^ Z.of_nat i) 16 ltac:(lia)) as Hd.
  assert (Hcases : forall d : Z, (0 <= d < 16)%Z ->
            JS.isDigit (JS.digitChar d) || JS.isLowerHex (JS.digitChar d) = true).
  { intros d Hd'.
    assert (Hd16 : (d = 0 \/ d = 1 \/ d = 2 \/ d = 3 \/ d = 4 \/ d = 5 \/ d = 6
                    \/ d = 7 \/ d = 8 \/ d = 9 \/ d = 10 \/ d = 11 \/ d = 12
                    \/ d = 13 \/ d = 14 \/ d = 15)%Z) by lia.
    repeat (destruct Hd16 as [->|Hd16]; [reflexivity|]). now subst d. }
  now apply Hcases.
Qed.

Definition alice : string := "0x" ++ JS.repeatChar 40 "a".
Definition bob : string := "0x" ++ JS.repeatChar 40 "b".
Definition usdc : string := "0x" ++ JS.repeatChar 40 "c".

(** Both wallets unlocked, nothing deposited yet. *)
Definition unlocked : State :=
  {| smt := ∅;
     txSmt := ∅;
     kv := <["secret:balance:" ++ alice := "0x" ++ JS.repeatChar 64 "1"]>
          (<["secret:tx:" ++ alice := "0x" ++ JS.repeatChar 64 "2"]>
          (<["secret:balance:" ++ bob := "0x" ++ JS.repeatChar 64 "3"]>
          (<["secret:tx:" ++ bob := "0x" ++ JS.repeatChar 64 "4"]> ∅)));
     kvWrites := None;
     clock := 1700000000000 |}.

(** The state after [setBalance(alice, usdc, a)] and [setBalance(bob, usdc,
    b)] in the world that requires the receiver's secrets. *)
Definition funded (a b : string) : State :=
  snd (setBalance (E := world false) bob usdc b
         (snd (setBalance (E := world false) alice usdc a unlocked))).

Definition request (amount : string) : TransferRequest :=
  {| sendTransaction := mkSendTransaction alice bob usdc amount;
     signature := alice |}.

(** The store accepts [n] more writes and then fails. *)
Definition failingAfter (n : nat) (st : State) : State :=
  set_kv (kv st) (Some n) st.

(** The same state, some milliseconds later. *)
Definition later (ms : Z) (st : State) : State :=
  mkState (smt st) (txSmt st) (kv st) (kvWrites st) (clock st + ms).

(** The scaled integer held by the balance leaf of a wallet. *)
Definition leafOf (wallet : string) (st : State) : option Z :=
  match kv st !! ("secret:balance:" ++ wallet) with
  | Some secret =>
      match smt st !! generateKey (E := world false) wallet usdc secret with
      | Some v => hexBigInt v
      | None => None
      end
  | None => None
  end.

End Demo.

(** Errors raised by the checks of [transfer] that precede every write:
    schema validation and the [AppError]s. *)
Definition isCheckError (e : exn) : bool :=
  match e with
  | ZodError | AppError _ _ => true
  | _ => false
  end.

(** The entries [updateTxLeaf] finds under a store key before it appends:
    the parsed record, or none when there is no record. *)
Definition existingTransactions {E : Externals} (st : State) (dbKey : string)
  : option (list TransactionEntry) :=
  if JS.truthy (kv st !! dbKey)
  then parseEntries (default "" (kv st !! dbKey))
  else Some [].

(** The balance leaf of a wallet holds the encoding of a given amount. *)
Definition leafEncodes {E : Externals} (st : State) (wallet token balance : string)
  : Prop :=
  exists secret hex : string,
    kv st !! ("secret:balance:" ++ wallet) = Some secret
    /\ toHexBalance balance = Return hex
    /\ smt st !! generateKey wallet token secret = Some hex.

(** The sender's balance after the debit and the receiver's after the
    credit, as [transfer] computes them. *)
Definition debited (s : SendTransaction) (balance : string) : string :=
  JS.toString (JS.sub (JS.parseFloat balance) (JS.parseFloat (amount s))).

Definition credited (s : SendTransaction) (balance : string) : string :=
  JS.toString (JS.add (JS.parseFloat balance) (JS.parseFloat (amount s))).

(** The ways a call of [transfer] ends, by the last step it reached: it is
    rejected before any write; or the debit, the receiver's balance read,
    the credit or the ledger append throws; or it returns, with or without
    the receiver's side. *)
Inductive TransferRun {E : Externals} (body : TransferRequest) (st : State)
  : outcome TransferResult -> State -> Prop :=
| RunRejected (e : exn) :
    isCheckError e = true \/ e = SyntaxError ->
    TransferRun body st (Throw e) st
| RunDebitThrows (bal : string) (e : exn) (st' : State) :
    let s := sendTransaction body in
    JS.toLowerCase (from s) <> JS.toLowerCase (to s) ->
    getBalance (from s) (token s) st = (Return bal, st) ->
    updateBalance (from s) (token s) (debited s bal) st = (Throw e, st') ->
    TransferRun body st (Throw e) st'
| RunDebitOnly (bal : string) (res : TransferResult) (st1 : State) :
    let s := sendTransaction body in
    JS.toLowerCase (from s) <> JS.toLowerCase (to s) ->
    getBalance (from s) (token s) st = (Return bal, st) ->
    updateBalance (from s) (token s) (debited s bal) st = (Return tt, st1) ->
    fst (hasAllSecrets (to s) st) = Return false ->
    TransferRun body st (Return res) st1
| RunReadThrows (bal : string) (e : exn) (st1 : State) :
    let s := sendTransaction body in
    JS.toLowerCase (from s) <> JS.toLowerCase (to s) ->
    getBalance (from s) (token s) st = (Return bal, st) ->
    updateBalance (from s) (token s) (debited s bal) st = (Return tt, st1) ->
    fst (hasAllSecrets (to s) st) = Return true ->
    getBalance (to s) (token s) st1 = (Throw e, st1) ->
    TransferRun body st (Throw e) st1
| RunCreditThrows (bal rbal : string) (e : exn) (st1 st' : State) :
    let s := sendTransaction body in
    JS.toLowerCase (from s) <> JS.toLowerCase (to s) ->
    getBalance (from s) (token s) st = (Return bal, st) ->
    updateBalance (from s) (token s) (debited s bal) st = (Return tt, st1) ->
    fst (hasAllSecrets (to s) st) = Return true ->
    getBalance (to s) (token s) st1 = (Return rbal, st1) ->
    updateBalance (to s) (token s) (credited s rbal) st1 = (Throw e, st') ->
    TransferRun body st (Throw e) st'
| RunLedgerThrows (bal rbal : string) (e : exn) (st1 st2 st' : State) :
    let s := sendTransaction body in
    JS.toLowerCase (from s) <> JS.toLowerCase (to s) ->
    getBalance (from s) (token s) st = (Return bal, st) ->
    updateBalance (from s) (token s) (debited s bal) st = (Return tt, st1) ->
    fst (hasAllSecrets (to s) st) = Return true ->
    getBalance (to s) (token s) st1 = (Return rbal, st1) ->
    updateBalance (to s) (token s) (credited s rbal) st1 = (Return tt, st2) ->
    addTransaction (from s) (to s) (token s) (amount s) st2 = (Throw e, st') ->
    TransferRun body st (Throw e) st'
| RunComplete (bal rbal : string) (ts : Z) (res : TransferResult)
    (st1 st2 st' : State) :
    let s := sendTransaction body in
    JS.toLowerCase (from s) <> JS.toLowerCase (to s) ->
    getBalance (from s) (token s) st = (Return bal, st) ->
    updateBalance (from s) (token s) (debited s bal) st = (Return tt, st1) ->
    fst (hasAllSecrets (to s) st) = Return true ->
    getBalance (to s) (token s) st1 = (Return rbal, st1) ->
    updateBalance (to s) (token s) (credited s rbal) st1 = (Return tt, st2) ->
    addTransaction (from s) (to s) (token s) (amount s) st2 = (Return ts, st') ->
    TransferRun body st (Return res) st'.

(** A decimal numeral: digits with an optional fractional part. *)
Definition isDecimalNumeral (s : string) : bool :=
  let '(ip, r) := JS.span JS.isDigit (list_ascii_of_string s) in
  match ip, r with
  | _ :: _, [] => true
  | _ :: _, "."%char :: f => match f with
                             | [] => false
                             | _ => forallb JS.isDigit f
                             end
  | _, _ => false
  end.

(** The number of digits after the decimal point. *)
Definition fractionalDigits (s : string) : nat :=
  match snd (JS.span JS.isDigit (list_ascii_of_string s)) with
  | "."%char :: f => List.length f
  | _ => O
  end.

(** The amount a decimal numeral with at most 18 fractional digits stands
    for, in units of 10^-18, read digit by digit. *)
Definition exactUnits (s : string) : option Z :=
  if isDecimalNumeral s && (fractionalDigits s <=? 18)%nat then
    let '(ip, r) := JS.span JS.isDigit (list_ascii_of_string s) in
    let fp := match r with
              | "."%char :: f => f
              | _ => []
              end in
    Some (JS.digitsValue 10 (ip ++ fp)%list
          * 10 ^ (18 - Z.of_nat (List.length fp)))%Z
  else None.

(** What [updateTxLeaf] throws for a bucket it cannot append to: the
    SyntaxError of [JSON.parse], or the TypeError of a value without
    [push]. *)
Definition bucketError {E : Externals} (st : State) (dbKey : string) : exn :=
  match parseJson (default "" (kv st !! dbKey)) with
  | Some (ParsedOther _) => TypeError
  | _ => SyntaxError
  end.

(* ===================================================================== *)
(** ** The rest of the services: scans, rebuilds, lists                   *)
(* ===================================================================== *)

(** [s.split(sep)] for a one-character separator. *)
Fixpoint split (sep : ascii) (s : string) : list string :=
  match s with
  | EmptyString => [EmptyString]
  | String c r =>
      if Ascii.eqb c sep then EmptyString :: split sep r
      else match split sep r with
           | x :: xs => String c x :: xs
           | [] => [String c EmptyString]
           end
  end.

(** Insertion of a record into a list ordered by key. *)
Fixpoint insertByKey (e : string * string) (l : list (string * string))
  : list (string * string) :=
  match l with
  | [] => [e]
  | x :: r => if String.leb (fst e) (fst x) then e :: l else x :: insertByKey e r
  end.

(** Modelled from the spec: the prefix scan of [db.service.ts], which is
    not among the sources; [dbGetAll(prefix)] returns the records whose key
    starts with the prefix, as [{ key, value }] pairs in key order. *)
Definition dbGetAll (prefix : string) : M (list (string * string)) :=
  fun st =>
    (Return (foldr insertByKey []
               (List.filter (fun e => String.prefix prefix (fst e))
                  (map_to_list (kv st)))), st).

(** A [for (const x of l)] loop whose body may throw. *)
Fixpoint forEach {A : Type} (body : A -> M unit) (l : list A) : M unit :=
  match l with
  | [] => ret tt
  | x :: r => body x ;;; forEach body r
  end.

(** [l.map(async x => ...)] awaited with [Promise.all], for callbacks that
    only read: the results in the order of the list, or a rejection. *)
Fixpoint mapAll {A B : Type} (f : A -> M B) (l : list A) : M (list B) :=
  match l with
  | [] => ret []
  | x :: r => y <- f x ;; ys <- mapAll f r ;; ret (y :: ys)
  end.

(** The TypeError of calling [toLowerCase] on [undefined]. *)
Definition undefinedToLowerCase : exn := TypeError.

(** An item of [getAllBalances]. *)
Record BalanceWithProof := mkBalanceWithProof {
  b_token : string;
  b_balance : string;
  b_proof : Proof;
}.

Section MoreServices.
Context {E : Externals}.

(** The hash handed to [new SMT(hash)] by both services. *)
Definition hashInput (childNodes : list string) : Viem.bytes :=
  let concatenated := String.concat "" (List.map normalize childNodes) in
  Viem.toBytes ("0x" ++ concatenated).

Definition hash (childNodes : list string) : string :=
  normalize (keccak256 (hashInput childNodes)).

(** The wallet a lookup of a secret is made for, when the key part it is
    taken from may be missing: the template text of [undefined]. *)
Definition orUndefined (part : option string) : string :=
  default "undefined" part.

(** The body of the loop of [loadFromDatabase]. A key with no third part
    leaves the token undefined, on which [generateKey] throws. *)
Definition loadBalanceEntry (entry : string * string) : M unit :=
  let parts := split ":" (fst entry) in
  let walletAddr := parts !! 1%nat in
  let tokenAddr := parts !! 2%nat in
  let balance := snd entry in
  userSecret <- getBalanceSecret (orUndefined walletAddr) ;;
  if negb (JS.truthy userSecret) then ret tt
  else
    match walletAddr, tokenAddr with
    | Some walletAddr, Some tokenAddr =>
        let key := generateKey walletAddr tokenAddr (default "" userSecret) in
        hexBalance <- lift (toHexBalance balance) ;;
        t <- getSmt ;;
        exists_ <- lift (smt_get t key) ;;
        if JS.truthy exists_ then smtUpdate key hexBalance
        else smtAdd key hexBalance
    | _, _ => throw undefinedToLowerCase
    end.

Definition loadFromDatabase : M unit :=
  entries <- dbGetAll "balance:" ;;
  if (List.length entries =? 0)%nat then ret tt
  else forEach loadBalanceEntry entries.

Definition initializeBalanceService : M unit :=
  (fun st => (Return tt, set_smt ∅ st)) ;;;
  loadFromDatabase.

(** The body of the loop of [loadTransactionsFromDatabase]. *)
Definition loadTxEntry (entry : string * string) : M unit :=
  let parts := split ":" (fst entry) in
  let sender := parts !! 1%nat in
  let receiver := parts !! 2%nat in
  let token := parts !! 3%nat in
  let type := parts !! 4%nat in
  let wallet := if bool_decide (type = Some "sender") then sender else receiver in
  userSecret <- getTxSecret (orUndefined wallet) ;;
  if negb (JS.truthy userSecret) then ret tt
  else
    match parseJson (snd entry) with
    | None => throw SyntaxError
    | Some transactions =>
        match sender, receiver, token with
        | Some sender, Some receiver, Some token =>
            let key := generateTxKey sender receiver token
                         (default "" userSecret) in
            let valueHash := hashParsed transactions in
            t <- getTxSmt ;;
            exists_ <- lift (smt_get t key) ;;
            if JS.truthy exists_ then txSmtUpdate key valueHash
            else txSmtAdd key valueHash
        | _, _, _ => throw undefinedToLowerCase
        end
    end.

Definition loadTransactionsFromDatabase : M unit :=
  entries <- dbGetAll "txdata:" ;;
  if (List.length entries =? 0)%nat then ret tt
  else forEach loadTxEntry entries.

Definition initializeTransactionService : M unit :=
  (fun st => (Return tt, set_txSmt ∅ st)) ;;;
  loadTransactionsFromDatabase.

(** The callback of [getAllBalances]. A key with no third part leaves the
    token undefined, on which [generateKey] throws once [getProof] has
    found the secret. *)
Definition balanceItem (wallet : string) (entry : string * string)
  : M BalanceWithProof :=
  match split ":" (fst entry) !! 2%nat with
  | Some token =>
      proof <- getProof wallet token ;;
      ret (mkBalanceWithProof token (snd entry) proof)
  | None =>
      userSecret <- getBalanceSecret wallet ;;
      if negb (JS.truthy userSecret)
      then throw (Error "User has not set balance secret")
      else throw undefinedToLowerCase
  end.

Definition getAllBalances (wallet : string) : M (list BalanceWithProof) :=
  let prefix := "balance:" ++ JS.toLowerCase wallet ++ ":" in
  entries <- dbGetAll prefix ;;
  mapAll (balanceItem wallet) entries.

(** The buckets [getTransactionHistory] reads for a wallet: those keyed on
    it as the sender of a sender bucket or the receiver of a receiver
    bucket. *)
Definition involves (walletLower : string) (entryKey : string) : bool :=
  let parts := split ":" entryKey in
  let sender := parts !! 1%nat in
  let receiver := parts !! 2%nat in
  let type := parts !! 4%nat in
  let isSender := bool_decide (sender = Some walletLower)
                  && bool_decide (type = Some "sender") in
  let isReceiver := bool_decide (receiver = Some walletLower)
                    && bool_decide (type = Some "receiver") in
  isSender || isReceiver.

Fixpoint collectHistory (walletLower : string) (entries : list (string * string))
  : outcome (list TransactionEntry) :=
  match entries with
  | [] => Return []
  | entry :: r =>
      if involves walletLower (fst entry) then
        match parseJson (snd entry) with
        | None => Throw SyntaxError
        | Some (ParsedOther _) => Throw TypeError
        | Some (ParsedEntries transactions) =>
            match collectHistory walletLower r with
            | Return h => Return (transactions ++ h)%list
            | Throw e => Throw e
            end
        end
      else collectHistory walletLower r
  end.

(** [history.sort((a, b) => b.timestamp - a.timestamp)]: a stable sort,
    newest first. *)
Fixpoint insertNewestFirst (tx : TransactionEntry) (l : list TransactionEntry)
  : list TransactionEntry :=
  match l with
  | [] => [tx]
  | y :: r =>
      if (timestamp tx <? timestamp y)%Z then y :: insertNewestFirst tx r
      else tx :: l
  end.

Definition sortNewestFirst (l : list TransactionEntry) : list TransactionEntry :=
  foldr insertNewestFirst [] l.

(** The text under which the history tells two entries apart. *)
Definition historyKey (tx : TransactionEntry) : string :=
  sender tx ++ ":" ++ receiver tx ++ ":" ++ tx_token tx ++ ":"
    ++ JS.intToString 10 (timestamp tx).

(** [history.filter(...)] with the set [seen]. *)
Fixpoint unique (seen : gset string) (l : list TransactionEntry)
  : list TransactionEntry :=
  match l with
  | [] => []
  | tx :: r =>
      if bool_decide (historyKey tx ∈ seen) then unique seen r
      else tx :: unique ({[historyKey tx]} ∪ seen) r
  end.

Definition getTransactionHistory (wallet : string) : M (list TransactionEntry) :=
  allEntries <- dbGetAll "txdata:" ;;
  let walletLower := JS.toLowerCase wallet in
  history <- lift (collectHistory walletLower allEntries) ;;
  ret (unique ∅ (sortNewestFirst history)).

End MoreServices.

(** Every leaf of a tree has the width [normalize] pads to, or more. *)
Definition leavesPadded (t : gmap string string) : Prop :=
  forall k v : string, t !! k = Some v -> (64 <= String.length v)%nat.

(** The leaf a record of the store gives to the rebuilt balance tree: the
    key of the record names a wallet and a token, the wallet has a balance
    secret, and the leaf holds the encoding of the record's text, which
    the tree accepts, under the tree key of the three. *)
Definition recordLeaf {E : Externals} (st : State) (entry : string * string)
  : option (string * string) :=
  match split ":" (fst entry) !! 1%nat, split ":" (fst entry) !! 2%nat with
  | Some walletAddr, Some tokenAddr =>
      match kv st !! ("secret:balance:" ++ walletAddr) with
      | Some userSecret =>
          if JS.truthy (Some userSecret) then
            match toHexBalance (snd entry) with
            | Return hexBalance =>
                if checkHex hexBalance
                then Some (generateKey walletAddr tokenAddr userSecret, hexBalance)
                else None
            | Throw _ => None
            end
          else None
      | None => None
      end
  | _, _ => None
  end.

(** A record on which the rebuild of the balance tree stops: its wallet
    has a secret and its key has no token part, or its text cannot be
    encoded, or the tree refuses the encoding (a minus sign, or more than
    64 digits). *)
Definition recordFails {E : Externals} (st : State) (entry : string * string)
    (e : exn) : Prop :=
  JS.truthy (kv st !! ("secret:balance:"
                       ++ orUndefined (split ":" (fst entry) !! 1%nat))) = true
  /\ ((e = undefinedToLowerCase /\ split ":" (fst entry) !! 2%nat = None)
      \/ (e = RangeError /\ toHexBalance (snd entry) = Throw RangeError)
      \/ (exists hexBalance : string,
            e = notHexadecimal hexBalance
            /\ toHexBalance (snd entry) = Return hexBalance
            /\ checkHex hexBalance = false)).

(** The leaf a bucket of the store gives to the rebuilt transaction tree:
    the wallet that owns the bucket (the sender of a sender bucket, the
    receiver of any other) has a transaction secret, the text parses, and
    the leaf holds the hash of what it parses to under the tree key of the
    bucket. *)
Definition bucketLeaf {E : Externals} (st : State) (entry : string * string)
  : option (string * string) :=
  let parts := split ":" (fst entry) in
  let wallet := if bool_decide (parts !! 4%nat = Some "sender")
                then parts !! 1%nat else parts !! 2%nat in
  let userSecret := kv st !! ("secret:tx:" ++ orUndefined wallet) in
  if JS.truthy userSecret then
    match parseJson (snd entry), parts !! 1%nat, parts !! 2%nat, parts !! 3%nat with
    | Some transactions, Some sender, Some receiver, Some token =>
        Some (generateTxKey sender receiver token (default "" userSecret),
              hashParsed transactions)
    | _, _, _, _ => None
    end
  else None.

(** A bucket on which the rebuild of the transaction tree stops: its owner
    has a secret and its text does not parse, or its key has no token
    part. *)
Definition bucketFails {E : Externals} (st : State) (entry : string * string)
    (e : exn) : Prop :=
  let parts := split ":" (fst entry) in
  let wallet := if bool_decide (parts !! 4%nat = Some "sender")
                then parts !! 1%nat else parts !! 2%nat in
  JS.truthy (kv st !! ("secret:tx:" ++ orUndefined wallet)) = true
  /\ ((e = SyntaxError /\ parseJson (snd entry) = None)
      \/ (e = undefinedToLowerCase /\ parseJson (snd entry) <> None
          /\ parts !! 3%nat = None)).

(** Newest first: no entry is older than one that follows it. *)
Definition newestFirst (h : list TransactionEntry) : Prop :=
  forall (i j : nat) (a b : TransactionEntry),
    (i < j)%nat -> h !! i = Some a -> h !! j = Some b ->
    (timestamp b <= timestamp a)%Z.

Arguments bind : simpl never.


(* ===================================================================== *)
(** ** Running the monad                                                  *)
(* ===================================================================== *)

Lemma bind_run {A B} (c : M A) (k : A -> M B) (st : State) :
  bind c k st =
  match c st with
  | (Return a, st') => k a st'
  | (Throw e, st') => (Throw e, st')
  end.
Proof. reflexivity. Qed.

Lemma append_inj_r (a b c : string) : a ++ c = b ++ c -> a = b.
Proof.
  intros Heq.
  assert (Hl : (list_ascii_of_string a ++ list_ascii_of_string c
                = list_ascii_of_string b ++ list_ascii_of_string c)%list).
  { assert (Happ : forall x y, list_ascii_of_string (x ++ y)
                     = (list_ascii_of_string x ++ list_ascii_of_string y)%list).
    { intros x y. induction x as [|ch x IH]; simpl; [reflexivity|].
      now rewrite IH. }
    rewrite <- !Happ. now rewrite Heq. }
  apply app_inv_tail in Hl.
  rewrite <- (string_of_list_ascii_of_string a),
          <- (string_of_list_ascii_of_string b).
  now rewrite Hl.
Qed.

(* ===================================================================== *)
(** ** Keys and leaves the tree accepts                                   *)
(* ===================================================================== *)

Lemma forallb_string_impl (p q : ascii -> bool) (s : string) :
  (forall c, p c = true -> q c = true) ->
  JS.forallb_string p s = true -> JS.forallb_string q s = true.
Proof.
  intros Hpq. induction s as [|c s IH]; simpl; [reflexivity|].
  intros Hs. apply andb_true_iff in Hs as [Hc Hs]. now rewrite (Hpq c Hc), IH.
Qed.

(** A digest, normalized, is a key or a leaf that the tree accepts. *)
Lemma checkHex_digest (d : string) :
  isDigest d = true -> checkHex (normalize d) = true.
Proof.
  destruct d as [|c0 [|c1 r]]; try discriminate.
  - destruct c0 as [[] [] [] [] [] [] [] []]; discriminate.
  - intros Hd.
    assert (Hc0 : c0 = "0"%char)
      by (destruct c0 as [[] [] [] [] [] [] [] []]; try discriminate Hd;
          reflexivity).
    subst c0.
    assert (Hc1 : c1 = "x"%char)
      by (destruct c1 as [[] [] [] [] [] [] [] []]; try discriminate Hd;
          reflexivity).
    subst c1. unfold isDigest in Hd. cbv beta iota in Hd.
    apply andb_true_iff in Hd as [Hlen Hall]. apply Nat.eqb_eq in Hlen.
    unfold normalize, JS.padStart. cbv beta iota zeta. rewrite Hlen.
    change (JS.repeatChar (64 - 64) "0" ++ r) with r.
    unfold checkHex. rewrite Hlen.
    change ((1 <=? 64)%nat && (64 <=? 64)%nat) with true. cbv beta iota.
    refine (forallb_string_impl _ _ _ _ Hall). intros c Hc.
    unfold JS.isHexDigit. apply orb_true_iff in Hc as [->| ->];
      [reflexivity|apply orb_true_r].
Qed.

Section Keys.
Context {E : Externals}.

Lemma generateKey_hex (w t s : string) : checkHex (generateKey w t s) = true.
Proof. apply checkHex_digest, keccak256_digest. Qed.

Lemma generateTxKey_hex (a b t s : string) :
  checkHex (generateTxKey a b t s) = true.
Proof. apply checkHex_digest, keccak256_digest. Qed.

Lemma hashTransactions_hex (l : list TransactionEntry) :
  checkHex (hashTransactions l) = true.
Proof. apply checkHex_digest, keccak256_digest. Qed.

Lemma hashParsed_hex (p : parsed) : checkHex (hashParsed p) = true.
Proof. apply checkHex_digest, keccak256_digest. Qed.

Lemma smt_get_hex (t : gmap string string) (k : string) :
  checkHex k = true -> smt_get t k = Return (t !! k).
Proof. intros Hk. unfold smt_get. now rewrite Hk. Qed.

Lemma smt_createProof_hex (t : gmap string string) (k : string) :
  checkHex k = true ->
  smt_createProof t k
  = Return {| smt_root := smtRootOf t; sidenodes := smtSidenodesOf t k |}.
Proof. intros Hk. unfold smt_createProof. now rewrite Hk. Qed.

End Keys.

Section Proofs.
Context {E : Externals}.

Lemma transferSchema_Return (body v : TransferRequest) :
  transferSchema body = Return v -> v = body.
Proof.
  unfold transferSchema. destruct (_ && _); intros Hv; congruence.
Qed.

Lemma hasAllSecrets_run (w : string) (st : State) :
  hasAllSecrets w st =
  (Return (JS.truthy (kv st !! ("secret:balance:" ++ w))
           && JS.truthy (kv st !! ("secret:tx:" ++ w))), st).
Proof. reflexivity. Qed.

(** What [getBalance] is, once the key is known to pass the check of the
    tree package. *)
Lemma getBalance_unfold (w t : string) (st : State) :
  getBalance w t st =
  if negb (JS.truthy (kv st !! ("secret:balance:" ++ w))) then (Return "0", st)
  else
    let k := generateKey w t (default "" (kv st !! ("secret:balance:" ++ w))) in
    if JS.truthy (smt st !! k)
    then (fromHexBalance (default "" (smt st !! k)), st)
    else (Return "0", st).
Proof.
  unfold getBalance. rewrite bind_run. unfold getBalanceSecret, dbGet.
  destruct (negb _); [reflexivity|].
  rewrite bind_run. unfold getSmt. rewrite bind_run.
  unfold lift at 1. rewrite smt_get_hex by apply generateKey_hex.
  cbv zeta. destruct (JS.truthy _); reflexivity.
Qed.

Lemma getBalance_state (w t : string) (st : State) :
  snd (getBalance w t st) = st.
Proof.
  rewrite getBalance_unfold. destruct (negb _); [reflexivity|].
  cbv zeta. destruct (JS.truthy _); reflexivity.
Qed.

Lemma getBalance_throw (w t : string) (st st' : State) (e : exn) :
  getBalance w t st = (Throw e, st') -> e = SyntaxError.
Proof.
  rewrite getBalance_unfold. destruct (negb _); [discriminate|].
  cbv zeta. destruct (JS.truthy _); [|discriminate].
  unfold fromHexBalance. destruct (hexBigInt _); [discriminate|].
  congruence.
Qed.

(** [getProof], likewise. *)
Lemma getProof_unfold (w t : string) (st : State) :
  getProof w t st =
  if negb (JS.truthy (kv st !! ("secret:balance:" ++ w)))
  then (Throw (Error "User has not set balance secret"), st)
  else
    let k := generateKey w t (default "" (kv st !! ("secret:balance:" ++ w))) in
    match fst (getBalance w t st) with
    | Throw e => (Throw e, st)
    | Return balance =>
        match toHexBalance balance with
        | Throw e => (Throw e, st)
        | Return v =>
            (Return {| root := normalize (smtRootOf (smt st));
                       siblings := List.map normalize (smtSidenodesOf (smt st) k);
                       key := k;
                       value := v |}, st)
        end
    end.
Proof.
  unfold getProof. rewrite bind_run. unfold getBalanceSecret, dbGet.
  destruct (negb _); [reflexivity|].
  rewrite bind_run. unfold getSmt. rewrite bind_run.
  unfold lift at 1. rewrite smt_createProof_hex by apply generateKey_hex.
  rewrite bind_run. pose proof (getBalance_state w t st) as Hst.
  destruct (getBalance w t st) as [[bal|e] st1]; simpl in Hst; subst st1;
    [|reflexivity].
  rewrite bind_run. unfold lift. simpl.
  destruct (toHexBalance bal); reflexivity.
Qed.

Lemma verifyProof_unfold (p : Proof) (st : State) :
  verifyProof p st =
  if checkHex (key p)
  then (Return (String.eqb (normalize (smtRootOf (smt st))) (root p)), st)
  else (Throw (notHexadecimal (key p)), st).
Proof.
  unfold verifyProof. rewrite bind_run. unfold getSmt. rewrite bind_run.
  unfold lift, smt_createProof. now destruct (checkHex (key p)).
Qed.

Lemma verifyTxProof_unfold (p : Proof) (st : State) :
  verifyTxProof p st =
  if checkHex (key p)
  then (Return (String.eqb (normalize (smtRootOf (txSmt st))) (root p)), st)
  else (Throw (notHexadecimal (key p)), st).
Proof.
  unfold verifyTxProof. rewrite bind_run. unfold getTxSmt. rewrite bind_run.
  unfold lift, smt_createProof. now destruct (checkHex (key p)).
Qed.

End Proofs.

(* ===================================================================== *)
(** ** Proof verification                                                 *)
(* ===================================================================== *)

(** C4, amended. For a proof object whose key the tree package accepts
    (1 to 64 hexadecimal digits), [verifyProof] and [verifyTxProof] return
    the comparison of its [root] with the normalized root [smtRootOf] of
    the live tree: true exactly when the two are equal, whatever the
    [siblings] and the [value], and whatever the key among those accepted.
    For any other key they throw the Error of the package, whatever the
    root. *)
Theorem verifyProof_compares_root_only :
  forall (E : Externals) (st : State) (p : Proof),
    (checkHex (key p) = true ->
     verifyProof p st
     = (Return (String.eqb (normalize (smtRootOf (smt st))) (root p)), st)
     /\ verifyTxProof p st
        = (Return (String.eqb (normalize (smtRootOf (txSmt st))) (root p)), st)
     /\ (verifyProof p st = (Return true, st)
         <-> root p = normalize (smtRootOf (smt st)))
     /\ (verifyTxProof p st = (Return true, st)
         <-> root p = normalize (smtRootOf (txSmt st)))
     /\ (forall q : Proof, root q = root p -> checkHex (key q) = true ->
           verifyProof q st = verifyProof p st
           /\ verifyTxProof q st = verifyTxProof p st))
    /\ (checkHex (key p) = false ->
        verifyProof p st = (Throw (notHexadecimal (key p)), st)
        /\ verifyTxProof p st = (Throw (notHexadecimal (key p)), st))
    /\ getRoot st = (Return (smtRootOf (smt st)), st)
    /\ getTxRoot st = (Return (smtRootOf (txSmt st)), st).
Proof.
  intros E st p. split; [|split; [|split; reflexivity]].
  - intros Hk. rewrite verifyProof_unfold, verifyTxProof_unfold, Hk.
    split; [reflexivity|]. split; [reflexivity|]. split; [|split].
    + split.
      * intros Hb. injection Hb as Hb. symmetry. now apply String.eqb_eq.
      * intros ->. now rewrite String.eqb_refl.
    + split.
      * intros Hb. injection Hb as Hb. symmetry. now apply String.eqb_eq.
      * intros ->. now rewrite String.eqb_refl.
    + intros q Hq Hkq. rewrite verifyProof_unfold, verifyTxProof_unfold, Hkq, Hq.
      now split.
  - intros Hk. now rewrite verifyProof_unfold, verifyTxProof_unfold, Hk.
Qed.

(** C1, as the code behaves. A proof returned by [getProof] verifies, and
    it still verifies after its [siblings] are replaced by any list at all:
    [verifyProof] never reads them. *)
Theorem verifyProof_accepts_tampered_siblings :
  forall (E : Externals) (st : State) (wallet token : string)
         (p : Proof) (sibs : list string),
    fst (getProof wallet token st) = Return p ->
    getProof wallet token st = (Return p, st)
    /\ verifyProof p st = (Return true, st)
    /\ verifyProof (mkProof (root p) sibs (key p) (value p)) st
       = (Return true, st).
Proof.
  intros E st wallet token p sibs Hp.
  rewrite getProof_unfold in *.
  destruct (negb _); [discriminate|]. cbv zeta in *.
  destruct (fst (getBalance wallet token st)) as [bal|e]; [|discriminate].
  destruct (toHexBalance bal) as [v|e]; [|discriminate].
  simpl in Hp. injection Hp as Hp. subst p.
  split; [reflexivity|].
  rewrite !verifyProof_unfold. simpl.
  now rewrite generateKey_hex, String.eqb_refl.
Qed.

(* ===================================================================== *)
(** ** Checks that precede every write                                    *)
(* ===================================================================== *)

(** C10. A transfer from a wallet to itself always fails and leaves the
    state, hence the wallet's balance, as it was; once the request is
    structurally valid the failure is the self-transfer error. *)
Theorem self_transfer_rejected :
  forall (E : Externals) (st : State) (X token amount signature : string),
    let body := mkTransferRequest (mkSendTransaction X X token amount) signature in
    (exists e, transfer body st = (Throw e, st))
    /\ (transferSchema body = Return body ->
        transfer body st
        = (Throw (AppError "Cannot transfer to yourself" 400), st)).
Proof.
  intros E st X token amount signature body.
  assert (Hrun : forall v, transferSchema body = Return v ->
            transfer body st
            = (Throw (AppError "Cannot transfer to yourself" 400), st)).
  { intros v Hv. unfold transfer. rewrite bind_run. unfold lift. rewrite Hv.
    apply transferSchema_Return in Hv. subst v. simpl.
    now rewrite String.eqb_refl. }
  split; [|apply Hrun].
  destruct (transferSchema body) as [v|e] eqn:Hv.
  - eexists. now apply (Hrun v).
  - exists e. unfold transfer. rewrite bind_run. unfold lift. now rewrite Hv.
Qed.

(** What the balance check does: when the balance, read as a Number, is
    below the amount, read as a Number, the transfer fails and leaves the
    whole state as it was; when the request has passed the earlier checks
    the failure is the insufficient-balance error. *)
Lemma insufficient_balance_rejected :
  forall (E : Externals) (st : State) (body : TransferRequest) (bal : string),
    let s := sendTransaction body in
    fst (getBalance (from s) (token s) st) = Return bal ->
    JS.ltb (JS.parseFloat bal) (JS.parseFloat (amount s)) = true ->
    (exists e, transfer body st = (Throw e, st))
    /\ (transferSchema body = Return body ->
        JS.toLowerCase (from s) <> JS.toLowerCase (to s) ->
        isValid (verifyWalletSignature (from s) (signature body)
                   (stringifySendTransaction s)) = true ->
        fst (hasAllSecrets (from s) st) = Return true ->
        fst (hasAllSecrets (to s) st) = Return true
          \/ SKIP_RECEIVER_SECRET_CHECK = true ->
        transfer body st = (Throw (AppError "Insufficient balance" 400), st)).
Proof.
  intros E st body bal s Hbal0 Hlt.
  assert (Hbal : getBalance (from s) (token s) st = (Return bal, st)).
  { pose proof (getBalance_state (from s) (token s) st) as Hst.
    destruct (getBalance (from s) (token s) st) as [o st0].
    simpl in *. congruence. }
  assert (Hgen : exists e, transfer body st = (Throw e, st)
            /\ (transferSchema body = Return body ->
                JS.toLowerCase (from s) <> JS.toLowerCase (to s) ->
                isValid (verifyWalletSignature (from s) (signature body)
                           (stringifySendTransaction s)) = true ->
                fst (hasAllSecrets (from s) st) = Return true ->
                fst (hasAllSecrets (to s) st) = Return true
                  \/ SKIP_RECEIVER_SECRET_CHECK = true ->
                e = AppError "Insufficient balance" 400)).
  { unfold transfer. rewrite bind_run. unfold lift.
    destruct (transferSchema body) as [v|e0] eqn:Hv;
      [|exists e0; split; [reflexivity|discriminate]].
    apply transferSchema_Return in Hv. subst v. fold s.
    destruct (String.eqb _ _) eqn:Hself.
    { eexists. split; [reflexivity|]. intros _ Hne.
      apply String.eqb_eq in Hself. contradiction. }
    destruct (isValid _) eqn:Hsig; simpl;
      [|eexists; split; [reflexivity|discriminate]].
    rewrite bind_run, hasAllSecrets_run.
    destruct (_ && _) eqn:Hfrom; simpl;
      [|eexists; split; [reflexivity|intros; discriminate]].
    rewrite bind_run, hasAllSecrets_run.
    destruct (negb SKIP_RECEIVER_SECRET_CHECK && negb (_ && _)) eqn:Hto.
    { eexists. split; [reflexivity|]. intros _ _ _ _ [Hr|Hskip].
      - simpl in Hr. injection Hr as Hr. rewrite Hr in Hto.
        now rewrite andb_false_r in Hto.
      - rewrite Hskip in Hto. discriminate. }
    rewrite bind_run, Hbal, Hlt.
    eexists. split; reflexivity. }
  destruct Hgen as [e [Hrun He]]. split; [now exists e|].
  intros H1 H2 H3 H4 H5. rewrite Hrun. now rewrite (He H1 H2 H3 H4 H5).
Qed.

(** C8, amended. A transfer whose amount is the empty string fails
    structural validation and touches no state; any non-empty amount,
    numeric or not, passes validation when the other fields are well
    formed. *)
Theorem empty_amount_fails_validation :
  forall (E : Externals) (st : State) (body : TransferRequest),
    let s := sendTransaction body in
    (amount s = "" -> transfer body st = (Throw ZodError, st))
    /\ (isAddress (from s) = true -> isAddress (to s) = true ->
        token s <> "" -> amount s <> "" ->
        isSignature (signature body) = true ->
        transferSchema body = Return body).
Proof.
  intros E st body s. split.
  - intros Hamount. unfold transfer. rewrite bind_run.
    unfold lift, transferSchema. fold s. rewrite Hamount. simpl.
    now rewrite !andb_false_r.
  - intros Hf Ht Htok Ham Hsig. unfold transferSchema. fold s.
    rewrite Hf, Ht, Hsig.
    destruct (token s); [contradiction|].
    destruct (amount s); [contradiction|]. reflexivity.
Qed.


(* ===================================================================== *)
(** ** Key derivation                                                     *)
(* ===================================================================== *)

Section KeyBytes.

Lemma substring_all (s : string) : String.substring 0 (String.length s) s = s.
Proof. induction s as [|c s IH]; simpl; [reflexivity|now rewrite IH]. Qed.

Lemma length_list_ascii (s : string) :
  List.length (list_ascii_of_string s) = String.length s.
Proof. induction s as [|c s IH]; simpl; [reflexivity|now rewrite IH]. Qed.

Lemma toLowerCase_length (s : string) :
  String.length (JS.toLowerCase s) = String.length s.
Proof. induction s as [|c s IH]; simpl; [reflexivity|now rewrite IH]. Qed.

Lemma toLowerChar_hex (c : ascii) :
  JS.isHexDigit c = true -> JS.isLowerDigit (JS.toLowerChar c) = true.
Proof. destruct c as [[] [] [] [] [] [] [] []]; try discriminate; reflexivity. Qed.

Lemma isLowerDigit_hex (c : ascii) :
  JS.isLowerDigit c = true -> JS.isHexDigit c = true.
Proof. destruct c as [[] [] [] [] [] [] [] []]; try discriminate; reflexivity. Qed.

Lemma digitChar_digitVal (c : ascii) :
  JS.isLowerDigit c = true ->
  (0 <= JS.digitVal c < 16)%Z /\ JS.digitChar (JS.digitVal c) = c.
Proof.
  destruct c as [[] [] [] [] [] [] [] []]; try discriminate;
    intros _; vm_compute; repeat split; congruence.
Qed.

Lemma byteOf_inj (hi lo hi' lo' : ascii) :
  JS.isLowerDigit hi = true -> JS.isLowerDigit lo = true ->
  JS.isLowerDigit hi' = true -> JS.isLowerDigit lo' = true ->
  Viem.byteOf hi lo = Viem.byteOf hi' lo' -> hi = hi' /\ lo = lo'.
Proof.
  intros H1 H2 H3 H4 Heq.
  destruct (digitChar_digitVal hi H1) as [B1 E1].
  destruct (digitChar_digitVal lo H2) as [B2 E2].
  destruct (digitChar_digitVal hi' H3) as [B3 E3].
  destruct (digitChar_digitVal lo' H4) as [B4 E4].
  unfold Viem.byteOf in Heq.
  apply (f_equal ascii_of_byte) in Heq. rewrite !ascii_of_byte_of_ascii in Heq.
  apply (f_equal N_of_ascii) in Heq.
  rewrite !N_ascii_embedding in Heq by lia.
  assert (Hv : (16 * JS.digitVal hi + JS.digitVal lo
                = 16 * JS.digitVal hi' + JS.digitVal lo')%Z) by lia.
  assert (Hh : JS.digitVal hi = JS.digitVal hi') by lia.
  assert (Hl : JS.digitVal lo = JS.digitVal lo') by lia.
  split; congruence.
Qed.

Lemma pairs_inj (n : nat) :
  forall l l' : list ascii,
    List.length l = (2 * n)%nat -> List.length l' = (2 * n)%nat ->
    forallb JS.isLowerDigit l = true -> forallb JS.isLowerDigit l' = true ->
    Viem.pairs l = Viem.pairs l' -> l = l'.
Proof.
  induction n as [|n IH]; intros l l' Hl Hl' Hd Hd' Heq.
  - destruct l; [|discriminate]. now destruct l'.
  - destruct l as [|a [|b l]]; try (simpl in Hl; lia).
    destruct l' as [|a' [|b' l']]; try (simpl in Hl'; lia).
    simpl in Hd, Hd', Heq.
    apply andb_true_iff in Hd as [Ha Hd]. apply andb_true_iff in Hd as [Hb Hd].
    apply andb_true_iff in Hd' as [Ha' Hd'].
    apply andb_true_iff in Hd' as [Hb' Hd'].
    injection Heq as Hbyte Heq.
    apply byteOf_inj in Hbyte as [-> ->]; try assumption.
    f_equal. f_equal. apply IH; try assumption; simpl in *; lia.
Qed.

Lemma length_pairs (n : nat) :
  forall l : list ascii, List.length l = (2 * n)%nat ->
                         List.length (Viem.pairs l) = n.
Proof.
  induction n as [|n IH]; intros l Hl.
  - now destruct l.
  - destruct l as [|a [|b l]]; try (simpl in Hl; lia).
    simpl. f_equal. apply IH. simpl in Hl. lia.
Qed.

(** An address is [0x] and forty hexadecimal digits. *)
Lemma isAddress_inv (a : string) :
  isAddress a = true ->
  exists r, a = String "0" (String "x" r)
            /\ String.length r = 40%nat
            /\ JS.forallb_string JS.isHexDigit r = true.
Proof.
  destruct a as [|c0 [|c1 r]]; try discriminate.
  - destruct c0 as [[] [] [] [] [] [] [] []]; discriminate.
  - intros Ha.
    assert (Hc0 : c0 = "0"%char)
      by (destruct c0 as [[] [] [] [] [] [] [] []]; try discriminate Ha;
          reflexivity).
    subst c0.
    assert (Hc1 : c1 = "x"%char)
      by (destruct c1 as [[] [] [] [] [] [] [] []]; try discriminate Ha;
          reflexivity).
    subst c1. unfold isAddress in Ha. cbv beta iota in Ha.
    apply andb_true_iff in Ha as [Hlen Hall]. apply Nat.eqb_eq in Hlen.
    now exists r.
Qed.

Lemma forallb_toLowerCase (r : string) :
  JS.forallb_string JS.isHexDigit r = true ->
  forallb JS.isLowerDigit (list_ascii_of_string (JS.toLowerCase r)) = true.
Proof.
  induction r as [|c r IH]; simpl; [reflexivity|].
  intros Hr. apply andb_true_iff in Hr as [Hc Hr].
  now rewrite (toLowerChar_hex c Hc), IH.
Qed.

Lemma forallb_string_list (p : ascii -> bool) (s : string) :
  JS.forallb_string p s = forallb p (list_ascii_of_string s).
Proof. induction s as [|c s IH]; simpl; [reflexivity|now rewrite IH]. Qed.

(** The bytes of an address in lower case: its forty digits, two to a
    byte. *)
Lemma toBytes_address (r : string) :
  String.length r = 40%nat ->
  JS.forallb_string JS.isHexDigit r = true ->
  Viem.toBytes (JS.toLowerCase (String "0" (String "x" r)))
  = Viem.pairs (list_ascii_of_string (JS.toLowerCase r)).
Proof.
  intros Hlen Hall.
  change (JS.toLowerCase (String "0" (String "x" r)))
    with (String "0" (String "x" (JS.toLowerCase r))).
  pose proof (forallb_toLowerCase r Hall) as Hlow.
  unfold Viem.toBytes.
  assert (Hhex : Viem.isHex (String "0" (String "x" (JS.toLowerCase r))) = true).
  { unfold Viem.isHex. cbv beta iota. rewrite forallb_string_list.
    apply forallb_forall. intros c Hc.
    rewrite forallb_forall in Hlow. now apply isLowerDigit_hex, Hlow. }
  rewrite Hhex. unfold Viem.hexToBytes.
  change (String.length (String "0" (String "x" (JS.toLowerCase r))) - 2)%nat
    with (String.length (JS.toLowerCase r) - 0)%nat.
  rewrite Nat.sub_0_r.
  change (String.substring 2 (String.length (JS.toLowerCase r))
            (String "0" (String "x" (JS.toLowerCase r))))
    with (String.substring 0 (String.length (JS.toLowerCase r))
            (JS.toLowerCase r)).
  rewrite substring_all, length_list_ascii, toLowerCase_length, Hlen.
  reflexivity.
Qed.

(** On addresses the encoding has 20 bytes and loses nothing but the
    letter case. *)
Lemma toBytes_address_spec (a a' : string) :
  isAddress a = true -> isAddress a' = true ->
  List.length (Viem.toBytes (JS.toLowerCase a)) = 20%nat
  /\ (Viem.toBytes (JS.toLowerCase a) = Viem.toBytes (JS.toLowerCase a') ->
      JS.toLowerCase a = JS.toLowerCase a').
Proof.
  intros Ha Ha'.
  apply isAddress_inv in Ha as (r & -> & Hlen & Hall).
  apply isAddress_inv in Ha' as (r' & -> & Hlen' & Hall').
  rewrite !toBytes_address by assumption.
  assert (Hl : forall x, String.length x = 40%nat ->
            List.length (list_ascii_of_string (JS.toLowerCase x)) = (2 * 20)%nat)
    by (intros x Hx; now rewrite length_list_ascii, toLowerCase_length, Hx).
  split; [apply length_pairs; now apply Hl|].
  intros Heq. apply (pairs_inj 20) in Heq;
    [|now apply Hl|now apply Hl|now apply forallb_toLowerCase
     |now apply forallb_toLowerCase].
  change (JS.toLowerCase (String "0" (String "x" r)))
    with (String "0" (String "x" (JS.toLowerCase r))).
  change (JS.toLowerCase (String "0" (String "x" r')))
    with (String "0" (String "x" (JS.toLowerCase r'))).
  rewrite <- (string_of_list_ascii_of_string (JS.toLowerCase r)),
          <- (string_of_list_ascii_of_string (JS.toLowerCase r')).
  now rewrite Heq.
Qed.

(** Concatenations that agree, of parts of which all but one have equal
    lengths, agree part by part. *)
Lemma app3_inj {A : Type} (a b c a' b' c' : list A) :
  (a ++ b ++ c = a' ++ b' ++ c')%list ->
  (List.length a = List.length a' /\ List.length b = List.length b')
  \/ (List.length a = List.length a' /\ List.length c = List.length c')
  \/ (List.length b = List.length b' /\ List.length c = List.length c') ->
  a = a' /\ b = b' /\ c = c'.
Proof.
  intros Heq Hlen.
  assert (Htot : (List.length a + List.length b + List.length c
                  = List.length a' + List.length b' + List.length c')%nat).
  { apply (f_equal (@List.length A)) in Heq.
    rewrite !List.length_app in Heq. lia. }
  apply app_inj_1 in Heq as [H1 Heq]; [|lia].
  apply app_inj_1 in Heq as [H2 H3]; [|lia].
  auto.
Qed.

Lemma app4_inj {A : Type} (a b c d a' b' c' d' : list A) :
  (a ++ b ++ c ++ d = a' ++ b' ++ c' ++ d')%list ->
  (List.length a = List.length a' /\ List.length b = List.length b'
   /\ List.length c = List.length c')
  \/ (List.length a = List.length a' /\ List.length b = List.length b'
      /\ List.length d = List.length d')
  \/ (List.length a = List.length a' /\ List.length c = List.length c'
      /\ List.length d = List.length d')
  \/ (List.length b = List.length b' /\ List.length c = List.length c'
      /\ List.length d = List.length d') ->
  a = a' /\ b = b' /\ c = c' /\ d = d'.
Proof.
  intros Heq Hlen.
  assert (Htot : (List.length a + List.length b + List.length c + List.length d
                  = List.length a' + List.length b' + List.length c'
                    + List.length d')%nat).
  { apply (f_equal (@List.length A)) in Heq.
    rewrite !List.length_app in Heq. lia. }
  apply app_inj_1 in Heq as [H1 Heq]; [|lia].
  apply app_inj_1 in Heq as [H2 Heq]; [|lia].
  apply app_inj_1 in Heq as [H3 H4]; [|lia].
  auto.
Qed.

End KeyBytes.

(** C7, amended. The bytes fed to the hash are the plain concatenation of
    the encodings of the lower-cased names and of the secret, without any
    framing. Equal bytes give equal encodings field by field as soon as
    all but one of the fields are encoded to equal lengths (two of the
    three of [generateKey], three of the four of [generateTxKey]); and
    when the names are addresses, which are encoded to 20 bytes each and
    without loss but for the letter case, equal bytes give the same names
    in lower case and the same bytes of the secret. *)
Theorem key_input_determines_fields_of_equal_width :
  (forall w t s w' t' s' : string,
      generateKeyInput w t s = generateKeyInput w' t' s' ->
      let W := Viem.toBytes (JS.toLowerCase w) in
      let W' := Viem.toBytes (JS.toLowerCase w') in
      let T := Viem.toBytes (JS.toLowerCase t) in
      let T' := Viem.toBytes (JS.toLowerCase t') in
      let S := Viem.toBytes s in
      let S' := Viem.toBytes s' in
      ((List.length W = List.length W' /\ List.length T = List.length T')
       \/ (List.length W = List.length W' /\ List.length S = List.length S')
       \/ (List.length T = List.length T' /\ List.length S = List.length S') ->
       W = W' /\ T = T' /\ S = S')
      /\ (isAddress w = true -> isAddress w' = true ->
          isAddress t = true -> isAddress t' = true ->
          JS.toLowerCase w = JS.toLowerCase w'
          /\ JS.toLowerCase t = JS.toLowerCase t'
          /\ S = S'))
  /\ (forall a b t s a' b' t' s' : string,
      generateTxKeyInput a b t s = generateTxKeyInput a' b' t' s' ->
      let A := Viem.toBytes (JS.toLowerCase a) in
      let A' := Viem.toBytes (JS.toLowerCase a') in
      let B := Viem.toBytes (JS.toLowerCase b) in
      let B' := Viem.toBytes (JS.toLowerCase b') in
      let T := Viem.toBytes (JS.toLowerCase t) in
      let T' := Viem.toBytes (JS.toLowerCase t') in
      let S := Viem.toBytes s in
      let S' := Viem.toBytes s' in
      ((List.length A = List.length A' /\ List.length B = List.length B'
        /\ List.length T = List.length T')
       \/ (List.length A = List.length A' /\ List.length B = List.length B'
           /\ List.length S = List.length S')
       \/ (List.length A = List.length A' /\ List.length T = List.length T'
           /\ List.length S = List.length S')
       \/ (List.length B = List.length B' /\ List.length T = List.length T'
           /\ List.length S = List.length S') ->
       A = A' /\ B = B' /\ T = T' /\ S = S')
      /\ (isAddress a = true -> isAddress a' = true ->
          isAddress b = true -> isAddress b' = true ->
          isAddress t = true -> isAddress t' = true ->
          JS.toLowerCase a = JS.toLowerCase a'
          /\ JS.toLowerCase b = JS.toLowerCase b'
          /\ JS.toLowerCase t = JS.toLowerCase t'
          /\ S = S')).
Proof.
  split.
  - intros w t s w' t' s' Heq W W' T T' S S'.
    unfold generateKeyInput, Viem.concat in Heq. simpl in Heq.
    rewrite !app_nil_r in Heq. fold W W' T T' S S' in Heq.
    split; [now apply app3_inj|].
    intros Hw Hw' Ht Ht'.
    destruct (toBytes_address_spec w w' Hw Hw') as [Lw Iw].
    destruct (toBytes_address_spec w' w Hw' Hw) as [Lw' _].
    destruct (toBytes_address_spec t t' Ht Ht') as [Lt It].
    destruct (toBytes_address_spec t' t Ht' Ht) as [Lt' _].
    destruct (app3_inj _ _ _ _ _ _ Heq) as (H1 & H2 & H3).
    { left. unfold W, W', T, T'. split; congruence. }
    auto.
  - intros a b t s a' b' t' s' Heq A A' B B' T T' S S'.
    unfold generateTxKeyInput, Viem.concat in Heq. simpl in Heq.
    rewrite !app_nil_r in Heq. fold A A' B B' T T' S S' in Heq.
    split; [now apply app4_inj|].
    intros Ha Ha' Hb Hb' Ht Ht'.
    destruct (toBytes_address_spec a a' Ha Ha') as [La Ia].
    destruct (toBytes_address_spec a' a Ha' Ha) as [La' _].
    destruct (toBytes_address_spec b b' Hb Hb') as [Lb Ib].
    destruct (toBytes_address_spec b' b Hb' Hb) as [Lb' _].
    destruct (toBytes_address_spec t t' Ht Ht') as [Lt It].
    destruct (toBytes_address_spec t' t Ht' Ht) as [Lt' _].
    destruct (app4_inj _ _ _ _ _ _ _ _ Heq) as (H1 & H2 & H3 & H4).
    { left. unfold A, A', B, B', T, T'. repeat split; congruence. }
    auto.
Qed.


(* ===================================================================== *)
(** ** The fixed-point codec                                              *)
(* ===================================================================== *)

Section FloorIsInteger.
Local Open Scope Z_scope.

Lemma shr_exponent (mrs : shr_record) (e n : Z) : e <= snd (shr mrs e n).
Proof. unfold shr. destruct n; simpl; lia. Qed.

Lemma binary_round_aux_exponent (s : bool) (mx ex : Z) (lx : location) :
  match binary_round_aux 53 1024 s mx ex lx with
  | S754_finite _ _ e => ex <= e
  | _ => True
  end.
Proof.
  unfold binary_round_aux, shr_fexp.
  match goal with
  | |- context [shr ?r ex ?n] =>
      pose proof (shr_exponent r ex n) as H1; destruct (shr r ex n) as [mrs' e']
  end.
  match goal with
  | |- context [shr ?r e' ?n] =>
      pose proof (shr_exponent r e' n) as H2; destruct (shr r e' n) as [mrs'' e'']
  end.
  simpl in *. destruct (shr_m mrs''); try exact I.
  destruct (e'' <=? _); [simpl; lia|exact I].
Qed.

Lemma digits2_iter_xO (p k : positive) :
  digits2_pos (Pos.iter xO p k) = (digits2_pos p + k)%positive.
Proof.
  induction k as [|k IH] using Pos.peano_ind.
  - simpl. lia.
  - rewrite Pos.iter_succ. simpl. rewrite IH. lia.
Qed.

Lemma iter_xO_value (p k : positive) :
  Zpos (Pos.iter xO p k) = Zpos p * 2 ^ Zpos k.
Proof.
  induction k as [|k IH] using Pos.peano_ind.
  - simpl. lia.
  - rewrite Pos.iter_succ, Pos2Z.inj_xO, IH, Pos2Z.inj_succ, Z.pow_succ_r by lia.
    lia.
Qed.

(** Rounding an integer gives an integer. *)
Lemma binary_round_integer (s : bool) (p : positive) :
  match binary_round 53 1024 s p 0 with
  | S754_finite _ m e => 0 <= e \/ Zpos m mod 2 ^ (- e) = 0
  | _ => True
  end.
Proof.
  unfold binary_round, shl_align.
  destruct (fexp 53 1024 (Zpos (digits2_pos p) + 0) - 0) as [|n|k] eqn:Hn.
  - pose proof (binary_round_aux_exponent s (Zpos p) 0 loc_Exact) as Hr.
    destruct (binary_round_aux _ _ _ _ _ _); auto.
  - pose proof (binary_round_aux_exponent s (Zpos p) 0 loc_Exact) as Hr.
    destruct (binary_round_aux _ _ _ _ _ _); auto.
  - assert (Hd : fexp 53 1024 (Zpos (digits2_pos p) + 0) = Zpos (digits2_pos p) - 53
                 /\ Zpos k = 53 - Zpos (digits2_pos p)).
    { unfold fexp, emin in *. lia. }
    destruct Hd as [Hf Hk]. rewrite Hf.
    unfold binary_round_aux, shr_fexp. cbn [Zdigits2].
    rewrite digits2_iter_xO.
    replace (fexp 53 1024 (Zpos (digits2_pos p + k) + (Zpos (digits2_pos p) - 53))
             - (Zpos (digits2_pos p) - 53)) with 0
      by (unfold fexp, emin; lia).
    cbn [shr shr_record_of_loc shr_m loc_of_shr_record round_nearest_even Zdigits2].
    rewrite digits2_iter_xO.
    replace (fexp 53 1024 (Zpos (digits2_pos p + k) + (Zpos (digits2_pos p) - 53))
             - (Zpos (digits2_pos p) - 53)) with 0
      by (unfold fexp, emin; lia).
    cbn [shr shr_m].
    destruct (_ <=? _); [|exact I].
    right. rewrite iter_xO_value.
    replace (- (Zpos (digits2_pos p) - 53)) with (Zpos k) by lia.
    apply Z.mod_mul. lia.
Qed.

Lemma toBigInt_normalize (z : Z) (sz : bool) :
  JS.isFinite (binary_normalize 53 1024 z 0 sz) = true ->
  JS.toBigInt (binary_normalize 53 1024 z 0 sz) <> None.
Proof.
  unfold binary_normalize. destruct z as [|p|p]; [discriminate| |].
  - pose proof (binary_round_integer false p) as Hr.
    destruct (binary_round _ _ _ _ _) as [| | |s m e]; try discriminate.
    intros _. unfold JS.toBigInt.
    destruct (0 <=? e) eqn:He; [discriminate|].
    destruct Hr as [Hr|Hr]; [lia|]. now rewrite Hr.
  - pose proof (binary_round_integer true p) as Hr.
    destruct (binary_round _ _ _ _ _) as [| | |s m e]; try discriminate.
    intros _. unfold JS.toBigInt.
    destruct (0 <=? e) eqn:He; [discriminate|].
    destruct Hr as [Hr|Hr]; [lia|]. now rewrite Hr.
Qed.

(** [BigInt(Math.floor(x))] throws only when the floor is NaN or infinite. *)
Lemma toBigInt_floor (x : JS.number) :
  JS.isFinite (JS.floor x) = true -> JS.toBigInt (JS.floor x) <> None.
Proof.
  destruct x as [s|s| |s m e]; try discriminate.
  unfold JS.floor. destruct (0 <=? e) eqn:He.
  - intros _. unfold JS.toBigInt. now rewrite He.
  - destruct s; apply toBigInt_normalize.
Qed.

End FloorIsInteger.

(** C5, amended. Encoding never rejects an amount for its precision:
    whenever [floor(parseFloat(x) * 10^18)] is a finite Number it returns
    the padded hexadecimal of that integer, and it throws a RangeError when
    that Number is NaN or infinite; it reads its input only through
    [parseFloat], so amounts that parse to the same Number are encoded
    alike, however many fractional digits they have. *)
Theorem toHexBalance_never_rejects_precision :
  forall x : string,
    let scaled := JS.floor (JS.mul (JS.parseFloat x) (JS.ofBigInt PRECISION)) in
    (JS.isFinite scaled = true ->
     exists v : Z,
       JS.toBigInt scaled = Some v
       /\ toHexBalance x = Return (normalize (JS.intToString 16 v)))
    /\ (JS.isFinite scaled = false -> toHexBalance x = Throw RangeError)
    /\ (forall y : string,
          JS.parseFloat x = JS.parseFloat y -> toHexBalance x = toHexBalance y).
Proof.
  intros x scaled. split; [|split].
  - intros Hfin. pose proof (toBigInt_floor _ Hfin) as Hint.
    unfold toHexBalance. fold scaled.
    destruct (JS.toBigInt scaled) as [v|] eqn:Hv; [now exists v|].
    exfalso. apply Hint. exact Hv.
  - intros Hinf. unfold toHexBalance. fold scaled.
    destruct scaled; try discriminate; reflexivity.
  - intros y Hxy. unfold toHexBalance. now rewrite Hxy.
Qed.

(* ===================================================================== *)
(** ** Effects of the writing operations                                  *)
(* ===================================================================== *)

Lemma append_inj_l (a b c : string) : a ++ b = a ++ c -> b = c.
Proof.
  induction a as [|ch a IH]; simpl; intros Heq; [exact Heq|].
  injection Heq as Heq. now apply IH.
Qed.

Lemma balanceDbKey_inj (a b t : string) :
  balanceDbKey a t = balanceDbKey b t -> JS.toLowerCase a = JS.toLowerCase b.
Proof.
  unfold balanceDbKey. intros Heq. apply append_inj_l in Heq.
  now apply append_inj_r in Heq.
Qed.

Lemma txDbKey_type (a b t : string) :
  txDbKey a b t SenderLeaf <> txDbKey a b t ReceiverLeaf.
Proof.
  unfold txDbKey. intros Heq.
  do 7 apply append_inj_l in Heq. discriminate.
Qed.

Lemma balanceDbKey_txDbKey (w t a b c : string) (ty : LeafType) :
  balanceDbKey w t <> txDbKey a b c ty.
Proof. unfold balanceDbKey, txDbKey. simpl. discriminate. Qed.

Lemma secret_balanceDbKey (w a t : string) :
  "secret:balance:" ++ w <> balanceDbKey a t.
Proof. unfold balanceDbKey. simpl. discriminate. Qed.

Lemma secret_txDbKey (w a b c : string) (ty : LeafType) :
  "secret:balance:" ++ w <> txDbKey a b c ty.
Proof. unfold txDbKey. simpl. discriminate. Qed.

Section Effects.
Context {E : Externals}.

Lemma dbPut_inv (k v : string) (st st' : State) (o : outcome unit) :
  dbPut k v st = (o, st') ->
  (o = Throw PersistenceError /\ st' = st /\ kvWrites st = Some O)
  \/ (o = Return tt /\ smt st' = smt st /\ txSmt st' = txSmt st
      /\ clock st' = clock st /\ kv st' = <[k := v]> (kv st)
      /\ kvWrites st' = pred <$> kvWrites st /\ kvWrites st <> Some O).
Proof.
  unfold dbPut. destruct (kvWrites st) as [[|n]|] eqn:Hw; intros Hrun;
    injection Hrun as <- <-; [left|right|right]; simpl; rewrite ?Hw; auto 10.
Qed.

(** The tree step of [setBalance] and [updateBalance]: update a leaf that
    is there, add one that is not. *)
Lemma upsert_inv (t : gmap string string) (k v : string) :
  checkHex k = true ->
  ((if JS.truthy (t !! k) then smt_update t k v else smt_add t k v)
   = Return (<[k := v]> t) /\ checkHex v = true)
  \/ exists e, (if JS.truthy (t !! k) then smt_update t k v
                else smt_add t k v) = Throw e
               /\ isCheckError e = false /\ e <> PersistenceError
               /\ ((checkHex v = false /\ e = notHexadecimal v)
                   \/ (checkHex v = true /\ t !! k = Some "")).
Proof.
  intros Hk. unfold smt_update, smt_add. rewrite Hk.
  destruct (checkHex v) eqn:Hv; simpl.
  - destruct (t !! k) as [x|] eqn:Hx; simpl.
    + destruct (String.eqb_spec x ""); simpl; [right|left; now split].
      subst x. eexists. repeat split; [discriminate|]. now right.
    + left. now split.
  - right. exists (notHexadecimal v).
    destruct (JS.truthy (t !! k)); repeat split; try discriminate; now left.
Qed.

Lemma updateBalance_unfold (w t nb : string) (st : State) :
  updateBalance w t nb st =
  if negb (JS.truthy (kv st !! ("secret:balance:" ++ w)))
  then (Throw (Error "User has not set balance secret"), st)
  else
    let k := generateKey w t (default "" (kv st !! ("secret:balance:" ++ w))) in
    match toHexBalance nb with
    | Throw e => (Throw e, st)
    | Return v =>
        match (if JS.truthy (smt st !! k) then smt_update (smt st) k v
               else smt_add (smt st) k v) with
        | Throw e => (Throw e, st)
        | Return tr => dbPut (balanceDbKey w t) nb (set_smt tr st)
        end
    end.
Proof.
  unfold updateBalance. rewrite bind_run. unfold getBalanceSecret, dbGet.
  destruct (negb _); [reflexivity|].
  rewrite bind_run. unfold getSmt. rewrite bind_run. cbv zeta.
  rewrite smt_get_hex by apply generateKey_hex. unfold lift.
  destruct (JS.truthy (smt st !! _)); rewrite bind_run, bind_run;
    destruct (toHexBalance nb); try reflexivity.
  - unfold smtUpdate. destruct (smt_update _ _ _); reflexivity.
  - unfold smtAdd. destruct (smt_add _ _ _); reflexivity.
Qed.

Lemma toHexBalance_throw (b : string) (e : exn) :
  toHexBalance b = Throw e -> e = RangeError.
Proof.
  unfold toHexBalance. destruct (JS.toBigInt _); [discriminate|congruence].
Qed.

(** Whatever its outcome, [updateBalance] leaves the transaction tree, the
    clock and every other record of the store alone. *)
Lemma updateBalance_frame (w t nb : string) (st st' : State) (o : outcome unit) :
  updateBalance w t nb st = (o, st') ->
  txSmt st' = txSmt st /\ clock st' = clock st
  /\ forall k, k <> balanceDbKey w t -> kv st' !! k = kv st !! k.
Proof.
  rewrite updateBalance_unfold.
  destruct (negb _); [intros Hrun; injection Hrun as <- <-; auto|].
  cbv zeta. destruct (toHexBalance nb) as [v|e];
    [|intros Hrun; injection Hrun as <- <-; auto].
  destruct (if JS.truthy _ then _ else _) as [tr|e];
    [|intros Hrun; injection Hrun as <- <-; auto].
  intros Hrun. apply dbPut_inv in Hrun
    as [(_ & -> & _)|(_ & _ & Htx & Hc & Hkv & _)]; [auto|].
  repeat split; [exact Htx|exact Hc|].
  intros k Hk. rewrite Hkv. simpl. now rewrite lookup_insert_ne.
Qed.

Lemma updateBalance_Return (w t nb : string) (st st' : State) (u : unit) :
  updateBalance w t nb st = (Return u, st') ->
  kv st' = <[balanceDbKey w t := nb]> (kv st)
  /\ kvWrites st' = pred <$> kvWrites st
  /\ kvWrites st <> Some O
  /\ exists secret hex,
       kv st !! ("secret:balance:" ++ w) = Some secret
       /\ toHexBalance nb = Return hex
       /\ smt st' = <[generateKey w t secret := hex]> (smt st).
Proof.
  rewrite updateBalance_unfold.
  destruct (kv st !! _) as [secret|] eqn:Hsec; simpl; [|discriminate].
  destruct (negb _); [discriminate|].
  destruct (toHexBalance nb) as [v|e]; [|discriminate].
  destruct (upsert_inv (smt st) (generateKey w t secret) v
              (generateKey_hex _ _ _))
    as [[Hup _]|(e & Hup & _)]; rewrite Hup; [|discriminate].
  intros Hrun. apply dbPut_inv in Hrun
    as [(Ho & _)|(_ & Hs & _ & _ & Hkv & Hw & Hw0)]; [discriminate|].
  simpl in *. repeat split; auto. exists secret, v. auto.
Qed.

Lemma updateBalance_Throw (w t nb : string) (st st' : State) (e : exn) :
  updateBalance w t nb st = (Throw e, st') ->
  isCheckError e = false
  /\ (e = PersistenceError -> kvWrites st = Some O).
Proof.
  rewrite updateBalance_unfold.
  destruct (negb _);
    [intros Hrun; injection Hrun as <- <-; split; [reflexivity|discriminate]|].
  cbv zeta. destruct (toHexBalance nb) as [v|e0] eqn:Hhex.
  2:{ intros Hrun. injection Hrun as <- <-.
      apply toHexBalance_throw in Hhex. subst e0.
      split; [reflexivity|discriminate]. }
  match goal with
  | |- context [if JS.truthy (?t !! ?k) then _ else _] =>
      destruct (upsert_inv t k v (generateKey_hex _ _ _))
        as [[Hup _]|(e1 & Hup & Hc & Hp & _)]
  end; rewrite Hup.
  - intros Hrun. apply dbPut_inv in Hrun
      as [(Ho & _ & Hw)|(Ho & _)]; [|discriminate].
    injection Ho as ->. split; [reflexivity|]. intros _. exact Hw.
  - intros Hrun. injection Hrun as <- <-. split; [exact Hc|].
    intros He. contradiction.
Qed.

Lemma updateTxLeaf_unfold (a b t : string) (ty : LeafType) (sec : string)
    (newTx : TransactionEntry) (st : State) :
  updateTxLeaf a b t ty sec newTx st =
  match existingTransactions st (txDbKey a b t ty) with
  | None => (Throw (bucketError st (txDbKey a b t ty)), st)
  | Some l =>
      let k := generateTxKey a b t sec in
      let vh := hashTransactions (l ++ [newTx]) in
      match (if JS.truthy (txSmt st !! k) then smt_update (txSmt st) k vh
             else smt_add (txSmt st) k vh) with
      | Throw e => (Throw e, st)
      | Return tr =>
          dbPut (txDbKey a b t ty) (stringifyEntries (l ++ [newTx]))
                (set_txSmt tr st)
      end
  end.
Proof.
  assert (Hrest : forall l,
    (t0 <- getTxSmt ;;
     existingValue <- lift (smt_get t0 (generateTxKey a b t sec)) ;;
     (if JS.truthy existingValue
      then txSmtUpdate (generateTxKey a b t sec) (hashTransactions (l ++ [newTx]))
      else txSmtAdd (generateTxKey a b t sec) (hashTransactions (l ++ [newTx]))) ;;;
     dbPut (txDbKey a b t ty) (stringifyEntries (l ++ [newTx]))) st
    = match (if JS.truthy (txSmt st !! generateTxKey a b t sec)
             then smt_update (txSmt st) (generateTxKey a b t sec)
                    (hashTransactions (l ++ [newTx]))
             else smt_add (txSmt st) (generateTxKey a b t sec)
                    (hashTransactions (l ++ [newTx]))) with
      | Throw e => (Throw e, st)
      | Return tr =>
          dbPut (txDbKey a b t ty) (stringifyEntries (l ++ [newTx]))
                (set_txSmt tr st)
      end).
  { intros l. unfold getTxSmt. rewrite bind_run, bind_run.
    rewrite smt_get_hex by apply generateTxKey_hex. unfold lift.
    rewrite bind_run.
    destruct (JS.truthy (txSmt st !! _)).
    - unfold txSmtUpdate. destruct (smt_update _ _ _); reflexivity.
    - unfold txSmtAdd. destruct (smt_add _ _ _); reflexivity. }
  unfold updateTxLeaf, existingTransactions, bucketError, parseEntries.
  cbv zeta. rewrite bind_run. unfold dbGet. rewrite bind_run.
  destruct (JS.truthy (kv st !! _)).
  - destruct (parseJson _) as [[l|text]|]; try reflexivity.
    unfold ret. apply Hrest.
  - unfold ret. apply Hrest.
Qed.

Lemma updateTxLeaf_frame (a b t : string) (ty : LeafType) (sec : string)
    (newTx : TransactionEntry) (st st' : State) (o : outcome unit) :
  updateTxLeaf a b t ty sec newTx st = (o, st') ->
  smt st' = smt st /\ clock st' = clock st
  /\ forall k, k <> txDbKey a b t ty -> kv st' !! k = kv st !! k.
Proof.
  rewrite updateTxLeaf_unfold.
  destruct (existingTransactions _ _) as [l|];
    [|intros Hrun; injection Hrun as <- <-; auto].
  cbv zeta. destruct (if JS.truthy _ then _ else _) as [tr|e];
    [|intros Hrun; injection Hrun as <- <-; auto].
  intros Hrun. apply dbPut_inv in Hrun
    as [(_ & -> & _)|(_ & Hs & _ & Hc & Hkv & _)]; [auto|].
  repeat split; [exact Hs|exact Hc|].
  intros k Hk. rewrite Hkv. simpl. now rewrite lookup_insert_ne.
Qed.

Lemma updateTxLeaf_Return (a b t : string) (ty : LeafType) (sec : string)
    (newTx : TransactionEntry) (st st' : State) (u : unit) :
  updateTxLeaf a b t ty sec newTx st = (Return u, st') ->
  exists l,
    existingTransactions st (txDbKey a b t ty) = Some l
    /\ kv st' !! txDbKey a b t ty = Some (stringifyEntries (l ++ [newTx])).
Proof.
  rewrite updateTxLeaf_unfold.
  destruct (existingTransactions _ _) as [l|]; [|discriminate].
  cbv zeta. destruct (if JS.truthy _ then _ else _) as [tr|e]; [|discriminate].
  intros Hrun. apply dbPut_inv in Hrun
    as [(Ho & _)|(_ & _ & _ & _ & Hkv & _)]; [discriminate|].
  exists l. split; [reflexivity|]. rewrite Hkv. simpl.
  apply lookup_insert_eq.
Qed.

Lemma updateTxLeaf_Throw (a b t : string) (ty : LeafType) (sec : string)
    (newTx : TransactionEntry) (st st' : State) (e : exn) :
  updateTxLeaf a b t ty sec newTx st = (Throw e, st') ->
  isCheckError e = false.
Proof.
  rewrite updateTxLeaf_unfold.
  destruct (existingTransactions _ _) as [l|];
    [|intros Hrun; injection Hrun as <- <-; unfold bucketError;
      destruct (parseJson _) as [[]|]; reflexivity].
  cbv zeta.
  match goal with
  | |- context [if JS.truthy (?tr !! ?k) then smt_update _ _ ?v else _] =>
      destruct (upsert_inv tr k v (generateTxKey_hex _ _ _ _))
        as [[Hup _]|(e1 & Hup & Hc & _)]
  end; rewrite Hup.
  - intros Hrun. apply dbPut_inv in Hrun as [(Ho & _)|(Ho & _)];
      [|discriminate].
    now injection Ho as ->.
  - intros Hrun. now injection Hrun as <- <-.
Qed.

Lemma existingTransactions_ext (st st' : State) (k : string) :
  kv st' !! k = kv st !! k ->
  existingTransactions st' k = existingTransactions st k.
Proof. unfold existingTransactions. now intros ->. Qed.

Lemma addTransaction_frame (a b t amt : string) (st st' : State) (o : outcome Z) :
  addTransaction a b t amt st = (o, st') ->
  smt st' = smt st
  /\ forall k, (forall ty, k <> txDbKey a b t ty) -> kv st' !! k = kv st !! k.
Proof.
  unfold addTransaction. rewrite bind_run. unfold now.
  rewrite bind_run. unfold getTxSecret at 1, dbGet.
  rewrite bind_run. unfold getTxSecret, dbGet.
  destruct (negb _); [intros Hrun; injection Hrun as <- <-; auto|].
  destruct (negb _); [intros Hrun; injection Hrun as <- <-; auto|].
  rewrite bind_run.
  destruct (updateTxLeaf a b t SenderLeaf _ _ st) as [[u|e] st1] eqn:H1;
    apply updateTxLeaf_frame in H1 as (Hs1 & _ & Hk1).
  2:{ intros Hrun. injection Hrun as <- <-. split; [exact Hs1|].
      intros k Hk. apply Hk1, Hk. }
  rewrite bind_run.
  destruct (updateTxLeaf a b t ReceiverLeaf _ _ st1) as [[u2|e] st2] eqn:H2;
    apply updateTxLeaf_frame in H2 as (Hs2 & _ & Hk2);
    intros Hrun; injection Hrun as <- <-;
    (split; [congruence|]); intros k Hk;
    rewrite Hk2 by apply Hk; apply Hk1, Hk.
Qed.

Lemma addTransaction_Return (a b t amt : string) (st st' : State) (ts : Z) :
  addTransaction a b t amt st = (Return ts, st') ->
  exists ls lr,
    let newTx := mkTransactionEntry a b t amt (clock st) in
    existingTransactions st (txDbKey a b t SenderLeaf) = Some ls
    /\ existingTransactions st (txDbKey a b t ReceiverLeaf) = Some lr
    /\ kv st' !! txDbKey a b t SenderLeaf = Some (stringifyEntries (ls ++ [newTx]))
    /\ kv st' !! txDbKey a b t ReceiverLeaf
       = Some (stringifyEntries (lr ++ [newTx])).
Proof.
  unfold addTransaction. rewrite bind_run. unfold now.
  rewrite bind_run. unfold getTxSecret at 1, dbGet.
  rewrite bind_run. unfold getTxSecret, dbGet.
  destruct (negb _); [discriminate|].
  destruct (negb _); [discriminate|].
  rewrite bind_run.
  destruct (updateTxLeaf a b t SenderLeaf _ _ st) as [[u|e] st1] eqn:H1;
    [|discriminate].
  rewrite bind_run.
  destruct (updateTxLeaf a b t ReceiverLeaf _ _ st1) as [[u2|e] st2] eqn:H2;
    [|discriminate].
  intros Hrun. injection Hrun as _ <-.
  pose proof (updateTxLeaf_frame _ _ _ _ _ _ _ _ _ H1) as (_ & _ & Hk1).
  pose proof (updateTxLeaf_frame _ _ _ _ _ _ _ _ _ H2) as (_ & _ & Hk2).
  apply updateTxLeaf_Return in H1 as (ls & Hls & Hkv1).
  apply updateTxLeaf_Return in H2 as (lr & Hlr & Hkv2).
  exists ls, lr. cbv zeta. repeat split.
  - exact Hls.
  - rewrite <- Hlr. symmetry. apply existingTransactions_ext, Hk1.
    intros Heq. symmetry in Heq. now apply txDbKey_type in Heq.
  - rewrite Hk2; [exact Hkv1|]. apply txDbKey_type.
  - exact Hkv2.
Qed.

Lemma addTransaction_Throw (a b t amt : string) (st st' : State) (e : exn) :
  addTransaction a b t amt st = (Throw e, st') -> isCheckError e = false.
Proof.
  unfold addTransaction. rewrite bind_run. unfold now.
  rewrite bind_run. unfold getTxSecret at 1, dbGet.
  rewrite bind_run. unfold getTxSecret, dbGet.
  destruct (negb _); [intros Hrun; now injection Hrun as <- <-|].
  destruct (negb _); [intros Hrun; now injection Hrun as <- <-|].
  rewrite bind_run.
  destruct (updateTxLeaf a b t SenderLeaf _ _ st) as [[u|e1] st1] eqn:H1.
  2:{ intros Hrun. injection Hrun as <- <-.
      now apply updateTxLeaf_Throw in H1. }
  rewrite bind_run.
  destruct (updateTxLeaf a b t ReceiverLeaf _ _ st1) as [[u2|e2] st2] eqn:H2;
    [discriminate|].
  intros Hrun. injection Hrun as <- <-. now apply updateTxLeaf_Throw in H2.
Qed.

End Effects.

(* ===================================================================== *)
(** ** The runs of transfer                                               *)
(* ===================================================================== *)

Section Runs.
Context {E : Externals}.

Lemma transferSchema_Throw (body : TransferRequest) (e : exn) :
  transferSchema body = Throw e -> e = ZodError.
Proof.
  unfold transferSchema. destruct (_ && _); intros Hv; congruence.
Qed.

Ltac rejected Hrun :=
  injection Hrun as <- <-; apply RunRejected; auto.

(** Every call of [transfer] ends in one of the ways of [TransferRun]. *)
Lemma transfer_run (body : TransferRequest) (st st' : State)
    (o : outcome TransferResult) :
  transfer body st = (o, st') -> TransferRun body st o st'.
Proof.
  intros Hrun. unfold transfer in Hrun. rewrite bind_run in Hrun.
  unfold lift in Hrun.
  destruct (transferSchema body) as [v|e0] eqn:Hv.
  2:{ apply transferSchema_Throw in Hv. subst e0. rejected Hrun. }
  apply transferSchema_Return in Hv. subst v. cbv zeta in Hrun.
  destruct (String.eqb _ _) eqn:Hself; [rejected Hrun|].
  apply String.eqb_neq in Hself.
  destruct (negb (isValid _)); [rejected Hrun|].
  rewrite bind_run, hasAllSecrets_run in Hrun.
  destruct (negb _); [rejected Hrun|].
  rewrite bind_run, hasAllSecrets_run in Hrun.
  destruct (negb SKIP_RECEIVER_SECRET_CHECK && _); [rejected Hrun|].
  rewrite bind_run in Hrun.
  pose proof (getBalance_state (from (sendTransaction body))
                (token (sendTransaction body)) st) as Hst0.
  destruct (getBalance _ _ st) as [[bal|e1] st0] eqn:Hbal;
    simpl in Hst0; subst st0.
  2:{ apply getBalance_throw in Hbal. subst e1. rejected Hrun. }
  destruct (JS.ltb _ _); [rejected Hrun|].
  rewrite bind_run in Hrun.
  fold (debited (sendTransaction body) bal) in Hrun.
  destruct (updateBalance _ _ _ st) as [[[]|e2] st1] eqn:Hdebit.
  2:{ injection Hrun as <- <-. eapply RunDebitThrows; eassumption. }
  rewrite bind_run in Hrun.
  destruct (JS.truthy _ && JS.truthy _) eqn:Hto.
  - rewrite bind_run in Hrun.
    pose proof (getBalance_state (to (sendTransaction body))
                  (token (sendTransaction body)) st1) as Hst1.
    destruct (getBalance _ _ st1) as [[rbal|e3] st1'] eqn:Hrbal;
      simpl in Hst1; subst st1'.
    2:{ injection Hrun as <- <-. eapply RunReadThrows; try eassumption.
        rewrite hasAllSecrets_run. simpl. now rewrite Hto. }
    fold (credited (sendTransaction body) rbal) in Hrun.
    destruct (updateBalance _ _ _ st1) as [[[]|e4] st2] eqn:Hcredit.
    2:{ injection Hrun as <- <-. eapply RunCreditThrows; try eassumption.
        rewrite hasAllSecrets_run. simpl. now rewrite Hto. }
    rewrite bind_run in Hrun. rewrite bind_run in Hrun.
    destruct (addTransaction _ _ _ _ st2) as [[ts|e5] st3] eqn:Hledger.
    2:{ injection Hrun as <- <-. eapply RunLedgerThrows; try eassumption.
        rewrite hasAllSecrets_run. simpl. now rewrite Hto. }
    unfold ret in Hrun. rewrite bind_run in Hrun. unfold getRoot in Hrun.
    rewrite bind_run in Hrun. unfold getSmt in Hrun.
    injection Hrun as <- <-. eapply RunComplete; try eassumption.
    rewrite hasAllSecrets_run. simpl. now rewrite Hto.
  - unfold ret in Hrun. rewrite bind_run in Hrun.
    rewrite bind_run in Hrun. unfold getRoot in Hrun.
    rewrite bind_run in Hrun. unfold getSmt in Hrun.
    injection Hrun as <- <-. eapply RunDebitOnly; try eassumption.
    rewrite hasAllSecrets_run. simpl. now rewrite Hto.
Qed.

(** The run in which every check passes, the debit is written and the
    credit throws. *)
Lemma transfer_credit_throws (body : TransferRequest) (st st1 st2 : State)
    (bal rbal : string) (e : exn) :
  let s := sendTransaction body in
  transferSchema body = Return body ->
  JS.toLowerCase (from s) <> JS.toLowerCase (to s) ->
  isValid (verifyWalletSignature (from s) (signature body)
             (stringifySendTransaction s)) = true ->
  fst (hasAllSecrets (from s) st) = Return true ->
  fst (hasAllSecrets (to s) st) = Return true ->
  getBalance (from s) (token s) st = (Return bal, st) ->
  JS.ltb (JS.parseFloat bal) (JS.parseFloat (amount s)) = false ->
  updateBalance (from s) (token s) (debited s bal) st = (Return tt, st1) ->
  getBalance (to s) (token s) st1 = (Return rbal, st1) ->
  updateBalance (to s) (token s) (credited s rbal) st1 = (Throw e, st2) ->
  transfer body st = (Throw e, st2).
Proof.
  intros s Hv Hne Hsig Hfrom Hto Hbal Hlt Hdebit Hrbal Hcredit.
  unfold transfer. rewrite bind_run. unfold lift. rewrite Hv. cbv zeta.
  fold s. apply String.eqb_neq in Hne. rewrite Hne, Hsig.
  change (negb true) with false. cbv iota.
  rewrite hasAllSecrets_run in Hfrom, Hto. simpl in Hfrom, Hto.
  injection Hfrom as Hfrom. injection Hto as Hto.
  rewrite bind_run, hasAllSecrets_run, Hfrom.
  change (negb true) with false. cbv iota.
  rewrite bind_run, hasAllSecrets_run, Hto.
  change (negb true) with false. rewrite andb_false_r. cbv iota.
  rewrite bind_run, Hbal, Hlt, bind_run.
  fold (debited s bal). rewrite Hdebit.
  rewrite bind_run, bind_run, Hrbal.
  fold (credited s rbal). now rewrite Hcredit.
Qed.

End Runs.

(* ===================================================================== *)
(** ** Atomicity of transfer                                              *)
(* ===================================================================== *)

(** C2, amended. When [transfer] returns, the debit is in the store and,
    if the receiver has all secrets, so are the credit and the append to
    both ledger buckets, and the tree holds the credited leaf and, when the
    two wallets have different tree keys, the debited leaf (otherwise the
    debit alone was applied, to tree and store). When it is rejected by
    validation or by one of its [AppError] checks, the state is unchanged.
    There is no compensation: whenever the call throws a PersistenceError
    after the store accepted a write, the debited balance stays in the
    store; and it does throw one when every check passes, the debit is
    written, and the store refuses the next write while the tree accepts
    the credited leaf: then the sender's record is debited, the receiver's
    record is as it was and the tree has the credited leaf. *)
Theorem transfer_effects_and_failures :
  forall (E : Externals) (st : State) (body : TransferRequest),
    let s := sendTransaction body in
    let senderBucket := txDbKey (from s) (to s) (token s) SenderLeaf in
    let receiverBucket := txDbKey (from s) (to s) (token s) ReceiverLeaf in
    let newTx := mkTransactionEntry (from s) (to s) (token s) (amount s)
                   (clock st) in
    (forall res st', transfer body st = (Return res, st') ->
       exists bal st1,
         getBalance (from s) (token s) st = (Return bal, st)
         /\ updateBalance (from s) (token s) (debited s bal) st = (Return tt, st1)
         /\ leafEncodes st1 (from s) (token s) (debited s bal)
         /\ kv st' !! balanceDbKey (from s) (token s) = Some (debited s bal)
         /\ (fst (hasAllSecrets (to s) st) = Return false -> st' = st1)
         /\ (fst (hasAllSecrets (to s) st) = Return true ->
             exists rbal ls lr,
               getBalance (to s) (token s) st1 = (Return rbal, st1)
               /\ leafEncodes st' (to s) (token s) (credited s rbal)
               /\ kv st' !! balanceDbKey (to s) (token s)
                  = Some (credited s rbal)
               /\ existingTransactions st senderBucket = Some ls
               /\ existingTransactions st receiverBucket = Some lr
               /\ kv st' !! senderBucket = Some (stringifyEntries (ls ++ [newTx]))
               /\ kv st' !! receiverBucket
                  = Some (stringifyEntries (lr ++ [newTx]))
               /\ (forall sf sr : string,
                     kv st !! ("secret:balance:" ++ from s) = Some sf ->
                     kv st !! ("secret:balance:" ++ to s) = Some sr ->
                     generateKey (from s) (token s) sf
                     <> generateKey (to s) (token s) sr ->
                     leafEncodes st' (from s) (token s) (debited s bal))))
    /\ (forall e st', transfer body st = (Throw e, st') ->
          isCheckError e = true -> st' = st)
    /\ (forall n bal,
          fst (transfer body st) = Throw PersistenceError ->
          kvWrites st = Some (S n) ->
          fst (getBalance (from s) (token s) st) = Return bal ->
          kv (snd (transfer body st)) !! balanceDbKey (from s) (token s)
          = Some (debited s bal))
    /\ (forall (bal rbal hex : string) (st1 : State),
          transferSchema body = Return body ->
          JS.toLowerCase (from s) <> JS.toLowerCase (to s) ->
          isValid (verifyWalletSignature (from s) (signature body)
                     (stringifySendTransaction s)) = true ->
          fst (hasAllSecrets (from s) st) = Return true ->
          fst (hasAllSecrets (to s) st) = Return true ->
          getBalance (from s) (token s) st = (Return bal, st) ->
          JS.ltb (JS.parseFloat bal) (JS.parseFloat (amount s)) = false ->
          updateBalance (from s) (token s) (debited s bal) st
          = (Return tt, st1) ->
          kvWrites st1 = Some O ->
          getBalance (to s) (token s) st1 = (Return rbal, st1) ->
          toHexBalance (credited s rbal) = Return hex ->
          checkHex hex = true ->
          (forall sr : string,
              kv st !! ("secret:balance:" ++ to s) = Some sr ->
              smt st1 !! generateKey (to s) (token s) sr <> Some "") ->
          fst (transfer body st) = Throw PersistenceError
          /\ kv (snd (transfer body st)) !! balanceDbKey (from s) (token s)
             = Some (debited s bal)
          /\ kv (snd (transfer body st)) !! balanceDbKey (to s) (token s)
             = kv st !! balanceDbKey (to s) (token s)
          /\ leafEncodes (snd (transfer body st)) (to s) (token s)
               (credited s rbal)).
Proof.
  intros E st body s senderBucket receiverBucket newTx.
  assert (Hleaf : forall w nb sa sb, updateBalance w (token s) nb sa = (Return tt, sb) ->
            leafEncodes sb w (token s) nb).
  { intros w nb sa sb Hu. apply updateBalance_Return in Hu
      as (Hkv & _ & _ & secret & hex & Hsec & Hhex & Hsmt).
    exists secret, hex. repeat split; [|exact Hhex|].
    - rewrite Hkv, lookup_insert_ne; [exact Hsec|].
      intros Heq. symmetry in Heq. now apply secret_balanceDbKey in Heq.
    - rewrite Hsmt. apply lookup_insert_eq. }
  assert (Hkeys : JS.toLowerCase (from s) <> JS.toLowerCase (to s) ->
            balanceDbKey (from s) (token s) <> balanceDbKey (to s) (token s)).
  { intros Hne Heq. now apply balanceDbKey_inj in Heq. }
  split; [|split; [|split]].
  - intros res st' Hrun. apply transfer_run in Hrun.
    inversion Hrun as
      [ | | bal res0 st1 s0 Hne Hbal Hdebit Hto
        | | |
        | bal rbal ts res0 st1 st2 st3 s0 Hne Hbal Hdebit Hto Hrbal Hcredit Hledger ];
      subst; subst s0; fold s in Hne, Hbal, Hdebit, Hto.
    + exists bal, st'. repeat split; try assumption.
      * now apply (Hleaf _ _ st).
      * apply updateBalance_Return in Hdebit as (Hkv & _). rewrite Hkv.
        apply lookup_insert_eq.
      * intros Hyes. rewrite Hto in Hyes. discriminate.
    + fold s in Hrbal, Hcredit, Hledger.
      exists bal, st1. repeat split; try assumption.
      * now apply (Hleaf _ _ st).
      * pose proof (addTransaction_frame _ _ _ _ _ _ _ Hledger) as (_ & Hk3).
        pose proof (updateBalance_frame _ _ _ _ _ _ Hcredit) as (_ & _ & Hk2).
        apply updateBalance_Return in Hdebit as (Hkv & _).
        rewrite Hk3 by (intros ty; apply balanceDbKey_txDbKey).
        rewrite Hk2 by (now apply Hkeys).
        rewrite Hkv. apply lookup_insert_eq.
      * intros Hno. rewrite Hto in Hno. discriminate.
      * intros _.
        pose proof (addTransaction_frame _ _ _ _ _ _ _ Hledger) as (Hs3 & Hk3).
        pose proof (updateBalance_frame _ _ _ _ _ _ Hcredit) as (_ & _ & Hk2).
        pose proof (updateBalance_frame _ _ _ _ _ _ Hdebit) as (_ & Hc1 & Hk1).
        pose proof (updateBalance_frame _ _ _ _ _ _ Hcredit) as (_ & Hc2 & _).
        assert (Hsender : forall sf sr : string,
                   kv st !! ("secret:balance:" ++ from s) = Some sf ->
                   kv st !! ("secret:balance:" ++ to s) = Some sr ->
                   generateKey (from s) (token s) sf
                   <> generateKey (to s) (token s) sr ->
                   leafEncodes st' (from s) (token s) (debited s bal)).
        { intros sf sr Hsf Hsr Hdiff.
          pose proof (updateBalance_Return _ _ _ _ _ _ Hdebit)
            as (_ & _ & _ & sf' & hexd & Hsf' & Hhexd & Hsmt1).
          pose proof (updateBalance_Return _ _ _ _ _ _ Hcredit)
            as (_ & _ & _ & sr' & hexc & Hsr' & _ & Hsmt2).
          rewrite Hk1 in Hsr'
            by (intros Heq; now apply secret_balanceDbKey in Heq).
          assert (sf' = sf) by congruence. assert (sr' = sr) by congruence.
          subst sf' sr'. exists sf, hexd. repeat split; [|exact Hhexd|].
          - rewrite Hk3 by (intros ty; apply secret_txDbKey).
            rewrite Hk2, Hk1; [exact Hsf| |];
              intros Heq; now apply secret_balanceDbKey in Heq.
          - rewrite Hs3, Hsmt2, lookup_insert_ne by congruence.
            rewrite Hsmt1. apply lookup_insert_eq. }
        apply addTransaction_Return in Hledger
          as (ls & lr & Hls & Hlr & Hks & Hkr).
        exists rbal, ls, lr. repeat split; try assumption.
        -- destruct (Hleaf _ _ _ _ Hcredit) as (secret & hex & Hsec & Hhex & Hl).
           exists secret, hex. repeat split; [|exact Hhex|congruence].
           rewrite Hk3; [exact Hsec|]. intros ty. apply secret_txDbKey.
        -- rewrite Hk3 by (intros ty; apply balanceDbKey_txDbKey).
           apply updateBalance_Return in Hcredit as (Hkv & _). rewrite Hkv.
           apply lookup_insert_eq.
        -- rewrite <- Hls. symmetry. apply existingTransactions_ext.
           rewrite Hk2, Hk1; [reflexivity| |];
             intros Heq; symmetry in Heq; now apply balanceDbKey_txDbKey in Heq.
        -- rewrite <- Hlr. symmetry. apply existingTransactions_ext.
           rewrite Hk2, Hk1; [reflexivity| |];
             intros Heq; symmetry in Heq; now apply balanceDbKey_txDbKey in Heq.
        -- unfold newTx. now rewrite <- Hc1, <- Hc2.
        -- unfold newTx. now rewrite <- Hc1, <- Hc2.
  - intros e st' Hrun Hchk. apply transfer_run in Hrun.
    inversion Hrun as
      [ e0 He
      | bal e0 st1 s0 Hne Hbal Hdebit
      |
      | bal e0 st1 s0 Hne Hbal Hdebit Hto Hrbal
      | bal rbal e0 st1 st2 s0 Hne Hbal Hdebit Hto Hrbal Hcredit
      | bal rbal e0 st1 st2 st3 s0 Hne Hbal Hdebit Hto Hrbal Hcredit Hledger
      | ]; subst.
    + reflexivity.
    + apply updateBalance_Throw in Hdebit as (Hc & _). congruence.
    + apply getBalance_throw in Hrbal. subst e. discriminate.
    + apply updateBalance_Throw in Hcredit as (Hc & _). congruence.
    + apply addTransaction_Throw in Hledger. congruence.
  - intros n bal Hrun0 Hw Hbal0.
    destruct (transfer body st) as [o st'] eqn:Hrun. simpl in Hrun0. subst o.
    simpl. apply transfer_run in Hrun.
    inversion Hrun as
      [ e0 He
      | bal1 e0 st1 s0 Hne Hbal Hdebit
      |
      | bal1 e0 st1 s0 Hne Hbal Hdebit Hto Hrbal
      | bal1 rbal e0 st1 st2 s0 Hne Hbal Hdebit Hto Hrbal Hcredit
      | bal1 rbal e0 st1 st2 st3 s0 Hne Hbal Hdebit Hto Hrbal Hcredit Hledger
      | ]; subst; try subst s0.
    + destruct He as [He|He]; discriminate.
    + apply updateBalance_Throw in Hdebit as (_ & Hp).
      rewrite Hp in Hw by reflexivity. discriminate.
    + apply getBalance_throw in Hrbal. discriminate.
    + fold s in Hbal, Hdebit, Hcredit, Hne.
      assert (bal1 = bal) by (rewrite Hbal in Hbal0; simpl in Hbal0; congruence).
      subst bal1.
      pose proof (updateBalance_frame _ _ _ _ _ _ Hcredit) as (_ & _ & Hk2).
      apply updateBalance_Return in Hdebit as (Hkv & _).
      rewrite Hk2 by (now apply Hkeys). rewrite Hkv. apply lookup_insert_eq.
    + fold s in Hbal, Hdebit, Hcredit, Hledger, Hne.
      assert (bal1 = bal) by (rewrite Hbal in Hbal0; simpl in Hbal0; congruence).
      subst bal1.
      pose proof (addTransaction_frame _ _ _ _ _ _ _ Hledger) as (_ & Hk3).
      pose proof (updateBalance_frame _ _ _ _ _ _ Hcredit) as (_ & _ & Hk2).
      apply updateBalance_Return in Hdebit as (Hkv & _).
      rewrite Hk3 by (intros ty; apply balanceDbKey_txDbKey).
      rewrite Hk2 by (now apply Hkeys). rewrite Hkv. apply lookup_insert_eq.
  - intros bal rbal hex st1 Hv Hne Hsig Hfrom Hto Hbal Hlt Hdebit Hw1 Hrbal
           Hhex Hchk Hold.
    pose proof (updateBalance_frame _ _ _ _ _ _ Hdebit) as (_ & _ & Hk1).
    pose proof (updateBalance_Return _ _ _ _ _ _ Hdebit) as (Hkv & _).
    assert (Hsr : exists sr, kv st !! ("secret:balance:" ++ to s) = Some sr
                             /\ sr <> "").
    { rewrite hasAllSecrets_run in Hto. simpl in Hto. injection Hto as Hto.
      apply andb_true_iff in Hto as [Hto _].
      destruct (kv st !! ("secret:balance:" ++ to s)) as [sr|];
        [|discriminate Hto].
      exists sr. split; [reflexivity|]. intros ->. discriminate Hto. }
    destruct Hsr as (sr & Hsr & Hsr0).
    assert (Hsr1 : kv st1 !! ("secret:balance:" ++ to s) = Some sr).
    { rewrite Hk1; [exact Hsr|].
      intros Heq. now apply secret_balanceDbKey in Heq. }
    assert (Hcredit : updateBalance (to s) (token s) (credited s rbal) st1
              = (Throw PersistenceError,
                 set_smt (<[generateKey (to s) (token s) sr := hex]> (smt st1))
                         st1)).
    { rewrite updateBalance_unfold, Hsr1. simpl.
      destruct (String.eqb_spec sr ""); [contradiction|]. simpl.
      rewrite Hhex.
      destruct (upsert_inv (smt st1) (generateKey (to s) (token s) sr) hex
                  (generateKey_hex _ _ _))
        as [[Hup _]|(e & _ & _ & _ & [[Hno _]|[_ Habs]])].
      - rewrite Hup. unfold dbPut. simpl. now rewrite Hw1.
      - rewrite Hchk in Hno. discriminate Hno.
      - now apply Hold in Habs. }
    rewrite (transfer_credit_throws body st st1 _ bal rbal _
               Hv Hne Hsig Hfrom Hto Hbal Hlt Hdebit Hrbal Hcredit).
    simpl. repeat split.
    + rewrite Hkv. apply lookup_insert_eq.
    + rewrite Hk1; [reflexivity|]. intros Heq. symmetry in Heq.
      now apply Hkeys in Heq.
    + exists sr, hex. repeat split; [exact Hsr1|exact Hhex|].
      simpl. apply lookup_insert_eq.
Qed.

(* ===================================================================== *)
(** ** Order of the tree update and the store write                       *)
(* ===================================================================== *)

Lemma setBalance_updateBalance {E : Externals} (w t b : string) (st : State) :
  setBalance w t b st = updateBalance w t b st.
Proof.
  rewrite updateBalance_unfold. unfold setBalance. rewrite bind_run.
  unfold getBalanceSecret, dbGet.
  destruct (negb _); [reflexivity|].
  rewrite bind_run. cbv zeta. unfold lift at 1.
  destruct (toHexBalance b) as [v|e]; [|reflexivity].
  rewrite bind_run. unfold getSmt. rewrite bind_run.
  rewrite smt_get_hex by apply generateKey_hex. unfold lift.
  rewrite bind_run.
  destruct (JS.truthy (smt st !! _)).
  - unfold smtUpdate. destruct (smt_update _ _ _); reflexivity.
  - unfold smtAdd. destruct (smt_add _ _ _); reflexivity.
Qed.

(** C6, amended. Each operation that mutates a leaf ([setBalance],
    [updateBalance], [updateTxLeaf]) updates the in-memory tree first and
    writes the store after it: when the store refuses the write and the
    tree accepts the new leaf (a balance whose encoding has at most 64
    hexadecimal digits and no sign; every hash of a bucket), the call
    throws a PersistenceError with the new leaf already in the tree and the
    store as it was. A balance whose encoding the tree refuses makes the
    call throw the error of the tree package before the store is reached,
    with tree and store as they were. *)
Theorem tree_updated_before_store_write :
  forall (E : Externals) (st : State),
    kvWrites st = Some O ->
    (forall w t b secret hex : string,
        kv st !! ("secret:balance:" ++ w) = Some secret ->
        secret <> "" ->
        toHexBalance b = Return hex ->
        (checkHex hex = true ->
         smt st !! generateKey w t secret <> Some "" ->
         let st' := set_smt (<[generateKey w t secret := hex]> (smt st)) st in
         setBalance w t b st = (Throw PersistenceError, st')
         /\ updateBalance w t b st = (Throw PersistenceError, st'))
        /\ (checkHex hex = false ->
            setBalance w t b st = (Throw (notHexadecimal hex), st)
            /\ updateBalance w t b st = (Throw (notHexadecimal hex), st)))
    /\ (forall (a b t : string) (ty : LeafType) (secret : string)
               (newTx : TransactionEntry) (l : list TransactionEntry),
        existingTransactions st (txDbKey a b t ty) = Some l ->
        txSmt st !! generateTxKey a b t secret <> Some "" ->
        updateTxLeaf a b t ty secret newTx st
        = (Throw PersistenceError,
           set_txSmt (<[generateTxKey a b t secret
                        := hashTransactions (l ++ [newTx])]> (txSmt st)) st)).
Proof.
  intros E st Hw. split.
  - intros w t b secret hex Hsec Hne Hhex.
    assert (Hrun : updateBalance w t b st =
              match (if JS.truthy (smt st !! generateKey w t secret)
                     then smt_update (smt st) (generateKey w t secret) hex
                     else smt_add (smt st) (generateKey w t secret) hex) with
              | Throw e => (Throw e, st)
              | Return tr => dbPut (balanceDbKey w t) b (set_smt tr st)
              end).
    { rewrite updateBalance_unfold, Hsec. simpl.
      destruct (String.eqb_spec secret ""); [contradiction|]. simpl.
      now rewrite Hhex. }
    rewrite setBalance_updateBalance, Hrun.
    destruct (upsert_inv (smt st) (generateKey w t secret) hex
                (generateKey_hex _ _ _))
      as [[Hup Hv]|(e & Hup & _ & _ & [[Hv ->]|[Hv Habs]])]; rewrite Hup.
    + split; [|intros Hno; rewrite Hv in Hno; discriminate Hno].
      intros _ _ st'. unfold dbPut. simpl. now rewrite Hw.
    + split; [intros Hyes; rewrite Hv in Hyes; discriminate Hyes|].
      intros _. now split.
    + split; [intros _ Hleaf; contradiction|].
      intros Hno. rewrite Hv in Hno. discriminate Hno.
  - intros a b t ty secret newTx l Hl Hleaf.
    rewrite updateTxLeaf_unfold, Hl. cbv zeta.
    destruct (upsert_inv (txSmt st) (generateTxKey a b t secret)
                (hashTransactions (l ++ [newTx])) (generateTxKey_hex _ _ _ _))
      as [[Hup _]|(e & _ & _ & _ & [[Hv _]|[_ Habs]])]; [| |contradiction].
    + rewrite Hup. unfold dbPut. simpl. now rewrite Hw.
    + now rewrite hashTransactions_hex in Hv.
Qed.


(* ===================================================================== *)
(** ** Runs in the concrete world                                         *)
(* ===================================================================== *)

(** C3, as the code behaves. Alice holds 1 and Bob 0.1; Alice sends 0.2.
    The transfer succeeds, Alice's balance becomes 0.8 and Bob's
    0.30000000000000004: the scaled integers of the two leaves sum to
    1100000000000000000 before the transfer and to 1100000000000000064
    after it. *)
Theorem transfer_breaks_conservation :
  let W := Demo.world false in
  let st := Demo.funded "1" "0.1" in
  let r := transfer (E := W) (Demo.request "0.2") st in
  (exists res, fst r = Return res)
  /\ fst (getBalance (E := W) Demo.alice Demo.usdc st) = Return "1"
  /\ fst (getBalance (E := W) Demo.bob Demo.usdc st) = Return "0.1"
  /\ fst (getBalance (E := W) Demo.alice Demo.usdc (snd r)) = Return "0.8"
  /\ fst (getBalance (E := W) Demo.bob Demo.usdc (snd r))
     = Return "0.30000000000000004"
  /\ Demo.leafOf Demo.alice st = Some 1000000000000000000%Z
  /\ Demo.leafOf Demo.bob st = Some 100000000000000000%Z
  /\ Demo.leafOf Demo.alice (snd r) = Some 800000000000000000%Z
  /\ Demo.leafOf Demo.bob (snd r) = Some 300000000000000064%Z.
Proof. vm_compute. repeat split; eauto. Qed.

(** C9, as the code behaves. Alice holds 1 and asks to send
    1.000000000000000001, which is more than she has by one unit of the
    eighteenth decimal. Balance and amount are compared as Numbers, and
    both are read as 1: the transfer is not refused, Alice's whole balance
    moves to Bob, and the ledger records the amount as asked. *)
Theorem transfer_accepts_amount_above_balance :
  let W := Demo.world false in
  let st := Demo.funded "1" "0" in
  let body := Demo.request "1.000000000000000001" in
  let r := transfer (E := W) body st in
  fst (getBalance (E := W) Demo.alice Demo.usdc st) = Return "1"
  /\ exactUnits "1" = Some 1000000000000000000%Z
  /\ exactUnits "1.000000000000000001" = Some 1000000000000000001%Z
  /\ JS.ltb (JS.parseFloat "1") (JS.parseFloat "1.000000000000000001") = false
  /\ (exists res, fst r = Return res)
  /\ Demo.leafOf Demo.alice st = Some 1000000000000000000%Z
  /\ Demo.leafOf Demo.bob st = Some 0%Z
  /\ Demo.leafOf Demo.alice (snd r) = Some 0%Z
  /\ Demo.leafOf Demo.bob (snd r) = Some 1000000000000000000%Z
  /\ kv (snd r) !! balanceDbKey Demo.alice Demo.usdc = Some "0"
  /\ kv (snd r) !! balanceDbKey Demo.bob Demo.usdc = Some "1"
  /\ option_map (List.map tx_amount)
       (existingTransactions (E := W) (snd r)
          (txDbKey Demo.alice Demo.bob Demo.usdc SenderLeaf))
     = Some ["1.000000000000000001"].
Proof. vm_compute. repeat split; eauto. Qed.

(** Against C4 as stated. Two proof objects carry the normalized root of
    the live trees and differ in their key alone: the one whose key is
    hexadecimal verifies, the other makes [verifyProof] and
    [verifyTxProof] throw the Error of the tree package. *)
Lemma verifyProof_throws_on_unaccepted_key :
  let W := Demo.world false in
  let st := Demo.funded "100" "5" in
  let r := normalize (smtRootOf (Externals := W) (smt st)) in
  let rtx := normalize (smtRootOf (Externals := W) (txSmt st)) in
  fst (verifyProof (E := W) (mkProof r [] "00" "01") st) = Return true
  /\ fst (verifyProof (E := W) (mkProof r [] "zz" "01") st)
     = Throw (Error "Parameter zz must be a hexadecimal")
  /\ fst (verifyTxProof (E := W) (mkProof rtx [] "00" "01") st) = Return true
  /\ fst (verifyTxProof (E := W) (mkProof rtx [] "zz" "01") st)
     = Throw (Error "Parameter zz must be a hexadecimal").
Proof. vm_compute. repeat split. Qed.

(** Against C2 as stated. The store accepts the write of the debit and
    refuses the next one. The call throws; Alice's record has gone from 100
    to 60 and stays there, Bob's record still reads 0 although his leaf was
    already raised to 40, and no ledger entry was written. *)
Lemma transfer_keeps_debit_after_failed_credit :
  let W := Demo.world false in
  let st := Demo.failingAfter 1 (Demo.funded "100" "0") in
  let r := transfer (E := W) (Demo.request "40") st in
  fst r = Throw PersistenceError
  /\ kv st !! balanceDbKey Demo.alice Demo.usdc = Some "100"
  /\ kv (snd r) !! balanceDbKey Demo.alice Demo.usdc = Some "60"
  /\ kv (snd r) !! balanceDbKey Demo.bob Demo.usdc = Some "0"
  /\ Demo.leafOf Demo.alice (snd r) = Some 60000000000000000000%Z
  /\ Demo.leafOf Demo.bob (snd r) = Some 40000000000000000000%Z
  /\ kv (snd r) !! txDbKey Demo.alice Demo.bob Demo.usdc SenderLeaf = None.
Proof. vm_compute. repeat split. Qed.

(** Against C5 as stated. An amount with 18 fractional digits is decoded
    to a different amount; so is one with 17; and an amount with 19
    fractional digits is encoded without any error. *)
Lemma codec_loses_digits :
  let decodeEncode x :=
    match toHexBalance x with
    | Return h => fromHexBalance h
    | Throw e => Throw e
    end in
  decodeEncode "0.123456789012345678" = Return "0.12345678901234568"
  /\ decodeEncode "0.19999999999999998" = Return "0.19999999999999996"
  /\ fractionalDigits "0.1234567890123456789" = 19%nat
  /\ toHexBalance "0.1234567890123456789"
     = Return "00000000000000000000000000000000000000000000000001b69b4ba630f350".
Proof. vm_compute. repeat split. Qed.

(** Against C6 as stated. With the store unavailable, [setBalance] throws
    after it has put the new leaf into the tree: the tree holds a balance
    of 100 for which the store has no record. *)
Lemma setBalance_leaves_tree_ahead_of_store :
  let W := Demo.world false in
  let st := Demo.failingAfter 0 Demo.unlocked in
  let r := setBalance (E := W) Demo.alice Demo.usdc "100" st in
  fst r = Throw PersistenceError
  /\ Demo.leafOf Demo.alice st = None
  /\ Demo.leafOf Demo.alice (snd r) = Some 100000000000000000000%Z
  /\ kv (snd r) !! balanceDbKey Demo.alice Demo.usdc = None.
Proof. vm_compute. repeat split. Qed.

(** Against C7 as stated. Distinct tuples with the same bytes: two
    spellings of one address that differ in letter case; a byte that moves
    from the end of the token to the start of the secret; and a token
    given by name or by the hexadecimal of the same bytes; the same for
    the transaction key. *)
Lemma key_input_collisions :
  let upper := "0x" ++ JS.repeatChar 40 "A" in
  (upper <> Demo.alice
   /\ generateKeyInput upper Demo.usdc "0x11"
      = generateKeyInput Demo.alice Demo.usdc "0x11")
  /\ (("0xccdd", "0xee") <> ("0xcc", "0xddee")
      /\ generateKeyInput Demo.alice "0xccdd" "0xee"
         = generateKeyInput Demo.alice "0xcc" "0xddee")
  /\ ("usdc" <> "0x75736463"
      /\ generateKeyInput Demo.alice "usdc" "0x11"
         = generateKeyInput Demo.alice "0x75736463" "0x11")
  /\ (("0xccdd", "0xee") <> ("0xcc", "0xddee")
      /\ generateTxKeyInput Demo.alice Demo.bob "0xccdd" "0xee"
         = generateTxKeyInput Demo.alice Demo.bob "0xcc" "0xddee")
  /\ ("usdc" <> "0x75736463"
      /\ generateTxKeyInput Demo.alice Demo.bob "usdc" "0x11"
         = generateTxKeyInput Demo.alice Demo.bob "0x75736463" "0x11").
Proof. vm_compute. repeat split; discriminate. Qed.

(** Against C8 as stated. The amount [12abc] is not a decimal numeral, yet
    the request passes validation and the transfer goes through: 12 is
    moved from Alice to Bob. *)
Lemma malformed_amount_is_transferred :
  let W := Demo.world false in
  let st := Demo.funded "100" "0" in
  let r := transfer (E := W) (Demo.request "12abc") st in
  isDecimalNumeral "12abc" = false
  /\ transferSchema (Demo.request "12abc") = Return (Demo.request "12abc")
  /\ (exists res, fst r = Return res)
  /\ Demo.leafOf Demo.alice (snd r) = Some 88000000000000000000%Z
  /\ Demo.leafOf Demo.bob (snd r) = Some 12000000000000000000%Z.
Proof. vm_compute. repeat split; eauto. Qed.

(* ===================================================================== *)
(** ** The theorems at concrete inputs                                    *)
(* ===================================================================== *)

(** Normalises both sides of an equation among the hypotheses. *)
Ltac vm_in H :=
  match type of H with
  | ?l = ?r =>
      let l' := eval vm_compute in l in
      let r' := eval vm_compute in r in
      let Hl := fresh "Hl" in
      let Hr := fresh "Hr" in
      assert (Hl : l' = l) by (vm_compute; reflexivity);
      assert (Hr : r = r') by (vm_compute; reflexivity);
      let H' := fresh "H" in
      pose proof (eq_trans (eq_trans Hl H) Hr) as H'; clear Hl Hr H;
      rename H' into H
  end.

Lemma run_eq {A : Type} (c : M A) (st st' : State) (o : outcome A) :
  fst (c st) = o -> snd (c st) = st' -> c st = (o, st').
Proof. destruct (c st). simpl. now intros -> ->. Qed.

(** With two balances set, two proof objects that carry the normalized
    root of the live tree and have nothing else in common, not even the
    key, are both accepted. *)
Lemma verifyProof_compares_root_only_witness :
  let W := Demo.world false in
  let st := Demo.funded "100" "5" in
  let r := normalize (smtRootOf (Externals := W) (smt st)) in
  let p := mkProof r [] "00" "01" in
  let q := mkProof r [JS.repeatChar 64 "f"] "bb" "02" in
  verifyProof (E := W) p st = (Return true, st)
  /\ verifyProof (E := W) q st = verifyProof (E := W) p st.
Proof.
  intros W st r p q.
  destruct (proj1 (verifyProof_compares_root_only W st p) eq_refl)
    as (_ & _ & Hiff & _ & Hsame).
  split.
  - apply Hiff. reflexivity.
  - exact (proj1 (Hsame q eq_refl eq_refl)).
Defined.

(** Alice's proof, with its one sibling replaced, is accepted. *)
Lemma verifyProof_accepts_tampered_siblings_witness :
  let W := Demo.world false in
  let st := Demo.funded "100" "5" in
  exists p : Proof,
    fst (getProof (E := W) Demo.alice Demo.usdc st) = Return p
    /\ siblings p = [JS.repeatChar 48 "0" ++ "4563918244f40000"]
    /\ verifyProof (E := W)
         (mkProof (root p) [JS.repeatChar 64 "f"] (key p) (value p)) st
       = (Return true, st).
Proof.
  intros W st.
  assert (Hp : exists p, fst (getProof (E := W) Demo.alice Demo.usdc st) = Return p
                         /\ siblings p = [JS.repeatChar 48 "0" ++ "4563918244f40000"]).
  { vm_compute. eexists. split; reflexivity. }
  destruct Hp as (p & Hp & Hs). exists p. split; [exact Hp|split; [exact Hs|]].
  exact (proj2 (proj2 (verifyProof_accepts_tampered_siblings W st Demo.alice
                         Demo.usdc p [JS.repeatChar 64 "f"] Hp))).
Defined.

Lemma self_transfer_rejected_witness :
  let W := Demo.world false in
  transfer (E := W)
    (mkTransferRequest
       (mkSendTransaction Demo.alice Demo.alice Demo.usdc "40") Demo.alice)
    Demo.unlocked
  = (Throw (AppError "Cannot transfer to yourself" 400), Demo.unlocked).
Proof.
  intros W.
  apply (proj2 (self_transfer_rejected W Demo.unlocked Demo.alice Demo.usdc
                  "40" Demo.alice)).
  vm_compute. reflexivity.
Defined.

(** Alice holds 100 and asks to send 150. *)
Lemma insufficient_balance_rejected_witness :
  let W := Demo.world false in
  let st := Demo.funded "100" "0" in
  transfer (E := W) (Demo.request "150") st
  = (Throw (AppError "Insufficient balance" 400), st).
Proof.
  intros W st.
  apply (proj2 (insufficient_balance_rejected W st (Demo.request "150") "100"
                  ltac:(vm_compute; reflexivity) ltac:(vm_compute; reflexivity))).
  - vm_compute. reflexivity.
  - vm_compute. discriminate.
  - vm_compute. reflexivity.
  - vm_compute. reflexivity.
  - left. vm_compute. reflexivity.
Defined.

Lemma empty_amount_fails_validation_witness :
  let W := Demo.world false in
  transfer (E := W) (Demo.request "") Demo.unlocked
  = (Throw ZodError, Demo.unlocked).
Proof.
  intros W.
  apply (proj1 (empty_amount_fails_validation W Demo.unlocked (Demo.request ""))).
  reflexivity.
Defined.

(** Tuples with the same bytes whose names are addresses are the same in
    lower case (two spellings of Alice's address and of the token); tuples
    with the same bytes whose wallets and secrets are encoded to equal
    lengths have the same encodings, also of the token. *)
Lemma key_input_determines_fields_of_equal_width_witness :
  let upper := "0x" ++ JS.repeatChar 40 "A" in
  let mixed := "0x" ++ JS.repeatChar 20 "C" ++ JS.repeatChar 20 "c" in
  (JS.toLowerCase upper = JS.toLowerCase Demo.alice
   /\ JS.toLowerCase mixed = JS.toLowerCase Demo.usdc
   /\ Viem.toBytes "0x11" = Viem.toBytes "0x11")
  /\ (Viem.toBytes (JS.toLowerCase Demo.alice)
      = Viem.toBytes (JS.toLowerCase Demo.alice)
      /\ Viem.toBytes (JS.toLowerCase "0xccdd") = Viem.toBytes (JS.toLowerCase "0xCCDD")
      /\ Viem.toBytes "secret" = Viem.toBytes "secret").
Proof.
  intros upper mixed. split.
  - apply (proj2 (proj1 key_input_determines_fields_of_equal_width
                    upper mixed "0x11" Demo.alice Demo.usdc "0x11"
                    ltac:(vm_compute; reflexivity)));
      vm_compute; reflexivity.
  - apply (proj1 (proj1 key_input_determines_fields_of_equal_width
                    Demo.alice "0xccdd" "secret" Demo.alice "0xCCDD" "secret"
                    ltac:(vm_compute; reflexivity))).
    right. left. vm_compute. split; reflexivity.
Defined.

(** An amount with nineteen fractional digits is encoded, and encoded like
    the seventeen digits that [parseFloat] keeps of them. *)
Lemma toHexBalance_never_rejects_precision_witness :
  (exists v : Z,
     JS.toBigInt (JS.floor (JS.mul (JS.parseFloat "0.1234567890123456789")
                                   (JS.ofBigInt PRECISION))) = Some v
     /\ toHexBalance "0.1234567890123456789"
        = Return (normalize (JS.intToString 16 v)))
  /\ toHexBalance "0.1234567890123456789" = toHexBalance "0.12345678901234568".
Proof.
  split.
  - apply (proj1 (toHexBalance_never_rejects_precision "0.1234567890123456789")).
    vm_compute. reflexivity.
  - apply (proj2 (proj2 (toHexBalance_never_rejects_precision
                           "0.1234567890123456789"))).
    vm_compute. reflexivity.
Defined.

(** The store refuses the second write of a transfer of 40 out of 100:
    the call throws a PersistenceError, Alice's record keeps the debited
    balance, Bob's record is as it was and his leaf is credited. *)
Lemma transfer_effects_and_failures_witness :
  let W := Demo.world false in
  let st := Demo.failingAfter 1 (Demo.funded "100" "0") in
  let body := Demo.request "40" in
  let s := sendTransaction body in
  fst (transfer (E := W) body st) = Throw PersistenceError
  /\ kv (snd (transfer (E := W) body st)) !! balanceDbKey Demo.alice Demo.usdc
     = Some (debited s "100")
  /\ kv (snd (transfer (E := W) body st)) !! balanceDbKey Demo.bob Demo.usdc
     = kv st !! balanceDbKey Demo.bob Demo.usdc
  /\ leafEncodes (E := W) (snd (transfer (E := W) body st)) Demo.bob Demo.usdc
       (credited s "0").
Proof.
  intros W st body s.
  apply (proj2 (proj2 (proj2 (transfer_effects_and_failures W st body)))
           "100" "0" (JS.repeatChar 47 "0" ++ "22b1c8c1227a00000")
           (snd (updateBalance (E := W) Demo.alice Demo.usdc
                   (debited s "100") st))).
  - vm_compute. reflexivity.
  - vm_compute. discriminate.
  - vm_compute. reflexivity.
  - vm_compute. reflexivity.
  - vm_compute. reflexivity.
  - apply run_eq; [vm_compute; reflexivity|apply getBalance_state].
  - vm_compute. reflexivity.
  - apply run_eq; [vm_compute; reflexivity|reflexivity].
  - vm_compute. reflexivity.
  - apply run_eq; [vm_compute; reflexivity|apply getBalance_state].
  - vm_compute. reflexivity.
  - vm_compute. reflexivity.
  - intros sr Hsr Habs.
    assert (Hk : Some sr = Some ("0x" ++ JS.repeatChar 64 "3"))
      by (rewrite <- Hsr; vm_compute; reflexivity).
    injection Hk as Hsec.
    rewrite Hsec in Habs. vm_in Habs. discriminate Habs.
Defined.

(** The store is unavailable when Alice's first balance is set. *)
Lemma tree_updated_before_store_write_witness :
  let W := Demo.world false in
  let st := Demo.failingAfter 0 Demo.unlocked in
  let secret := "0x" ++ JS.repeatChar 64 "1" in
  let hex := JS.repeatChar 47 "0" ++ "56bc75e2d63100000" in
  setBalance (E := W) Demo.alice Demo.usdc "100" st
  = (Throw PersistenceError,
     set_smt (<[generateKey (E := W) Demo.alice Demo.usdc secret := hex]> (smt st))
       st).
Proof.
  intros W st secret hex.
  refine (proj1 (proj1 (proj1 (tree_updated_before_store_write W st eq_refl)
                          Demo.alice Demo.usdc "100" secret hex _ _ _) _ _)).
  - vm_compute. reflexivity.
  - vm_compute. discriminate.
  - vm_compute. reflexivity.
  - vm_compute. reflexivity.
  - vm_compute. discriminate.
Defined.


(* ===================================================================== *)
(** ** Hexadecimal leaves                                                 *)
(* ===================================================================== *)

Section HexLeaves.
Local Open Scope Z_scope.

Lemma length_append (a b : string) :
  String.length (a ++ b) = (String.length a + String.length b)%nat.
Proof. induction a as [|c a IH]; simpl; [reflexivity|now rewrite IH]. Qed.

Lemma length_repeatChar (n : nat) (c : ascii) :
  String.length (JS.repeatChar n c) = n.
Proof. induction n as [|n IH]; simpl; [reflexivity|now rewrite IH]. Qed.

Lemma padStart_length (n : nat) (c : ascii) (s : string) :
  String.length (JS.padStart n c s) = Nat.max n (String.length s).
Proof.
  unfold JS.padStart. rewrite length_append, length_repeatChar. lia.
Qed.

Lemma list_ascii_of_append (a b : string) :
  list_ascii_of_string (a ++ b)
  = (list_ascii_of_string a ++ list_ascii_of_string b)%list.
Proof. induction a as [|c a IH]; simpl; [reflexivity|now rewrite IH]. Qed.

Lemma list_ascii_of_repeatChar (n : nat) (c : ascii) :
  list_ascii_of_string (JS.repeatChar n c) = repeat c n.
Proof. induction n as [|n IH]; simpl; [reflexivity|now rewrite IH]. Qed.

Lemma digitVal_digitChar (d : Z) : 0 <= d < 16 -> JS.digitVal (JS.digitChar d) = d.
Proof.
  intros Hd.
  assert (Hc : d = 0 \/ d = 1 \/ d = 2 \/ d = 3 \/ d = 4 \/ d = 5 \/ d = 6
               \/ d = 7 \/ d = 8 \/ d = 9 \/ d = 10 \/ d = 11 \/ d = 12
               \/ d = 13 \/ d = 14 \/ d = 15) by lia.
  repeat (destruct Hc as [->|Hc]; [reflexivity|]). now subst d.
Qed.

Lemma isHexDigit_digitChar (d : Z) :
  0 <= d < 16 -> JS.isHexDigit (JS.digitChar d) = true.
Proof.
  intros Hd.
  assert (Hc : d = 0 \/ d = 1 \/ d = 2 \/ d = 3 \/ d = 4 \/ d = 5 \/ d = 6
               \/ d = 7 \/ d = 8 \/ d = 9 \/ d = 10 \/ d = 11 \/ d = 12
               \/ d = 13 \/ d = 14 \/ d = 15) by lia.
  repeat (destruct Hc as [->|Hc]; [reflexivity|]). now subst d.
Qed.

Lemma digitsValue_app (base : Z) (l1 l2 : list ascii) :
  JS.digitsValue base (l1 ++ l2)
  = fold_left (fun acc c => acc * base + JS.digitVal c) l2 (JS.digitsValue base l1).
Proof. unfold JS.digitsValue. apply fold_left_app. Qed.

Lemma fold_digits_shift (base : Z) (l : list ascii) (a : Z) :
  fold_left (fun acc c => acc * base + JS.digitVal c) l a
  = a * base ^ Z.of_nat (List.length l) + JS.digitsValue base l.
Proof.
  unfold JS.digitsValue. revert a.
  induction l as [|c l IH]; intros a.
  - simpl. lia.
  - cbn [fold_left List.length]. rewrite IH, (IH (0 * base + JS.digitVal c)).
    rewrite Nat2Z.inj_succ, Z.pow_succ_r by lia. ring.
Qed.

(** The digits of [n] in base 16, put in front of [acc]. *)
Lemma digitsAcc_spec (fuel : nat) (n : Z) (acc : list ascii) :
  0 <= n < 16 ^ Z.of_nat (S fuel) ->
  exists ds,
    JS.digitsAcc fuel 16 n acc = (ds ++ acc)%list
    /\ JS.digitsValue 16 ds = n
    /\ forallb JS.isHexDigit ds = true
    /\ ds <> [].
Proof.
  revert n acc. induction fuel as [|fuel IH]; intros n acc Hn.
  - exists [JS.digitChar n]. cbn [JS.digitsAcc].
    assert (Hn' : 0 <= n < 16) by (change (16 ^ Z.of_nat 1) with 16 in Hn; lia).
    rewrite Z.mod_small by lia.
    repeat split;
      [|cbn [forallb]; now rewrite (isHexDigit_digitChar n Hn')|discriminate].
    unfold JS.digitsValue. cbn [fold_left]. rewrite digitVal_digitChar; lia.
  - cbn [JS.digitsAcc]. destruct (n <? 16) eqn:Hlt.
    + apply Z.ltb_lt in Hlt. exists [JS.digitChar n].
      repeat split;
        [|cbn [forallb];
          now rewrite (isHexDigit_digitChar n (conj (proj1 Hn) Hlt))|discriminate].
      unfold JS.digitsValue. cbn [fold_left]. rewrite digitVal_digitChar; lia.
    + apply Z.ltb_ge in Hlt.
      destruct (IH (n / 16) (JS.digitChar (n mod 16) :: acc)) as (ds & Hds & Hv & Hh & _).
      { split; [apply Z.div_pos; lia|].
        apply Z.div_lt_upper_bound; [lia|].
        rewrite Nat2Z.inj_succ, Z.pow_succ_r in Hn by lia. lia. }
      exists (ds ++ [JS.digitChar (n mod 16)])%list.
      pose proof (Z.mod_pos_bound n 16 ltac:(lia)) as Hm.
      repeat split.
      * rewrite Hds. now rewrite <- app_assoc.
      * rewrite digitsValue_app. cbn [fold_left]. rewrite Hv, digitVal_digitChar by lia.
        pose proof (Z.div_mod n 16 ltac:(lia)). lia.
      * rewrite forallb_app, Hh. cbn [forallb andb].
        now rewrite (isHexDigit_digitChar _ Hm).
      * destruct ds; discriminate.
Qed.

Lemma natDigits_spec (n : Z) :
  0 <= n ->
  JS.digitsValue 16 (JS.natDigits 16 n) = n
  /\ forallb JS.isHexDigit (JS.natDigits 16 n) = true
  /\ JS.natDigits 16 n <> [].
Proof.
  intros Hn. unfold JS.natDigits.
  destruct (digitsAcc_spec (Z.to_nat (Z.log2 n)) n []) as (ds & Hds & Hv & Hh & Hne).
  { split; [exact Hn|].
    destruct (Z.eq_dec n 0) as [->|Hn0]; [simpl; lia|].
    rewrite Nat2Z.inj_succ, Z2Nat.id by apply Z.log2_nonneg.
    apply Z.lt_le_trans with (2 ^ Z.succ (Z.log2 n)).
    - apply Z.log2_spec. lia.
    - apply Z.pow_le_mono_l. lia. }
  rewrite Hds, app_nil_r. auto.
Qed.

Lemma digitsValue_zeros (k : nat) (ds : list ascii) :
  JS.digitsValue 16 (repeat "0"%char k ++ ds) = JS.digitsValue 16 ds.
Proof.
  induction k as [|k IH]; [reflexivity|].
  unfold JS.digitsValue in *. cbn [repeat app fold_left].
  exact IH.
Qed.

Lemma dropWhile_hex (ds : list ascii) :
  forallb JS.isHexDigit ds = true ->
  rev (JS.dropWhile JS.isWhiteSpace (rev ds)) = ds.
Proof.
  intros Hh. destruct (rev ds) as [|c r] eqn:Hr.
  - apply (f_equal (@rev ascii)) in Hr. rewrite rev_involutive in Hr. now subst.
  - assert (Hc : JS.isHexDigit c = true).
    { rewrite forallb_forall in Hh. apply Hh. apply in_rev. rewrite Hr. now left. }
    cbn [JS.dropWhile].
    assert (Hw : JS.isWhiteSpace c = false).
    { destruct c as [[] [] [] [] [] [] [] []]; try reflexivity; discriminate Hc. }
    rewrite Hw, <- Hr. apply rev_involutive.
Qed.

(** A text of hexadecimal digits is not changed by the stripping of
    [normalize], only padded. *)
Lemma normalize_hex (h : string) :
  forallb JS.isHexDigit (list_ascii_of_string h) = true ->
  normalize h = JS.padStart 64 "0" h.
Proof.
  intros Hh. unfold normalize.
  destruct h as [|a h']; [reflexivity|].
  destruct (Ascii.eqb_spec a "0") as [->|Ha].
  - destruct h' as [|b r]; [reflexivity|].
    destruct b as [[] [] [] [] [] [] [] []]; try reflexivity.
    simpl in Hh. discriminate.
  - destruct a as [[] [] [] [] [] [] [] []]; try reflexivity. congruence.
Qed.

Lemma hexBigInt_padded (v : Z) :
  0 <= v -> hexBigInt (normalize (JS.intToString 16 v)) = Some v.
Proof.
  intros Hv. destruct (natDigits_spec v Hv) as (Hval & Hhex & Hne).
  unfold JS.intToString. destruct (v <? 0) eqn:Hneg; [apply Z.ltb_lt in Hneg; lia|].
  rewrite normalize_hex by now rewrite list_ascii_of_string_of_list_ascii.
  unfold hexBigInt, JS.padStart.
  rewrite list_ascii_of_append, list_ascii_of_repeatChar,
    list_ascii_of_string_of_list_ascii.
  set (k := (64 - _)%nat).
  assert (Hall : forallb JS.isHexDigit (repeat "0"%char k ++ JS.natDigits 16 v) = true).
  { rewrite forallb_app, Hhex, andb_true_r.
    clear. induction k; [reflexivity|exact IHk]. }
  rewrite dropWhile_hex by exact Hall.
  assert (Hgen : forall l : list ascii,
            l <> [] -> forallb JS.isHexDigit l = true ->
            match l with
            | [] => None
            | _ :: _ =>
                if forallb JS.isHexDigit l then Some (JS.digitsValue 16 l)
                else None
            end = Some (JS.digitsValue 16 l)).
  { intros l Hl Hf. destruct l; [contradiction|]. now rewrite Hf. }
  rewrite Hgen; [now rewrite digitsValue_zeros, Hval| |exact Hall].
  intros Hl. apply app_eq_nil in Hl as [_ Hl]. contradiction.
Qed.

Lemma hexBigInt_minus (s : string) :
  hexBigInt (normalize (String "-" s)) = None.
Proof.
  unfold normalize, hexBigInt, JS.padStart.
  rewrite list_ascii_of_append, list_ascii_of_repeatChar.
  cbn [list_ascii_of_string].
  set (l := (repeat "0"%char _ ++ "-"%char :: list_ascii_of_string s)%list).
  set (d := rev (JS.dropWhile JS.isWhiteSpace (rev l))).
  assert (Hd : In "-"%char d).
  { unfold d. apply in_rev. rewrite rev_involutive.
    unfold l. rewrite rev_app_distr. cbn [rev].
    generalize (rev (list_ascii_of_string s)) as r.
    generalize (rev (repeat "0"%char (64 - String.length (String "-" s)))) as z.
    intros z r. rewrite <- app_assoc. cbn [app].
    induction r as [|c r IH]; cbn [app JS.dropWhile].
    - now left.
    - destruct (JS.isWhiteSpace c); [exact IH|].
      right. apply in_or_app. right. now left. }
  destruct d as [|c d']; [reflexivity|].
  destruct (forallb JS.isHexDigit (c :: d')) eqn:Hall; [|reflexivity].
  rewrite forallb_forall in Hall. specialize (Hall _ Hd). discriminate.
Qed.

End HexLeaves.

Lemma toHexBalance_padded (x h : string) :
  toHexBalance x = Return h -> (64 <= String.length h)%nat.
Proof.
  unfold toHexBalance. destruct (JS.toBigInt _); [|discriminate].
  intros Hx. injection Hx as <-. unfold normalize. rewrite padStart_length. lia.
Qed.

(** X1. The leaf that [toHexBalance] writes is the padded hexadecimal of
    the scaled integer: a non-negative one is read back by [fromHexBalance]
    as the same integer, divided by 10^18; a negative one contains a minus
    sign, on which [fromHexBalance] throws a SyntaxError. *)
Theorem leaf_written_is_read_back :
  forall (x h : string),
    toHexBalance x = Return h ->
    exists v : Z,
      JS.toBigInt (JS.floor (JS.mul (JS.parseFloat x) (JS.ofBigInt PRECISION)))
      = Some v
      /\ (64 <= String.length h)%nat
      /\ ((0 <= v)%Z ->
          hexBigInt h = Some v
          /\ fromHexBalance h
             = Return (JS.toString (JS.div (JS.ofBigInt v) (JS.ofBigInt PRECISION))))
      /\ ((v < 0)%Z -> fromHexBalance h = Throw SyntaxError).
Proof.
  intros x h Hx. unfold toHexBalance in Hx.
  destruct (JS.toBigInt _) as [v|]; [|discriminate].
  injection Hx as <-. exists v. split; [reflexivity|]. split; [|split].
  - unfold normalize. rewrite padStart_length. lia.
  - intros Hv. pose proof (hexBigInt_padded v Hv) as Hh.
    split; [exact Hh|]. unfold fromHexBalance. now rewrite Hh.
  - intros Hv. unfold fromHexBalance, JS.intToString.
    apply Z.ltb_lt in Hv. rewrite Hv. now rewrite hexBigInt_minus.
Qed.

(* ===================================================================== *)
(** ** Reading and writing balances                                       *)
(* ===================================================================== *)

(** What [getBalance] does for a wallet with a secret. *)
Lemma getBalance_run {E : Externals} (st : State) (wallet token secret : string) :
  kv st !! ("secret:balance:" ++ wallet) = Some secret ->
  secret <> "" ->
  getBalance wallet token st
  = if JS.truthy (smt st !! generateKey wallet token secret)
    then (fromHexBalance (default "" (smt st !! generateKey wallet token secret)), st)
    else (Return "0", st).
Proof.
  intros Hsec Hne.
  rewrite getBalance_unfold, Hsec. simpl.
  destruct (String.eqb_spec secret ""); [contradiction|]. reflexivity.
Qed.

(** X2. [getBalance] only reads: it leaves the state as it was, answers
    ["0"] for a wallet without a balance secret and for a wallet without a
    leaf, decodes the leaf otherwise, and throws nothing but the
    SyntaxError of a leaf that is not hexadecimal. *)
Theorem getBalance_only_reads :
  forall (E : Externals) (st : State) (wallet token : string),
    snd (getBalance wallet token st) = st
    /\ (JS.truthy (kv st !! ("secret:balance:" ++ wallet)) = false ->
        fst (getBalance wallet token st) = Return "0")
    /\ (forall secret : string,
          kv st !! ("secret:balance:" ++ wallet) = Some secret ->
          secret <> "" ->
          (smt st !! generateKey wallet token secret = None ->
           fst (getBalance wallet token st) = Return "0")
          /\ (forall leaf : string,
                smt st !! generateKey wallet token secret = Some leaf ->
                leaf <> "" ->
                fst (getBalance wallet token st) = fromHexBalance leaf))
    /\ (forall e : exn,
          fst (getBalance wallet token st) = Throw e -> e = SyntaxError).
Proof.
  intros E st wallet token. split; [apply getBalance_state|].
  split; [|split].
  - intros Hs. unfold getBalance. rewrite bind_run.
    unfold getBalanceSecret, dbGet. now rewrite Hs.
  - intros secret Hsec Hne.
    rewrite (getBalance_run st wallet token secret Hsec Hne). split.
    + intros ->. reflexivity.
    + intros leaf -> Hleaf. simpl.
      destruct (String.eqb_spec leaf ""); [contradiction|]. reflexivity.
  - intros e He.
    destruct (getBalance wallet token st) as [o st'] eqn:Hrun.
    simpl in He. subst o. now apply getBalance_throw in Hrun.
Qed.

(** X3. [setBalance] and [updateBalance] are the same operation: on every
    input they end in the same outcome and the same state. *)
Theorem setBalance_is_updateBalance :
  forall (E : Externals) (st : State) (wallet token balance : string),
    setBalance wallet token balance st = updateBalance wallet token balance st.
Proof. intros E st wallet token balance. apply setBalance_updateBalance. Qed.

(** X4. A balance is refused before anything is written: without a
    balance secret [setBalance] and [updateBalance] throw their error, and
    with one they throw a RangeError for a balance that does not encode; in
    both cases the state is unchanged. *)
Theorem setBalance_refuses_before_writing :
  forall (E : Externals) (st : State) (wallet token balance : string),
    (JS.truthy (kv st !! ("secret:balance:" ++ wallet)) = false ->
     setBalance wallet token balance st
     = (Throw (Error "User has not set balance secret"), st)
     /\ updateBalance wallet token balance st
        = (Throw (Error "User has not set balance secret"), st))
    /\ (JS.truthy (kv st !! ("secret:balance:" ++ wallet)) = true ->
        toHexBalance balance = Throw RangeError ->
        setBalance wallet token balance st = (Throw RangeError, st)
        /\ updateBalance wallet token balance st = (Throw RangeError, st)).
Proof.
  intros E st wallet token balance.
  rewrite setBalance_updateBalance, updateBalance_unfold. split.
  - intros ->. auto.
  - intros -> ->. auto.
Qed.

(** X5. What [setBalance] writes is what [getBalance] reads: after a
    successful call the leaf of the wallet holds the encoding of the
    balance, the store holds the balance as given, [getBalance] returns the
    decoding of that leaf, and no other leaf, no other record and nothing
    of the transaction tree has changed. *)
Theorem setBalance_then_getBalance :
  forall (E : Externals) (st : State) (wallet token balance : string),
    fst (setBalance wallet token balance st) = Return tt ->
    let st' := snd (setBalance wallet token balance st) in
    exists secret hex : string,
      kv st !! ("secret:balance:" ++ wallet) = Some secret
      /\ toHexBalance balance = Return hex
      /\ smt st' !! generateKey wallet token secret = Some hex
      /\ kv st' !! balanceDbKey wallet token = Some balance
      /\ getBalance wallet token st' = (fromHexBalance hex, st')
      /\ (forall k, k <> generateKey wallet token secret ->
                    smt st' !! k = smt st !! k)
      /\ (forall k, k <> balanceDbKey wallet token -> kv st' !! k = kv st !! k)
      /\ txSmt st' = txSmt st.
Proof.
  intros E st wallet token balance Hok st'.
  destruct (setBalance wallet token balance st) as [o st1] eqn:Hrun.
  simpl in Hok, st'. subst o st'.
  rewrite setBalance_updateBalance in Hrun.
  pose proof (updateBalance_frame _ _ _ _ _ _ Hrun) as (Htx & _ & Hkv).
  pose proof Hrun as Hrun'.
  apply updateBalance_Return in Hrun
    as (Hkv1 & _ & _ & secret & hex & Hsec & Hhex & Hsmt).
  assert (Hsec1 : kv st1 !! ("secret:balance:" ++ wallet) = Some secret).
  { rewrite Hkv; [exact Hsec|]. apply secret_balanceDbKey. }
  pose proof (toHexBalance_padded balance hex Hhex) as Hlen.
  assert (Hleaf : smt st1 !! generateKey wallet token secret = Some hex).
  { rewrite Hsmt. apply lookup_insert_eq. }
  exists secret, hex. repeat split; try assumption.
  - rewrite Hkv1. apply lookup_insert_eq.
  - assert (Hne : secret <> "").
    { intros ->. rewrite updateBalance_unfold, Hsec in Hrun'. discriminate. }
    rewrite (getBalance_run st1 wallet token secret Hsec1 Hne), Hleaf. simpl.
    destruct (String.eqb_spec hex "") as [->|_]; [simpl in Hlen; lia|reflexivity].
  - intros k Hk. rewrite Hsmt. now rewrite lookup_insert_ne.
Qed.

(* ===================================================================== *)
(** ** Leaves keep their width                                            *)
(* ===================================================================== *)

Lemma normalize_padded (h : string) : (64 <= String.length (normalize h))%nat.
Proof. unfold normalize. rewrite padStart_length. lia. Qed.

Lemma leavesPadded_insert (t : gmap string string) (k v : string) :
  leavesPadded t -> (64 <= String.length v)%nat -> leavesPadded (<[k := v]> t).
Proof.
  intros Ht Hv k' v' Hk. destruct (decide (k = k')) as [->|Hne].
  - rewrite lookup_insert_eq in Hk. now injection Hk as <-.
  - rewrite lookup_insert_ne in Hk by exact Hne. now apply (Ht k').
Qed.

Lemma leavesPadded_nonempty (t : gmap string string) (k : string) :
  leavesPadded t -> t !! k <> Some "".
Proof. intros Ht Hk. apply Ht in Hk. simpl in Hk. lia. Qed.

Section Padded.
Context {E : Externals}.

Lemma updateBalance_padded (w t nb : string) (st st' : State) (o : outcome unit) :
  leavesPadded (smt st) ->
  updateBalance w t nb st = (o, st') ->
  leavesPadded (smt st').
Proof.
  intros Hp. rewrite updateBalance_unfold.
  destruct (negb _); [intros Hrun; now injection Hrun as <- <-|].
  cbv zeta. destruct (toHexBalance nb) as [v|e] eqn:Hhex;
    [|intros Hrun; now injection Hrun as <- <-].
  match goal with
  | |- context [if JS.truthy (?tr !! ?k) then _ else _] =>
      destruct (upsert_inv tr k v (generateKey_hex _ _ _))
        as [[Hup _]|(e1 & Hup & _)]
  end; rewrite Hup; [|intros Hrun; now injection Hrun as <- <-].
  intros Hrun. apply dbPut_inv in Hrun as [(_ & -> & _)|(_ & Hs & _)].
  - simpl. apply leavesPadded_insert; [exact Hp|].
    now apply (toHexBalance_padded nb).
  - rewrite Hs. simpl. apply leavesPadded_insert; [exact Hp|].
    now apply (toHexBalance_padded nb).
Qed.

Lemma updateTxLeaf_padded (a b t : string) (ty : LeafType) (sec : string)
    (newTx : TransactionEntry) (st st' : State) (o : outcome unit) :
  leavesPadded (txSmt st) ->
  updateTxLeaf a b t ty sec newTx st = (o, st') ->
  leavesPadded (txSmt st').
Proof.
  intros Hp. rewrite updateTxLeaf_unfold.
  destruct (existingTransactions _ _) as [l|];
    [|intros Hrun; now injection Hrun as <- <-].
  cbv zeta.
  match goal with
  | |- context [if JS.truthy (?tr !! ?k) then smt_update _ _ ?v else _] =>
      destruct (upsert_inv tr k v (generateTxKey_hex _ _ _ _))
        as [[Hup _]|(e1 & Hup & _)]
  end; rewrite Hup; [|intros Hrun; now injection Hrun as <- <-].
  intros Hrun. apply dbPut_inv in Hrun as [(_ & -> & _)|(_ & _ & Hs & _)].
  - simpl. apply leavesPadded_insert; [exact Hp|apply normalize_padded].
  - rewrite Hs. simpl. apply leavesPadded_insert; [exact Hp|apply normalize_padded].
Qed.

Lemma updateTxLeaf_txSmt_only (a b t : string) (ty : LeafType) (sec : string)
    (newTx : TransactionEntry) (st st' : State) (o : outcome unit) :
  updateTxLeaf a b t ty sec newTx st = (o, st') -> smt st' = smt st.
Proof. intros Hrun. now apply updateTxLeaf_frame in Hrun as (Hs & _). Qed.

Lemma addTransaction_padded (a b t amt : string) (st st' : State) (o : outcome Z) :
  leavesPadded (txSmt st) ->
  addTransaction a b t amt st = (o, st') ->
  leavesPadded (txSmt st').
Proof.
  intros Hp. unfold addTransaction. rewrite bind_run. unfold now.
  rewrite bind_run. unfold getTxSecret at 1, dbGet.
  rewrite bind_run. unfold getTxSecret, dbGet.
  destruct (negb _); [intros Hrun; now injection Hrun as <- <-|].
  destruct (negb _); [intros Hrun; now injection Hrun as <- <-|].
  rewrite bind_run.
  destruct (updateTxLeaf a b t SenderLeaf _ _ st) as [[u|e] st1] eqn:H1;
    pose proof (updateTxLeaf_padded _ _ _ _ _ _ _ _ _ Hp H1) as Hp1.
  2:{ intros Hrun. now injection Hrun as <- <-. }
  rewrite bind_run.
  destruct (updateTxLeaf a b t ReceiverLeaf _ _ st1) as [[u2|e] st2] eqn:H2;
    pose proof (updateTxLeaf_padded _ _ _ _ _ _ _ _ _ Hp1 H2) as Hp2;
    intros Hrun; now injection Hrun as <- <-.
Qed.

Lemma transfer_padded (body : TransferRequest) (st st' : State)
    (o : outcome TransferResult) :
  leavesPadded (smt st) -> leavesPadded (txSmt st) ->
  transfer body st = (o, st') ->
  leavesPadded (smt st') /\ leavesPadded (txSmt st').
Proof.
  intros Hs Ht Hrun. apply transfer_run in Hrun.
  inversion Hrun as
    [ e0 He
    | bal e0 st1 s0 Hne Hbal Hdebit
    | bal res0 st1 s0 Hne Hbal Hdebit Hto
    | bal e0 st1 s0 Hne Hbal Hdebit Hto Hrbal
    | bal rbal e0 st1 st2 s0 Hne Hbal Hdebit Hto Hrbal Hcredit
    | bal rbal e0 st1 st2 st3 s0 Hne Hbal Hdebit Hto Hrbal Hcredit Hledger
    | bal rbal ts res0 st1 st2 st3 s0 Hne Hbal Hdebit Hto Hrbal Hcredit Hledger ];
    subst.
  - auto.
  - pose proof (updateBalance_frame _ _ _ _ _ _ Hdebit) as (Htx & _).
    split; [now apply (updateBalance_padded _ _ _ _ _ _ Hs Hdebit)|now rewrite Htx].
  - pose proof (updateBalance_frame _ _ _ _ _ _ Hdebit) as (Htx & _).
    split; [now apply (updateBalance_padded _ _ _ _ _ _ Hs Hdebit)|now rewrite Htx].
  - pose proof (updateBalance_frame _ _ _ _ _ _ Hdebit) as (Htx & _).
    split; [now apply (updateBalance_padded _ _ _ _ _ _ Hs Hdebit)|now rewrite Htx].
  - pose proof (updateBalance_frame _ _ _ _ _ _ Hdebit) as (Htx & _).
    pose proof (updateBalance_frame _ _ _ _ _ _ Hcredit) as (Htx2 & _).
    pose proof (updateBalance_padded _ _ _ _ _ _ Hs Hdebit) as Hs1.
    split; [now apply (updateBalance_padded _ _ _ _ _ _ Hs1 Hcredit)|].
    now rewrite Htx2, Htx.
  - pose proof (updateBalance_frame _ _ _ _ _ _ Hdebit) as (Htx & _).
    pose proof (updateBalance_frame _ _ _ _ _ _ Hcredit) as (Htx2 & _).
    pose proof (updateBalance_padded _ _ _ _ _ _ Hs Hdebit) as Hs1.
    pose proof (updateBalance_padded _ _ _ _ _ _ Hs1 Hcredit) as Hs2.
    pose proof (addTransaction_frame _ _ _ _ _ _ _ Hledger) as (Hsm & _).
    split; [now rewrite Hsm|].
    apply (addTransaction_padded _ _ _ _ _ _ _ ltac:(now rewrite Htx2, Htx) Hledger).
  - pose proof (updateBalance_frame _ _ _ _ _ _ Hdebit) as (Htx & _).
    pose proof (updateBalance_frame _ _ _ _ _ _ Hcredit) as (Htx2 & _).
    pose proof (updateBalance_padded _ _ _ _ _ _ Hs Hdebit) as Hs1.
    pose proof (updateBalance_padded _ _ _ _ _ _ Hs1 Hcredit) as Hs2.
    pose proof (addTransaction_frame _ _ _ _ _ _ _ Hledger) as (Hsm & _).
    split; [now rewrite Hsm|].
    apply (addTransaction_padded _ _ _ _ _ _ _ ltac:(now rewrite Htx2, Htx) Hledger).
Qed.

End Padded.

(** X6. Insert-or-update: in a tree whose leaves are padded, [setBalance]
    succeeds for every wallet with a secret, every balance whose encoding
    the tree accepts (at most 64 hexadecimal digits and no sign) and a
    store that takes the write, whether the leaf was there before or not;
    a balance whose encoding the tree refuses makes it throw the Error of
    the tree package and change nothing. *)
Theorem setBalance_inserts_or_updates :
  forall (E : Externals) (st : State) (wallet token balance secret hex : string),
    leavesPadded (smt st) ->
    kv st !! ("secret:balance:" ++ wallet) = Some secret ->
    secret <> "" ->
    toHexBalance balance = Return hex ->
    kvWrites st <> Some O ->
    (checkHex hex = true ->
     setBalance wallet token balance st
     = (Return tt,
        set_kv (<[balanceDbKey wallet token := balance]> (kv st))
               (pred <$> kvWrites st)
               (set_smt (<[generateKey wallet token secret := hex]> (smt st)) st)))
    /\ (checkHex hex = false ->
        setBalance wallet token balance st = (Throw (notHexadecimal hex), st)).
Proof.
  intros E st wallet token balance secret hex Hp Hsec Hne Hhex Hw.
  rewrite setBalance_updateBalance, updateBalance_unfold, Hsec. simpl.
  destruct (String.eqb_spec secret ""); [contradiction|]. simpl.
  rewrite Hhex.
  destruct (upsert_inv (smt st) (generateKey wallet token secret) hex
              (generateKey_hex _ _ _))
    as [[Hup Hv]|(e & Hup & _ & _ & [[Hv ->]|[_ Habs]])].
  - rewrite Hup. split; [|intros Hno; rewrite Hv in Hno; discriminate Hno].
    intros _. unfold dbPut. simpl.
    destruct (kvWrites st) as [[|m]|]; [contradiction|reflexivity|reflexivity].
  - rewrite Hup. split; [|reflexivity].
    intros Hyes. rewrite Hv in Hyes. discriminate Hyes.
  - exfalso. now apply (leavesPadded_nonempty _ _ Hp) in Habs.
Qed.

(** X7. The width of the leaves is an invariant: when every leaf of both
    trees has at least the 64 characters of [normalize], it still has after
    [setBalance], [updateBalance], [addTransaction] and [transfer], however
    the call ends. *)
Theorem leaves_stay_padded :
  forall (E : Externals) (st : State),
    leavesPadded (smt st) -> leavesPadded (txSmt st) ->
    (forall wallet token balance,
        leavesPadded (smt (snd (setBalance wallet token balance st)))
        /\ leavesPadded (txSmt (snd (setBalance wallet token balance st)))
        /\ leavesPadded (smt (snd (updateBalance wallet token balance st)))
        /\ leavesPadded (txSmt (snd (updateBalance wallet token balance st))))
    /\ (forall sender receiver token amount,
          leavesPadded (smt (snd (addTransaction sender receiver token amount st)))
          /\ leavesPadded
               (txSmt (snd (addTransaction sender receiver token amount st))))
    /\ (forall body,
          leavesPadded (smt (snd (transfer body st)))
          /\ leavesPadded (txSmt (snd (transfer body st)))).
Proof.
  intros E st Hs Ht. split; [|split].
  - intros wallet token balance. rewrite setBalance_updateBalance.
    destruct (updateBalance wallet token balance st) as [o st'] eqn:Hrun.
    pose proof (updateBalance_frame _ _ _ _ _ _ Hrun) as (Htx & _).
    pose proof (updateBalance_padded _ _ _ _ _ _ Hs Hrun) as Hp.
    simpl. rewrite Htx. auto.
  - intros sender receiver token amount.
    destruct (addTransaction sender receiver token amount st) as [o st'] eqn:Hrun.
    pose proof (addTransaction_frame _ _ _ _ _ _ _ Hrun) as (Hsm & _).
    pose proof (addTransaction_padded _ _ _ _ _ _ _ Ht Hrun) as Hp.
    simpl. rewrite Hsm. auto.
  - intros body. destruct (transfer body st) as [o st'] eqn:Hrun.
    simpl. now apply (transfer_padded body st st' o).
Qed.

(* ===================================================================== *)
(** ** Proofs and the ledger                                              *)
(* ===================================================================== *)

(** X8. Proofs need the secret and only read: without the secret of the
    wallet [getProof] and [getTxProof] throw and change nothing; with the
    transaction secret [getTxProof] always returns a proof, for the key
    derived under that secret and with the leaf or ["0"] as its value, and
    [verifyTxProof] accepts it. *)
Theorem getTxProof_verifies :
  forall (E : Externals) (st : State) (sender receiver token forWallet : string),
    (JS.truthy (kv st !! ("secret:balance:" ++ forWallet)) = false ->
     getProof forWallet token st
     = (Throw (Error "User has not set balance secret"), st))
    /\ (JS.truthy (kv st !! ("secret:tx:" ++ forWallet)) = false ->
        getTxProof sender receiver token forWallet st
        = (Throw (Error "User has not set transaction secret"), st))
    /\ (forall secret : string,
          kv st !! ("secret:tx:" ++ forWallet) = Some secret ->
          secret <> "" ->
          exists p : Proof,
            getTxProof sender receiver token forWallet st = (Return p, st)
            /\ key p = generateTxKey sender receiver token secret
            /\ value p = JS.orElse (txSmt st !! key p) "0"
            /\ verifyTxProof p st = (Return true, st)).
Proof.
  intros E st sender receiver token forWallet. split; [|split].
  - intros Hs. unfold getProof. rewrite bind_run.
    unfold getBalanceSecret, dbGet. now rewrite Hs.
  - intros Hs. unfold getTxProof. rewrite bind_run.
    unfold getTxSecret, dbGet. now rewrite Hs.
  - intros secret Hsec Hne.
    exists {| root := normalize (smtRootOf (txSmt st));
              siblings := List.map normalize
                            (smtSidenodesOf (txSmt st)
                               (generateTxKey sender receiver token secret));
              key := generateTxKey sender receiver token secret;
              value := JS.orElse
                         (txSmt st !! generateTxKey sender receiver token secret)
                         "0" |}.
    split; [|split; [|split]].
    + unfold getTxProof. rewrite bind_run. unfold getTxSecret, dbGet.
      rewrite Hsec. simpl. destruct (String.eqb_spec secret ""); [contradiction|].
      simpl. rewrite bind_run. unfold getTxSmt. rewrite bind_run.
      rewrite smt_createProof_hex by apply generateTxKey_hex.
      unfold lift. rewrite bind_run.
      rewrite smt_get_hex by apply generateTxKey_hex. reflexivity.
    + reflexivity.
    + reflexivity.
    + rewrite verifyTxProof_unfold. simpl.
      now rewrite generateTxKey_hex, String.eqb_refl.
Qed.

Section Ledger.
Context {E : Externals}.

Lemma updateTxLeaf_tree (a b t : string) (ty : LeafType) (sec : string)
    (newTx : TransactionEntry) (st st' : State) (u : unit) :
  updateTxLeaf a b t ty sec newTx st = (Return u, st') ->
  exists l,
    existingTransactions st (txDbKey a b t ty) = Some l
    /\ txSmt st' = <[generateTxKey a b t sec := hashTransactions (l ++ [newTx])]>
                     (txSmt st).
Proof.
  rewrite updateTxLeaf_unfold.
  destruct (existingTransactions _ _) as [l|]; [|discriminate].
  cbv zeta.
  match goal with
  | |- context [if JS.truthy (?tr !! ?k) then smt_update _ _ ?v else _] =>
      destruct (upsert_inv tr k v (generateTxKey_hex _ _ _ _))
        as [[Hup _]|(e1 & Hup & _)]
  end; rewrite Hup; [|discriminate].
  intros Hrun. apply dbPut_inv in Hrun
    as [(Ho & _)|(_ & _ & Hs & _)]; [discriminate|].
  exists l. split; [reflexivity|]. rewrite Hs. reflexivity.
Qed.

Lemma addTransaction_secrets (a b t amt : string) (st : State) :
  addTransaction a b t amt st =
  if negb (JS.truthy (kv st !! ("secret:tx:" ++ a)))
  then (Throw (Error "Sender has not set transaction secret"), st)
  else if negb (JS.truthy (kv st !! ("secret:tx:" ++ b)))
  then (Throw (Error "Receiver has not set transaction secret"), st)
  else
    let newTx := mkTransactionEntry a b t amt (clock st) in
    (updateTxLeaf a b t SenderLeaf (default "" (kv st !! ("secret:tx:" ++ a))) newTx ;;;
     updateTxLeaf a b t ReceiverLeaf (default "" (kv st !! ("secret:tx:" ++ b))) newTx ;;;
     ret (clock st)) st.
Proof.
  unfold addTransaction. rewrite bind_run. unfold now.
  rewrite bind_run. unfold getTxSecret at 1, dbGet.
  rewrite bind_run. unfold getTxSecret, dbGet.
  destruct (negb _); [reflexivity|]. destruct (negb _); reflexivity.
Qed.

End Ledger.

(** X9. [addTransaction] needs the transaction secrets of both parties:
    when the sender's is missing it throws the sender's error, when only
    the receiver's is missing the receiver's, and in both cases nothing is
    written. *)
Theorem addTransaction_needs_both_secrets :
  forall (E : Externals) (st : State) (sender receiver token amount : string),
    (JS.truthy (kv st !! ("secret:tx:" ++ sender)) = false ->
     addTransaction sender receiver token amount st
     = (Throw (Error "Sender has not set transaction secret"), st))
    /\ (JS.truthy (kv st !! ("secret:tx:" ++ sender)) = true ->
        JS.truthy (kv st !! ("secret:tx:" ++ receiver)) = false ->
        addTransaction sender receiver token amount st
        = (Throw (Error "Receiver has not set transaction secret"), st)).
Proof.
  intros E st sender receiver token amount. rewrite addTransaction_secrets.
  split.
  - now intros ->.
  - now intros -> ->.
Qed.

(** X10. A successful [addTransaction] appends one and the same entry,
    stamped with the clock, to the sender's and to the receiver's bucket,
    and each leaf commits to the whole bucket that is stored: the
    receiver's leaf is the hash of the receiver's bucket, the sender's leaf
    the hash of the sender's bucket (as long as the two keys differ); the
    balance tree is not touched. *)
Theorem addTransaction_commits_to_buckets :
  forall (E : Externals) (st : State) (sender receiver token amount : string)
         (ts : Z),
    fst (addTransaction sender receiver token amount st) = Return ts ->
    let st' := snd (addTransaction sender receiver token amount st) in
    let newTx := mkTransactionEntry sender receiver token amount (clock st) in
    let senderBucket := txDbKey sender receiver token SenderLeaf in
    let receiverBucket := txDbKey sender receiver token ReceiverLeaf in
    ts = clock st
    /\ smt st' = smt st
    /\ exists (ss sr : string) (ls lr : list TransactionEntry),
         kv st !! ("secret:tx:" ++ sender) = Some ss
         /\ kv st !! ("secret:tx:" ++ receiver) = Some sr
         /\ existingTransactions st senderBucket = Some ls
         /\ existingTransactions st receiverBucket = Some lr
         /\ kv st' !! senderBucket = Some (stringifyEntries (ls ++ [newTx]))
         /\ kv st' !! receiverBucket = Some (stringifyEntries (lr ++ [newTx]))
         /\ txSmt st' !! generateTxKey sender receiver token sr
            = Some (hashTransactions (lr ++ [newTx]))
         /\ (generateTxKey sender receiver token ss
             <> generateTxKey sender receiver token sr ->
             txSmt st' !! generateTxKey sender receiver token ss
             = Some (hashTransactions (ls ++ [newTx]))).
Proof.
  intros E st sender receiver token amount ts Hok st' newTx sB rB.
  destruct (addTransaction sender receiver token amount st) as [o st1] eqn:Hrun.
  simpl in Hok, st'. subst o st'.
  pose proof (addTransaction_frame _ _ _ _ _ _ _ Hrun) as (Hsm & _).
  pose proof (addTransaction_Return _ _ _ _ _ _ _ Hrun)
    as (ls & lr & Hls & Hlr & Hks & Hkr).
  rewrite addTransaction_secrets in Hrun.
  destruct (kv st !! ("secret:tx:" ++ sender)) as [ss|] eqn:Hss; [|discriminate].
  destruct (negb (JS.truthy (Some ss))); [discriminate|].
  destruct (kv st !! ("secret:tx:" ++ receiver)) as [sr|] eqn:Hsr; [|discriminate].
  destruct (negb (JS.truthy (Some sr))); [discriminate|].
  cbv zeta in Hrun. rewrite bind_run in Hrun.
  destruct (updateTxLeaf _ _ _ SenderLeaf _ _ st) as [[[]|e] st2] eqn:H1;
    [|discriminate].
  rewrite bind_run in Hrun.
  destruct (updateTxLeaf _ _ _ ReceiverLeaf _ _ st2) as [[[]|e] st3] eqn:H2;
    [|discriminate].
  unfold ret in Hrun. injection Hrun as <- <-.
  pose proof (updateTxLeaf_frame _ _ _ _ _ _ _ _ _ H1) as (_ & _ & Hk1).
  apply updateTxLeaf_tree in H1 as (ls' & Hls' & Ht1).
  apply updateTxLeaf_tree in H2 as (lr' & Hlr' & Ht2).
  assert (ls' = ls) by (cbv zeta in Hls; simpl in *; congruence). subst ls'.
  assert (lr' = lr).
  { cbv zeta in Hlr.
    rewrite (existingTransactions_ext st st2) in Hlr'; [simpl in *; congruence|].
    apply Hk1. intros Heq. symmetry in Heq. now apply txDbKey_type in Heq. }
  subst lr'.
  split; [reflexivity|]. split; [exact Hsm|].
  exists ss, sr, ls, lr. repeat split; try assumption.
  - rewrite Ht2. apply lookup_insert_eq.
  - intros Hne. rewrite Ht2, lookup_insert_ne by (intros Heq; now symmetry in Heq).
    rewrite Ht1. apply lookup_insert_eq.
Qed.

(* ===================================================================== *)
(** ** Amounts the checks of transfer let through                         *)
(* ===================================================================== *)

Section PastChecks.
Context {E : Externals}.

(** A request that has passed the five checks is at the read of the
    sender's balance. *)
Lemma transfer_at_balance_check (body : TransferRequest) (st : State) (bal : string) :
  let s := sendTransaction body in
  transferSchema body = Return body ->
  JS.toLowerCase (from s) <> JS.toLowerCase (to s) ->
  isValid (verifyWalletSignature (from s) (signature body)
             (stringifySendTransaction s)) = true ->
  fst (hasAllSecrets (from s) st) = Return true ->
  fst (hasAllSecrets (to s) st) = Return true \/ SKIP_RECEIVER_SECRET_CHECK = true ->
  fst (getBalance (from s) (token s) st) = Return bal ->
  JS.ltb (JS.parseFloat bal) (JS.parseFloat (amount s)) = false ->
  updateBalance (from s) (token s) (debited s bal) st = (Throw RangeError, st) ->
  transfer body st = (Throw RangeError, st).
Proof.
  intros s Hv Hne Hsig Hfrom Hto Hbal0 Hlt Hupd.
  assert (Hbal : getBalance (from s) (token s) st = (Return bal, st)).
  { pose proof (getBalance_state (from s) (token s) st) as Hst.
    destruct (getBalance (from s) (token s) st) as [o st0].
    simpl in *. congruence. }
  unfold transfer. rewrite bind_run. unfold lift. rewrite Hv. fold s.
  apply String.eqb_neq in Hne. rewrite Hne. rewrite Hsig. simpl.
  rewrite bind_run. rewrite hasAllSecrets_run in *. simpl in Hfrom.
  injection Hfrom as Hfrom. rewrite Hfrom. simpl.
  rewrite bind_run, hasAllSecrets_run.
  assert (Hrecv : negb SKIP_RECEIVER_SECRET_CHECK
                  && negb (JS.truthy (kv st !! ("secret:balance:" ++ to s))
                           && JS.truthy (kv st !! ("secret:tx:" ++ to s))) = false).
  { destruct Hto as [Hr|Hskip].
    - simpl in Hr. injection Hr as Hr. rewrite Hr. now rewrite andb_false_r.
    - now rewrite Hskip. }
  rewrite Hrecv. rewrite bind_run, Hbal, Hlt. rewrite bind_run.
  fold (debited s bal). now rewrite Hupd.
Qed.

Lemma sub_NaN (x : JS.number) : JS.sub x JS.NaN = JS.NaN.
Proof. now destruct x as [[]|[]| |[] m e]. Qed.

Lemma ltb_NaN (x : JS.number) : JS.ltb x JS.NaN = false.
Proof. now destruct x as [[]|[]| |[] m e]. Qed.

(** A number that is not below zero is not below a negative one. *)
Lemma ltb_negative (x : JS.number) (m : positive) (e : Z) :
  JS.ltb x (S754_zero false) = false ->
  JS.ltb x (S754_finite true m e) = false.
Proof. destruct x as [[]|[]| |[] mx ex]; try reflexivity; discriminate. Qed.

End PastChecks.

(** X11. An amount that is not a number (such as [abc], which passes the
    structural validation) is stopped by no check of [transfer]: the
    comparison with the balance is false, the debit is computed as [NaN],
    and the call ends in the RangeError of the BigInt conversion, with the
    state as it was. *)
Theorem transfer_nan_amount_range_error :
  forall (E : Externals) (st : State) (body : TransferRequest) (bal : string),
    let s := sendTransaction body in
    transferSchema body = Return body ->
    JS.toLowerCase (from s) <> JS.toLowerCase (to s) ->
    isValid (verifyWalletSignature (from s) (signature body)
               (stringifySendTransaction s)) = true ->
    fst (hasAllSecrets (from s) st) = Return true ->
    fst (hasAllSecrets (to s) st) = Return true
      \/ SKIP_RECEIVER_SECRET_CHECK = true ->
    fst (getBalance (from s) (token s) st) = Return bal ->
    JS.parseFloat (amount s) = JS.NaN ->
    JS.ltb (JS.parseFloat bal) (JS.parseFloat (amount s)) = false
    /\ debited s bal = "NaN"
    /\ transfer body st = (Throw RangeError, st).
Proof.
  intros E st body bal s Hv Hne Hsig Hfrom Hto Hbal Hnan.
  assert (Hlt : JS.ltb (JS.parseFloat bal) (JS.parseFloat (amount s)) = false)
    by (rewrite Hnan; apply ltb_NaN).
  assert (Hd : debited s bal = "NaN")
    by (unfold debited; fold s; rewrite Hnan, sub_NaN; reflexivity).
  split; [exact Hlt|]. split; [exact Hd|].
  apply (transfer_at_balance_check body st bal); try assumption.
  fold s. rewrite Hd, updateBalance_unfold.
  pose proof Hfrom as Hsec. rewrite hasAllSecrets_run in Hsec. simpl in Hsec.
  injection Hsec as Hsec. apply andb_true_iff in Hsec as [Hsec _].
  rewrite Hsec. reflexivity.
Qed.

(** X12. A negative amount is rejected by no check either: against a
    balance that is not below zero the comparison is false, so a call that
    has passed the earlier checks never ends in a validation or
    [AppError]; when it returns, the sender's stored balance is the
    balance minus the negative amount. *)
Theorem transfer_accepts_negative_amount :
  forall (E : Externals) (st : State) (body : TransferRequest) (bal : string)
         (m : positive) (e : Z),
    let s := sendTransaction body in
    transferSchema body = Return body ->
    JS.toLowerCase (from s) <> JS.toLowerCase (to s) ->
    isValid (verifyWalletSignature (from s) (signature body)
               (stringifySendTransaction s)) = true ->
    fst (hasAllSecrets (from s) st) = Return true ->
    fst (hasAllSecrets (to s) st) = Return true
      \/ SKIP_RECEIVER_SECRET_CHECK = true ->
    fst (getBalance (from s) (token s) st) = Return bal ->
    JS.parseFloat (amount s) = S754_finite true m e ->
    JS.ltb (JS.parseFloat bal) (S754_zero false) = false ->
    (forall err st', transfer body st = (Throw err, st') ->
       isCheckError err = false)
    /\ (forall res st', transfer body st = (Return res, st') ->
          kv st' !! balanceDbKey (from s) (token s)
          = Some (JS.toString (JS.sub (JS.parseFloat bal)
                                      (S754_finite true m e)))).
Proof.
  intros E st body bal m e s Hv Hne Hsig Hfrom Hto Hbal0 Hneg Hz.
  assert (Hlt : JS.ltb (JS.parseFloat bal) (JS.parseFloat (amount s)) = false)
    by (rewrite Hneg; now apply ltb_negative).
  assert (Hbal : getBalance (from s) (token s) st = (Return bal, st)).
  { pose proof (getBalance_state (from s) (token s) st) as Hst.
    destruct (getBalance (from s) (token s) st) as [o st0].
    simpl in *. congruence. }
  assert (Hkeys : balanceDbKey (from s) (token s) <> balanceDbKey (to s) (token s)).
  { intros Heq. now apply balanceDbKey_inj in Heq. }
  split.
  - intros err st' Hrun. unfold transfer in Hrun. rewrite bind_run in Hrun.
    unfold lift in Hrun. rewrite Hv in Hrun. fold s in Hrun.
    apply String.eqb_neq in Hne. rewrite Hne, Hsig in Hrun. simpl in Hrun.
    rewrite bind_run in Hrun. rewrite hasAllSecrets_run in *. simpl in Hfrom.
    injection Hfrom as Hfrom. rewrite Hfrom in Hrun. simpl in Hrun.
    rewrite bind_run, hasAllSecrets_run in Hrun.
    assert (Hrecv : negb SKIP_RECEIVER_SECRET_CHECK
                    && negb (JS.truthy (kv st !! ("secret:balance:" ++ to s))
                             && JS.truthy (kv st !! ("secret:tx:" ++ to s))) = false).
    { destruct Hto as [Hr|Hskip].
      - simpl in Hr. injection Hr as Hr. rewrite Hr. now rewrite andb_false_r.
      - now rewrite Hskip. }
    rewrite Hrecv in Hrun. clear Hto Hrecv.
    rewrite bind_run, Hbal, Hlt in Hrun.
    rewrite bind_run in Hrun.
    destruct (updateBalance _ _ _ st) as [[[]|e2] st1] eqn:Hdebit.
    2:{ injection Hrun as <- <-. now apply updateBalance_Throw in Hdebit. }
    rewrite bind_run in Hrun.
    destruct (JS.truthy (kv st !! ("secret:balance:" ++ to s)) && JS.truthy _).
    + rewrite bind_run in Hrun.
      pose proof (getBalance_state (to s) (token s) st1) as Hst1.
      destruct (getBalance _ _ st1) as [[rbal|e3] st1'] eqn:Hrbal;
        simpl in Hst1; subst st1'.
      2:{ injection Hrun as <- <-. now apply getBalance_throw in Hrbal as ->. }
      destruct (updateBalance _ _ _ st1) as [[[]|e4] st2] eqn:Hcredit.
      2:{ injection Hrun as <- <-. now apply updateBalance_Throw in Hcredit. }
      rewrite bind_run in Hrun. rewrite bind_run in Hrun.
      destruct (addTransaction _ _ _ _ st2) as [[ts|e5] st3] eqn:Hledger.
      2:{ injection Hrun as <- <-. now apply addTransaction_Throw in Hledger. }
      unfold ret in Hrun. rewrite bind_run in Hrun. unfold getRoot in Hrun.
      rewrite bind_run in Hrun. discriminate.
    + unfold ret in Hrun. rewrite bind_run in Hrun.
      rewrite bind_run in Hrun. unfold getRoot in Hrun.
      rewrite bind_run in Hrun. discriminate.
  - intros res st' Hrun. rewrite <- Hneg. fold (debited s bal).
    apply transfer_run in Hrun.
    inversion Hrun as
      [ | | bal1 res0 st1 s0 Hne1 Hbal1 Hdebit Hto1
        | | |
        | bal1 rbal ts res0 st1 st2 st3 s0 Hne1 Hbal1 Hdebit Hto1 Hrbal Hcredit
            Hledger ];
      subst; subst s0; fold s in Hbal1, Hdebit.
    + assert (bal1 = bal) by congruence. subst bal1.
      apply updateBalance_Return in Hdebit as (Hkv & _). rewrite Hkv.
      apply lookup_insert_eq.
    + fold s in Hcredit, Hledger.
      assert (bal1 = bal) by congruence. subst bal1.
      pose proof (addTransaction_frame _ _ _ _ _ _ _ Hledger) as (_ & Hk3).
      pose proof (updateBalance_frame _ _ _ _ _ _ Hcredit) as (_ & _ & Hk2).
      apply updateBalance_Return in Hdebit as (Hkv & _).
      rewrite Hk3 by (intros ty; apply balanceDbKey_txDbKey).
      rewrite Hk2 by exact Hkeys. rewrite Hkv. apply lookup_insert_eq.
Qed.

(* ===================================================================== *)
(** ** Scans of the store                                                 *)
(* ===================================================================== *)

Lemma insertByKey_elem (x e : string * string) (l : list (string * string)) :
  x ∈ insertByKey e l <-> x = e \/ x ∈ l.
Proof.
  induction l as [|y r IH]; simpl.
  - rewrite list_elem_of_singleton, elem_of_nil. tauto.
  - destruct (String.leb _ _).
    + now rewrite elem_of_cons.
    + rewrite !elem_of_cons, IH. tauto.
Qed.

Lemma sortByKey_elem (x : string * string) (l : list (string * string)) :
  x ∈ foldr insertByKey [] l <-> x ∈ l.
Proof.
  induction l as [|y r IH]; simpl; [reflexivity|].
  now rewrite insertByKey_elem, elem_of_cons, IH.
Qed.

(** [dbGetAll] returns exactly the records under the prefix and leaves the
    state alone. *)
Lemma dbGetAll_run (prefix : string) (st : State) :
  exists l, dbGetAll prefix st = (Return l, st)
    /\ forall e, e ∈ l <->
         kv st !! fst e = Some (snd e) /\ String.prefix prefix (fst e) = true.
Proof.
  eexists. split; [reflexivity|]. intros [k v].
  rewrite sortByKey_elem, list_elem_of_In, filter_In, <- list_elem_of_In.
  now rewrite elem_of_map_to_list.
Qed.

Lemma prefix_app (p s : string) : String.prefix p (p ++ s) = true.
Proof.
  induction p as [|a p IH]; simpl; [now destruct s|].
  destruct (Ascii.ascii_dec a a); [exact IH|contradiction].
Qed.

Lemma split_nonempty (sep : ascii) (s : string) : split sep s <> [].
Proof.
  induction s as [|c r IH]; simpl; [discriminate|].
  destruct (Ascii.eqb c sep); [discriminate|].
  destruct (split sep r); [contradiction|discriminate].
Qed.

(** A text without the separator is one part, and the first of the parts
    of what it is prepended to. *)
Lemma split_app (sep : ascii) (a r : string) :
  split sep a = [a] ->
  split sep (a ++ String sep r) = a :: split sep r.
Proof.
  induction a as [|c a IH]; simpl.
  - intros _. now rewrite Ascii.eqb_refl.
  - destruct (Ascii.eqb c sep); [discriminate|].
    destruct (split sep a) as [|x xs] eqn:Ha.
    + now apply split_nonempty in Ha.
    + intros Heq. injection Heq as -> ->. now rewrite IH.
Qed.

Lemma toLowerChar_idem (c : ascii) :
  JS.toLowerChar (JS.toLowerChar c) = JS.toLowerChar c.
Proof. destruct c as [[] [] [] [] [] [] [] []]; reflexivity. Qed.

Lemma toLowerCase_idem (s : string) :
  JS.toLowerCase (JS.toLowerCase s) = JS.toLowerCase s.
Proof.
  induction s as [|c s IH]; simpl; [reflexivity|].
  now rewrite toLowerChar_idem, IH.
Qed.


(* ===================================================================== *)
(** ** Rebuilding the balance tree                                        *)
(* ===================================================================== *)

Section Rebuild.
Context {E : Externals}.

(** One turn of the loop of [loadFromDatabase]: it touches nothing but the
    balance tree, which gets the leaf of the record, if it has one. *)
Lemma loadBalanceEntry_run (st0 s s' : State) (entry : string * string)
    (o : outcome unit) :
  kv s = kv st0 ->
  loadBalanceEntry entry s = (o, s') ->
  match o with
  | Return _ =>
      (forall e, ~ recordFails st0 entry e)
      /\ match recordLeaf st0 entry with
         | Some (k, v) => s' = set_smt (<[k := v]> (smt s)) s
         | None => s' = s
         end
  | Throw e =>
      s' = s
      /\ (recordFails st0 entry e
          \/ exists k v, recordLeaf st0 entry = Some (k, v) /\ smt s !! k = Some "")
  end.
Proof.
  intros Hkv. unfold loadBalanceEntry, recordLeaf, recordFails. cbv zeta.
  rewrite bind_run. unfold getBalanceSecret, dbGet. rewrite Hkv.
  destruct (split ":" (fst entry) !! 1%nat) as [w|] eqn:Hw; simpl.
  - destruct (kv st0 !! ("secret:balance:" ++ w)) as [sec|] eqn:Hsec; simpl.
    2:{ destruct (split ":" (fst entry) !! 2%nat);
          intros Hrun; injection Hrun as <- <-;
          (split; [intros e [Habs _]; discriminate|reflexivity]). }
    destruct (String.eqb sec "") eqn:Hne; simpl.
    { destruct (split ":" (fst entry) !! 2%nat);
        intros Hrun; injection Hrun as <- <-;
        (split; [intros e [Habs _]; discriminate|reflexivity]). }
    destruct (split ":" (fst entry) !! 2%nat) as [t|] eqn:Ht.
    2:{ intros Hrun. injection Hrun as <- <-. split; [reflexivity|].
        left. split; [reflexivity|]. left. now split. }
    rewrite bind_run. unfold lift at 1.
    destruct (toHexBalance (snd entry)) as [v|e] eqn:Hhex.
    2:{ intros Hrun. injection Hrun as <- <-. split; [reflexivity|].
        left. split; [reflexivity|]. right. left.
        apply toHexBalance_throw in Hhex as ->. now split. }
    rewrite bind_run. unfold getSmt. rewrite bind_run.
    rewrite smt_get_hex by apply generateKey_hex.
    assert (Hstep : (if JS.truthy (smt s !! generateKey w t sec)
                     then smtUpdate (generateKey w t sec) v
                     else smtAdd (generateKey w t sec) v) s
                    = match (if JS.truthy (smt s !! generateKey w t sec)
                             then smt_update (smt s) (generateKey w t sec) v
                             else smt_add (smt s) (generateKey w t sec) v) with
                      | Return tr => (Return tt, set_smt tr s)
                      | Throw e => (Throw e, s)
                      end)
      by (destruct (JS.truthy _); reflexivity).
    unfold lift. cbv beta iota. rewrite Hstep. clear Hstep.
    destruct (upsert_inv (smt s) (generateKey w t sec) v (generateKey_hex _ _ _))
      as [[Hup Hv]|(e & Hup & _ & _ & [[Hv ->]|[Hv Hempty]])]; rewrite Hup, Hv;
      intros Hrun; injection Hrun as <- <-.
    + split; [|reflexivity].
      intros e [_ [[_ Habs]|[[_ Habs]|(h & _ & Hh & Hno)]]];
        [discriminate Habs|discriminate Habs|].
      injection Hh as <-. rewrite Hv in Hno. discriminate Hno.
    + split; [reflexivity|]. left. split; [reflexivity|]. right. right.
      now exists v.
    + split; [reflexivity|]. right. eauto.
  - destruct (kv st0 !! ("secret:balance:" ++ "undefined")) as [sec|] eqn:Hsec;
      simpl.
    2:{ intros Hrun. injection Hrun as <- <-.
        split; [intros e [Habs _]; discriminate|reflexivity]. }
    destruct (String.eqb sec "") eqn:Hne; simpl.
    { intros Hrun. injection Hrun as <- <-.
      split; [intros e [Habs _]; discriminate|reflexivity]. }
    assert (H2 : split ":" (fst entry) !! 2%nat = None).
    { apply lookup_ge_None. apply lookup_ge_None in Hw. lia. }
    intros Hrun. injection Hrun as <- <-. split; [reflexivity|].
    left. split; [reflexivity|]. left. now split.
Qed.

Lemma recordLeaf_padded (st : State) (entry : string * string) (k v : string) :
  recordLeaf st entry = Some (k, v) -> (64 <= String.length v)%nat.
Proof.
  unfold recordLeaf.
  destruct (_ !! 1%nat); [|discriminate]. destruct (_ !! 2%nat); [|discriminate].
  destruct (kv st !! _); [|discriminate]. destruct (JS.truthy _); [|discriminate].
  destruct (toHexBalance _) as [h|] eqn:Hh; [|discriminate].
  destruct (checkHex h); [|discriminate].
  intros Heq. injection Heq as <- <-. now apply (toHexBalance_padded (snd entry)).
Qed.

(** The loop of [loadFromDatabase] over the records [l]. *)
Lemma loadLoop (st0 : State) (l : list (string * string)) :
  forall (s s' : State) (o : outcome unit),
    kv s = kv st0 ->
    leavesPadded (smt s) ->
    forEach loadBalanceEntry l s = (o, s') ->
    kv s' = kv s /\ kvWrites s' = kvWrites s /\ txSmt s' = txSmt s
    /\ clock s' = clock s
    /\ leavesPadded (smt s')
    /\ (forall k v, smt s' !! k = Some v ->
          smt s !! k = Some v
          \/ exists e, e ∈ l /\ recordLeaf st0 e = Some (k, v))
    /\ (o = Return tt ->
        forall k v,
          (smt s !! k = Some v \/ exists e, e ∈ l /\ recordLeaf st0 e = Some (k, v)) ->
          (forall e v', e ∈ l -> recordLeaf st0 e = Some (k, v') -> v' = v) ->
          smt s' !! k = Some v)
    /\ (o = Return tt -> forall e err, e ∈ l -> ~ recordFails st0 e err)
    /\ (forall err, o = Throw err -> exists e, e ∈ l /\ recordFails st0 e err).
Proof.
  induction l as [|e0 r IH]; intros s s' o Hkv Hp Hrun.
  - simpl in Hrun. injection Hrun as <- <-.
    do 4 (split; [reflexivity|]). split; [exact Hp|].
    split; [now left|]. split; [|split].
    + intros _ k v [Hk|(e & He & _)] _; [exact Hk|]. now apply elem_of_nil in He.
    + intros _ e err He. now apply elem_of_nil in He.
    + discriminate.
  - simpl in Hrun. rewrite bind_run in Hrun.
    destruct (loadBalanceEntry e0 s) as [[[]|err0] s1] eqn:Hstep;
      apply (loadBalanceEntry_run st0) in Hstep; try exact Hkv.
    + destruct Hstep as (Hnf & Hstep).
      assert (Hs1 : kv s1 = kv s /\ kvWrites s1 = kvWrites s /\ txSmt s1 = txSmt s
                    /\ clock s1 = clock s /\ leavesPadded (smt s1)).
      { destruct (recordLeaf st0 e0) as [[k0 v0]|] eqn:Hleaf; subst s1; simpl;
          (do 4 (split; [reflexivity|])); [|exact Hp].
        apply leavesPadded_insert; [exact Hp|].
        now apply (recordLeaf_padded st0 e0 k0). }
      destruct Hs1 as (Hk1 & Hw1 & Ht1 & Hc1 & Hp1).
      apply IH in Hrun as (Hk2 & Hw2 & Ht2 & Hc2 & Hp2 & Hfrom & Hto & Hall & Herr);
        [|congruence|exact Hp1].
      do 4 (split; [congruence|]). split; [exact Hp2|].
      split; [|split; [|split]].
      * intros k v Hkv'. apply Hfrom in Hkv' as [Hin1|(e & He & Hl)].
        -- destruct (recordLeaf st0 e0) as [[k0 v0]|] eqn:Hleaf; subst s1.
           ++ simpl in Hin1. destruct (decide (k0 = k)) as [->|Hne].
              ** rewrite lookup_insert_eq in Hin1. injection Hin1 as ->.
                 right. exists e0. split; [apply list_elem_of_here|exact Hleaf].
              ** rewrite lookup_insert_ne in Hin1 by exact Hne. now left.
           ++ now left.
        -- right. exists e. split; [now apply list_elem_of_further|exact Hl].
      * intros Ho k v Hsrc Hagree. apply (Hto Ho).
        -- destruct (recordLeaf st0 e0) as [[k0 v0]|] eqn:Hleaf; subst s1; simpl.
           ++ destruct (decide (k0 = k)) as [->|Hne].
              ** left. rewrite lookup_insert_eq. f_equal.
                 apply (Hagree e0); [apply list_elem_of_here|exact Hleaf].
              ** rewrite lookup_insert_ne by exact Hne.
                 destruct Hsrc as [Hk|(e & He & Hl)]; [now left|].
                 apply elem_of_cons in He as [->|He].
                 --- rewrite Hleaf in Hl. injection Hl as -> ->. contradiction.
                 --- right. eauto.
           ++ destruct Hsrc as [Hk|(e & He & Hl)]; [now left|].
              apply elem_of_cons in He as [->|He]; [congruence|].
              right. eauto.
        -- intros e v' He. apply Hagree. now apply list_elem_of_further.
      * intros Ho e err He. apply elem_of_cons in He as [->|He];
          [apply Hnf|now apply Hall].
      * intros err Ho. destruct (Herr err Ho) as (e & He & Hf).
        exists e. split; [now apply list_elem_of_further|exact Hf].
    + destruct Hstep as (-> & Hwhy). injection Hrun as <- <-.
      do 4 (split; [reflexivity|]). split; [exact Hp|].
      split; [now left|]. split; [discriminate|]. split; [discriminate|].
      intros err Ho. injection Ho as <-.
      destruct Hwhy as [Hf|(k & v & _ & Hempty)].
      * exists e0. split; [apply list_elem_of_here|exact Hf].
      * now apply leavesPadded_nonempty in Hempty.
Qed.

Lemma leavesPadded_empty : leavesPadded ∅.
Proof. intros k v Hk. now rewrite lookup_empty in Hk. Qed.

(** [initializeBalanceService] is the loop over the records under
    [balance:], from the empty tree. *)
Lemma initializeBalanceService_loop (st : State) :
  exists l,
    (forall e, e ∈ l <->
       kv st !! fst e = Some (snd e) /\ String.prefix "balance:" (fst e) = true)
    /\ initializeBalanceService st
       = forEach loadBalanceEntry l (set_smt ∅ st).
Proof.
  destruct (dbGetAll_run "balance:" (set_smt ∅ st)) as (l & Hrun & Hl).
  exists l. split; [exact Hl|].
  unfold initializeBalanceService. rewrite bind_run.
  unfold loadFromDatabase. rewrite bind_run, Hrun.
  destruct l; reflexivity.
Qed.

End Rebuild.

(** X13. A successful [initializeBalanceService] leaves the store, its
    write budget, the transaction tree and the clock as they were, and the
    tree it builds holds nothing of the tree it replaces: every leaf is the
    encoding of a record under [balance:] whose wallet has a secret, and
    has the padded width. *)
Theorem initializeBalanceService_rebuilds_from_store :
  forall (E : Externals) (st : State),
    fst (initializeBalanceService st) = Return tt ->
    let st' := snd (initializeBalanceService st) in
    kv st' = kv st /\ kvWrites st' = kvWrites st /\ txSmt st' = txSmt st
    /\ clock st' = clock st
    /\ leavesPadded (smt st')
    /\ forall k v : string,
         smt st' !! k = Some v ->
         exists dbKey balance : string,
           kv st !! dbKey = Some balance
           /\ String.prefix "balance:" dbKey = true
           /\ recordLeaf st (dbKey, balance) = Some (k, v).
Proof.
  intros E st Hok st'.
  destruct (initializeBalanceService_loop st) as (l & Hl & Hinit).
  destruct (initializeBalanceService st) as [o s1] eqn:Hrun.
  simpl in Hok, st'. subst o st'. symmetry in Hinit.
  apply (loadLoop st) in Hinit
    as (Hk & Hw & Ht & Hc & Hp & Hfrom & _); [|reflexivity|apply leavesPadded_empty].
  do 5 (split; [assumption|]).
  intros k v Hkv. apply Hfrom in Hkv as [Habs|([dbKey balance] & He & Hleaf)].
  - simpl in Habs. now rewrite lookup_empty in Habs.
  - apply Hl in He as (Hrec & Hpre). now exists dbKey, balance.
Qed.

(** X14. Balances survive a restart. For a wallet written in lower case
    and a wallet and token without a colon: when the store holds the
    record of the balance and the wallet's secret, and no other record
    lands on the same tree key, a successful [initializeBalanceService]
    puts the encoding of the stored text at that key, and [getBalance]
    reads it back decoded. *)
Theorem restart_restores_balance :
  forall (E : Externals) (st : State) (wallet token balance secret : string),
    JS.toLowerCase wallet = wallet ->
    split ":" wallet = [wallet] ->
    split ":" (JS.toLowerCase token) = [JS.toLowerCase token] ->
    kv st !! balanceDbKey wallet token = Some balance ->
    kv st !! ("secret:balance:" ++ wallet) = Some secret ->
    secret <> "" ->
    (forall dbKey text v : string,
        kv st !! dbKey = Some text ->
        String.prefix "balance:" dbKey = true ->
        recordLeaf st (dbKey, text) = Some (generateKey wallet token secret, v) ->
        dbKey = balanceDbKey wallet token) ->
    fst (initializeBalanceService st) = Return tt ->
    let st' := snd (initializeBalanceService st) in
    exists hex : string,
      toHexBalance balance = Return hex
      /\ smt st' !! generateKey wallet token secret = Some hex
      /\ fst (getBalance wallet token st') = fromHexBalance hex.
Proof.
  intros E st wallet token balance secret Hlow Hw Ht Hrec Hsec Hne Hother Hok st'.
  destruct (initializeBalanceService_loop st) as (l & Hl & Hinit).
  destruct (initializeBalanceService st) as [o s1] eqn:Hrun.
  simpl in Hok, st'. subst o st'. symmetry in Hinit.
  assert (Hparts : split ":" (balanceDbKey wallet token)
                   = ["balance"; wallet; JS.toLowerCase token]).
  { unfold balanceDbKey. rewrite Hlow.
    change ("balance:" ++ wallet ++ ":" ++ JS.toLowerCase token)
      with ("balance" ++ String ":" (wallet ++ String ":" (JS.toLowerCase token))).
    rewrite (split_app ":" "balance") by reflexivity.
    rewrite (split_app ":" wallet) by exact Hw. now rewrite Ht. }
  assert (Hkey : generateKey wallet (JS.toLowerCase token) secret
                 = generateKey wallet token secret).
  { unfold generateKey, generateKeyInput. now rewrite toLowerCase_idem. }
  pose proof (loadLoop st l (set_smt ∅ st) _ _ eq_refl leavesPadded_empty Hinit)
    as (Hk & _ & _ & _ & Hp & _ & Hto & Hall & _).
  assert (Hin : (balanceDbKey wallet token, balance) ∈ l).
  { apply Hl. split; [exact Hrec|apply prefix_app]. }
  destruct (toHexBalance balance) as [hex|e] eqn:Hhex.
  2:{ exfalso. apply (Hall eq_refl _ RangeError Hin).
      unfold recordFails. simpl fst. simpl snd. rewrite Hparts. simpl.
      rewrite Hsec. simpl. destruct (String.eqb_spec secret ""); [contradiction|].
      split; [reflexivity|]. right. left. split; [reflexivity|].
      pose proof (toHexBalance_throw _ _ Hhex) as ->. exact Hhex. }
  destruct (checkHex hex) eqn:Hchk.
  2:{ exfalso. apply (Hall eq_refl _ (notHexadecimal hex) Hin).
      unfold recordFails. simpl fst. simpl snd. rewrite Hparts. simpl.
      rewrite Hsec. simpl. destruct (String.eqb_spec secret ""); [contradiction|].
      split; [reflexivity|]. right. right. now exists hex. }
  assert (Hleaf : recordLeaf st (balanceDbKey wallet token, balance)
                  = Some (generateKey wallet token secret, hex)).
  { unfold recordLeaf. simpl fst. simpl snd. rewrite Hparts. simpl.
    rewrite Hsec. simpl. destruct (String.eqb_spec secret ""); [contradiction|].
    simpl. now rewrite Hhex, Hchk, Hkey. }
  assert (Hat : smt s1 !! generateKey wallet token secret = Some hex).
  { apply (Hto eq_refl).
    - right. eauto.
    - intros [dbKey text] v' He Hl'. apply Hl in He as (Hr' & Hpre).
      simpl in Hr', Hpre.
      pose proof (Hother dbKey text v' Hr' Hpre Hl') as ->.
      rewrite Hrec in Hr'. injection Hr' as <-. congruence. }
  exists hex. split; [reflexivity|]. split; [exact Hat|].
  assert (Hsec1 : kv s1 !! ("secret:balance:" ++ wallet) = Some secret)
    by (rewrite Hk; exact Hsec).
  rewrite (getBalance_run s1 wallet token secret Hsec1 Hne), Hat. simpl.
  destruct (String.eqb_spec hex "") as [->|_]; [|reflexivity].
  apply leavesPadded_nonempty in Hat; [contradiction|exact Hp].
Qed.

(** X15. The rebuild stops only at a record it cannot load: when
    [initializeBalanceService] throws, the store is as it was, and some
    record under [balance:] whose wallet has a secret has a key without a
    token part (the TypeError of a missing token), or holds a text that
    cannot be encoded (a RangeError), or a text whose encoding the tree
    refuses, for a minus sign or for more than 64 digits (the Error of the
    tree package, which names the encoding). No other error comes out of
    the rebuild; in particular a leaf is never refused for being in the
    tree already. *)
Theorem initializeBalanceService_failure :
  forall (E : Externals) (st : State) (err : exn),
    fst (initializeBalanceService st) = Throw err ->
    let st' := snd (initializeBalanceService st) in
    kv st' = kv st /\ kvWrites st' = kvWrites st /\ txSmt st' = txSmt st
    /\ (exists dbKey balance : string,
          kv st !! dbKey = Some balance
          /\ String.prefix "balance:" dbKey = true
          /\ recordFails st (dbKey, balance) err)
    /\ (err = TypeError \/ err = RangeError
        \/ exists hexBalance : string,
             err = notHexadecimal hexBalance /\ checkHex hexBalance = false).
Proof.
  intros E st err Hok st'.
  destruct (initializeBalanceService_loop st) as (l & Hl & Hinit).
  destruct (initializeBalanceService st) as [o s1] eqn:Hrun.
  simpl in Hok, st'. subst o st'. symmetry in Hinit.
  apply (loadLoop st) in Hinit
    as (Hk & Hw & Ht & _ & _ & _ & _ & _ & Herr);
    [|reflexivity|apply leavesPadded_empty].
  do 3 (split; [assumption|]).
  destruct (Herr err eq_refl) as ([dbKey balance] & He & Hf).
  apply Hl in He as (Hrec & Hpre). split; [now exists dbKey, balance|].
  destruct Hf as (_ & [[-> _]|[[-> _]|(h & -> & _ & Hno)]]);
    [now left|now right; left|right; right; now exists h].
Qed.


(* ===================================================================== *)
(** ** The transaction history                                            *)
(* ===================================================================== *)

Section History.
Context {E : Externals}.

(** The entries gathered for a wallet are those of its buckets; gathering
    fails exactly when one of its buckets does not parse. *)
Lemma collectHistory_Return (wl : string) (entries : list (string * string))
    (h : list TransactionEntry) :
  collectHistory wl entries = Return h ->
  forall tx, tx ∈ h <->
    exists e l, e ∈ entries /\ involves wl (fst e) = true
                /\ parseEntries (snd e) = Some l /\ tx ∈ l.
Proof.
  revert h. induction entries as [|e0 r IH]; simpl; intros h Hh tx.
  - injection Hh as <-. split; [intros Hin; now apply elem_of_nil in Hin|].
    intros (e & l & He & _). now apply elem_of_nil in He.
  - destruct (involves wl (fst e0)) eqn:Hinv.
    + destruct (parseJson (snd e0)) as [[l0|other]|] eqn:Hpj; try discriminate.
      assert (Hparse : parseEntries (snd e0) = Some l0)
        by (unfold parseEntries; now rewrite Hpj).
      destruct (collectHistory wl r) as [h'|] eqn:Hr; [|discriminate].
      injection Hh as <-. rewrite elem_of_app, (IH h' eq_refl tx). split.
      * intros [Hin|(e & l & He & Hi & Hp & Hin)].
        -- exists e0, l0. repeat split; auto. apply list_elem_of_here.
        -- exists e, l. repeat split; auto. now apply list_elem_of_further.
      * intros (e & l & He & Hi & Hp & Hin).
        apply elem_of_cons in He as [->|He].
        -- left. congruence.
        -- right. eauto 10.
    + rewrite (IH h Hh tx). split.
      * intros (e & l & He & Hi & Hp & Hin). exists e, l.
        repeat split; auto. now apply list_elem_of_further.
      * intros (e & l & He & Hi & Hp & Hin).
        apply elem_of_cons in He as [->|He]; [congruence|eauto 10].
Qed.

Lemma collectHistory_Throw (wl : string) (entries : list (string * string)) :
  (exists err, collectHistory wl entries = Throw err)
  <-> exists e, e ∈ entries /\ involves wl (fst e) = true
                /\ parseEntries (snd e) = None.
Proof.
  induction entries as [|e0 r IH]; simpl.
  - split; [intros [err Habs]; discriminate|].
    intros (e & He & _). now apply elem_of_nil in He.
  - destruct (involves wl (fst e0)) eqn:Hinv.
    + destruct (parseJson (snd e0)) as [[l0|other]|] eqn:Hpj.
      * assert (Hparse : parseEntries (snd e0) = Some l0)
          by (unfold parseEntries; now rewrite Hpj).
        split.
        -- intros [err Hthrow].
           destruct (collectHistory wl r) as [h'|e'] eqn:Hr; [discriminate|].
           destruct (proj1 IH (ex_intro _ e' eq_refl)) as (e & He & Hi & Hp).
           exists e. repeat split; auto. now apply list_elem_of_further.
        -- intros (e & He & Hi & Hp). apply elem_of_cons in He as [->|He];
             [congruence|].
           destruct (proj2 IH (ex_intro _ e (conj He (conj Hi Hp)))) as [err ->].
           now exists err.
      * assert (Hparse : parseEntries (snd e0) = None)
          by (unfold parseEntries; now rewrite Hpj).
        split; [|intros _; now exists TypeError].
        intros _. exists e0. repeat split; auto. apply list_elem_of_here.
      * assert (Hparse : parseEntries (snd e0) = None)
          by (unfold parseEntries; now rewrite Hpj).
        split; [|intros _; now exists SyntaxError].
        intros _. exists e0. repeat split; auto. apply list_elem_of_here.
    + rewrite IH. split.
      * intros (e & He & Hi & Hp). exists e. repeat split; auto.
        now apply list_elem_of_further.
      * intros (e & He & Hi & Hp). apply elem_of_cons in He as [->|He];
          [congruence|eauto].
Qed.

(** What gathering throws is the error of one bucket of the wallet: the
    SyntaxError of a text that does not parse, or the TypeError of a
    parsed value that cannot be spread. *)
Lemma collectHistory_error (wl : string) (entries : list (string * string))
    (err : exn) :
  collectHistory wl entries = Throw err ->
  exists e, e ∈ entries /\ involves wl (fst e) = true
            /\ ((err = SyntaxError /\ parseJson (snd e) = None)
                \/ (err = TypeError
                    /\ exists other, parseJson (snd e) = Some (ParsedOther other))).
Proof.
  induction entries as [|e0 r IH]; simpl; [discriminate|].
  destruct (involves wl (fst e0)) eqn:Hinv.
  - destruct (parseJson (snd e0)) as [[l0|other]|] eqn:Hpj.
    + destruct (collectHistory wl r); [discriminate|].
      intros Heq. injection Heq as <-.
      destruct (IH eq_refl) as (e1 & He & Hrest).
      exists e1. split; [now apply list_elem_of_further|exact Hrest].
    + intros Heq. injection Heq as <-. exists e0.
      split; [apply list_elem_of_here|]. split; [exact Hinv|].
      right. split; [reflexivity|now exists other].
    + intros Heq. injection Heq as <-. exists e0.
      split; [apply list_elem_of_here|]. split; [exact Hinv|].
      left. now split.
  - intros Heq. destruct (IH Heq) as (e1 & He & Hrest).
    exists e1. split; [now apply list_elem_of_further|exact Hrest].
Qed.

End History.

Lemma newestFirst_cons (tx : TransactionEntry) (l : list TransactionEntry) :
  newestFirst (tx :: l)
  <-> (forall y, y ∈ l -> (timestamp y <= timestamp tx)%Z) /\ newestFirst l.
Proof.
  split.
  - intros H. split.
    + intros y Hy. apply list_elem_of_lookup in Hy as [j Hj].
      apply (H O (S j) tx y); [lia|reflexivity|exact Hj].
    + intros i j a b Hij Ha Hb. apply (H (S i) (S j) a b); [lia|exact Ha|exact Hb].
  - intros [Hhd Htl] i j a b Hij Ha Hb. destruct j as [|j]; [lia|].
    simpl in Hb. destruct i as [|i].
    + simpl in Ha. injection Ha as <-. apply Hhd.
      apply list_elem_of_lookup. now exists j.
    + simpl in Ha. apply (Htl i j a b); [lia|exact Ha|exact Hb].
Qed.

Lemma insertNewestFirst_elem (x tx : TransactionEntry) (l : list TransactionEntry) :
  x ∈ insertNewestFirst tx l <-> x = tx \/ x ∈ l.
Proof.
  induction l as [|y r IH]; simpl.
  - rewrite list_elem_of_singleton, elem_of_nil. tauto.
  - destruct (timestamp tx <? timestamp y)%Z.
    + rewrite !elem_of_cons, IH. tauto.
    + now rewrite elem_of_cons.
Qed.

Lemma insertNewestFirst_sorted (tx : TransactionEntry) (l : list TransactionEntry) :
  newestFirst l -> newestFirst (insertNewestFirst tx l).
Proof.
  induction l as [|y r IH]; simpl; intros Hl.
  - apply newestFirst_cons. split; [|exact Hl].
    intros z Hz. now apply elem_of_nil in Hz.
  - apply newestFirst_cons in Hl as [Hhd Htl].
    destruct (timestamp tx <? timestamp y)%Z eqn:Hlt.
    + apply Z.ltb_lt in Hlt. apply newestFirst_cons. split; [|now apply IH].
      intros z Hz. apply insertNewestFirst_elem in Hz as [->|Hz]; [lia|now apply Hhd].
    + apply Z.ltb_ge in Hlt. apply newestFirst_cons. split.
      * intros z Hz. apply elem_of_cons in Hz as [->|Hz]; [exact Hlt|].
        apply Hhd in Hz. lia.
      * apply newestFirst_cons. now split.
Qed.

Lemma sortNewestFirst_elem (x : TransactionEntry) (l : list TransactionEntry) :
  x ∈ sortNewestFirst l <-> x ∈ l.
Proof.
  unfold sortNewestFirst. induction l as [|y r IH]; simpl; [reflexivity|].
  now rewrite insertNewestFirst_elem, elem_of_cons, IH.
Qed.

Lemma sortNewestFirst_sorted (l : list TransactionEntry) :
  newestFirst (sortNewestFirst l).
Proof.
  unfold sortNewestFirst. induction l as [|y r IH]; simpl.
  - intros i j a b _ Ha. discriminate.
  - now apply insertNewestFirst_sorted.
Qed.

Lemma unique_elem (seen : gset string) (l : list TransactionEntry)
    (x : TransactionEntry) :
  x ∈ unique seen l -> x ∈ l /\ historyKey x ∉ seen.
Proof.
  revert seen. induction l as [|tx r IH]; simpl; intros seen Hx.
  - now apply elem_of_nil in Hx.
  - destruct (bool_decide (historyKey tx ∈ seen)) eqn:Hseen.
    + apply IH in Hx as [Hin Hns]. split; [now apply list_elem_of_further|exact Hns].
    + apply bool_decide_eq_false in Hseen.
      apply elem_of_cons in Hx as [->|Hx].
      * split; [apply list_elem_of_here|exact Hseen].
      * apply IH in Hx as [Hin Hns]. split; [now apply list_elem_of_further|].
        intros Hs. apply Hns, elem_of_union. now right.
Qed.

Lemma unique_sorted (seen : gset string) (l : list TransactionEntry) :
  newestFirst l -> newestFirst (unique seen l).
Proof.
  revert seen. induction l as [|tx r IH]; simpl; intros seen Hl; [exact Hl|].
  apply newestFirst_cons in Hl as [Hhd Htl].
  destruct (bool_decide (historyKey tx ∈ seen)); [now apply IH|].
  apply newestFirst_cons. split; [|now apply IH].
  intros y Hy. apply unique_elem in Hy as [Hy _]. now apply Hhd.
Qed.

Lemma unique_NoDup (seen : gset string) (l : list TransactionEntry) :
  NoDup (List.map historyKey (unique seen l)).
Proof.
  revert seen. induction l as [|tx r IH]; simpl; intros seen; [constructor|].
  destruct (bool_decide (historyKey tx ∈ seen)); [apply IH|].
  simpl. constructor; [|apply IH].
  intros Hin. apply list_elem_of_In, in_map_iff in Hin as (y & Hk & Hy).
  apply list_elem_of_In, unique_elem in Hy as [_ Hns].
  apply Hns, elem_of_union. left. now apply elem_of_singleton.
Qed.

Lemma unique_complete (seen : gset string) (l : list TransactionEntry)
    (x : TransactionEntry) :
  x ∈ l ->
  historyKey x ∈ seen \/ exists y, y ∈ unique seen l /\ historyKey y = historyKey x.
Proof.
  revert seen. induction l as [|tx r IH]; simpl; intros seen Hx.
  - now apply elem_of_nil in Hx.
  - destruct (bool_decide (historyKey tx ∈ seen)) eqn:Hseen.
    + apply bool_decide_eq_true in Hseen.
      apply elem_of_cons in Hx as [->|Hx]; [now left|now apply IH].
    + apply elem_of_cons in Hx as [->|Hx].
      * right. exists tx. split; [apply list_elem_of_here|reflexivity].
      * destruct (IH ({[historyKey tx]} ∪ seen) Hx) as [Hin|(y & Hy & Hk)].
        -- apply elem_of_union in Hin as [Hin|Hin]; [|now left].
           apply elem_of_singleton in Hin. right. exists tx.
           split; [apply list_elem_of_here|now symmetry].
        -- right. exists y. split; [now apply list_elem_of_further|exact Hk].
Qed.

Section HistoryRuns.
Context {E : Externals}.

(** [getTransactionHistory] is the gathering over the buckets under
    [txdata:], sorted and without duplicates; it leaves the state alone. *)
Lemma getTransactionHistory_run (wallet : string) (st : State) :
  exists entries,
    (forall e, e ∈ entries <->
       kv st !! fst e = Some (snd e) /\ String.prefix "txdata:" (fst e) = true)
    /\ getTransactionHistory wallet st
       = (match collectHistory (JS.toLowerCase wallet) entries with
          | Return h => Return (unique ∅ (sortNewestFirst h))
          | Throw e => Throw e
          end, st).
Proof.
  destruct (dbGetAll_run "txdata:" st) as (l & Hrun & Hl).
  exists l. split; [exact Hl|].
  unfold getTransactionHistory. rewrite bind_run, Hrun. rewrite bind_run.
  unfold lift. now destruct (collectHistory _ l).
Qed.

(** Every entry of a bucket of the wallet is represented in its history. *)
Lemma getTransactionHistory_complete (wallet : string) (st : State)
    (h : list TransactionEntry) (dbKey text : string)
    (l : list TransactionEntry) (tx : TransactionEntry) :
  fst (getTransactionHistory wallet st) = Return h ->
  kv st !! dbKey = Some text ->
  String.prefix "txdata:" dbKey = true ->
  involves (JS.toLowerCase wallet) dbKey = true ->
  parseEntries text = Some l -> tx ∈ l ->
  exists tx', tx' ∈ h /\ historyKey tx' = historyKey tx.
Proof.
  intros Hh Hrec Hpre Hinv Hp Hin.
  destruct (getTransactionHistory_run wallet st) as (entries & Hl & Hrun).
  rewrite Hrun in Hh. simpl in Hh.
  destruct (collectHistory _ entries) as [h0|] eqn:Hc; [|discriminate].
  injection Hh as <-. pose proof (collectHistory_Return _ _ _ Hc) as Hspec.
  assert (Hh0 : tx ∈ sortNewestFirst h0).
  { apply sortNewestFirst_elem, Hspec. exists (dbKey, text), l.
    repeat split; auto. apply Hl. now split. }
  destruct (unique_complete ∅ _ _ Hh0) as [Habs|Hy]; [|exact Hy].
  now apply elem_of_empty in Habs.
Qed.

End HistoryRuns.

(** X16. The history [getTransactionHistory] returns is in order and free
    of duplicates: no entry is older than one that follows it, no two
    entries have the same sender, receiver, token and timestamp text, and
    the call changes nothing. *)
Theorem history_newest_first_without_duplicates :
  forall (E : Externals) (st : State) (wallet : string)
         (h : list TransactionEntry),
    fst (getTransactionHistory wallet st) = Return h ->
    snd (getTransactionHistory wallet st) = st
    /\ newestFirst h
    /\ NoDup (List.map historyKey h).
Proof.
  intros E st wallet h Hh.
  destruct (getTransactionHistory_run wallet st) as (entries & _ & Hrun).
  rewrite Hrun in *. simpl in *.
  destruct (collectHistory _ entries) as [h0|]; [|discriminate].
  injection Hh as <-. split; [reflexivity|]. split.
  - apply unique_sorted, sortNewestFirst_sorted.
  - apply unique_NoDup.
Qed.

(** X17. The history of a wallet lists its buckets and nothing else:
    every entry returned stands in a bucket under [txdata:] that names the
    wallet (in lower case) as the sender of a sender bucket or the
    receiver of a receiver bucket, and every entry of such a bucket is
    represented in the history by an entry with the same sender, receiver,
    token and timestamp text. *)
Theorem history_lists_the_buckets_of_the_wallet :
  forall (E : Externals) (st : State) (wallet : string)
         (h : list TransactionEntry),
    fst (getTransactionHistory wallet st) = Return h ->
    (forall tx, tx ∈ h ->
       exists (dbKey text : string) (l : list TransactionEntry),
         kv st !! dbKey = Some text
         /\ String.prefix "txdata:" dbKey = true
         /\ involves (JS.toLowerCase wallet) dbKey = true
         /\ parseEntries text = Some l /\ tx ∈ l)
    /\ (forall (dbKey text : string) (l : list TransactionEntry) tx,
          kv st !! dbKey = Some text ->
          String.prefix "txdata:" dbKey = true ->
          involves (JS.toLowerCase wallet) dbKey = true ->
          parseEntries text = Some l -> tx ∈ l ->
          exists tx', tx' ∈ h /\ historyKey tx' = historyKey tx).
Proof.
  intros E st wallet h Hh. split.
  - destruct (getTransactionHistory_run wallet st) as (entries & Hl & Hrun).
    rewrite Hrun in Hh. simpl in Hh.
    destruct (collectHistory _ entries) as [h0|] eqn:Hc; [|discriminate].
    injection Hh as <-. pose proof (collectHistory_Return _ _ _ Hc) as Hspec.
    intros tx Htx. apply unique_elem in Htx as [Htx _].
    apply sortNewestFirst_elem, Hspec in Htx
      as ([dbKey text] & l & He & Hi & Hp & Hin).
    apply Hl in He as [Hrec Hpre]. exists dbKey, text, l. auto.
  - intros dbKey text l tx. now apply getTransactionHistory_complete.
Qed.

(** X18. One bucket that does not hold an array of entries takes the
    whole history with it, and only a bucket of the wallet can:
    [getTransactionHistory] throws if and only if some bucket of the
    wallet holds a text that does not parse to an array of entries. What
    it throws comes from such a bucket: the SyntaxError of [JSON.parse]
    for a text it rejects, the TypeError of the spread for a parsed value
    that cannot be iterated; and the state is as it was. *)
Theorem history_fails_on_unparsable_bucket :
  forall (E : Externals) (st : State) (wallet : string),
    ((exists err, fst (getTransactionHistory wallet st) = Throw err)
     <-> exists dbKey text : string,
           kv st !! dbKey = Some text
           /\ String.prefix "txdata:" dbKey = true
           /\ involves (JS.toLowerCase wallet) dbKey = true
           /\ parseEntries text = None)
    /\ (forall err, fst (getTransactionHistory wallet st) = Throw err ->
          snd (getTransactionHistory wallet st) = st
          /\ exists dbKey text : string,
               kv st !! dbKey = Some text
               /\ String.prefix "txdata:" dbKey = true
               /\ involves (JS.toLowerCase wallet) dbKey = true
               /\ ((err = SyntaxError /\ parseJson text = None)
                   \/ (err = TypeError
                       /\ exists other : string,
                            parseJson text = Some (ParsedOther other)))).
Proof.
  intros E st wallet.
  destruct (getTransactionHistory_run wallet st) as (entries & Hl & Hrun).
  rewrite Hrun. simpl. split.
  - split.
    + intros [err Herr].
      destruct (collectHistory _ entries) as [h0|e0] eqn:Hc; [discriminate|].
      destruct (proj1 (collectHistory_Throw _ entries) (ex_intro _ e0 Hc))
        as ([dbKey text] & He & Hi & Hp).
      apply Hl in He as [Hrec Hpre]. exists dbKey, text. auto.
    + intros (dbKey & text & Hrec & Hpre & Hi & Hp).
      destruct (proj2 (collectHistory_Throw (JS.toLowerCase wallet) entries))
        as [err Herr].
      { exists (dbKey, text). repeat split; auto. apply Hl. now split. }
      rewrite Herr. now exists err.
  - intros err Herr. split; [reflexivity|].
    destruct (collectHistory _ entries) as [h0|e0] eqn:Hc; [discriminate|].
    injection Herr as ->.
    destruct (collectHistory_error _ _ _ Hc) as ([dbKey text] & He & Hi & Hwhy).
    apply Hl in He as [Hrec Hpre]. exists dbKey, text. auto.
Qed.

Section LedgerHistory.
Context {E : Externals}.

(** The parts of the key of a bucket whose names hold no colon. *)
Lemma split_txDbKey (a b t : string) (ty : LeafType) :
  split ":" (JS.toLowerCase a) = [JS.toLowerCase a] ->
  split ":" (JS.toLowerCase b) = [JS.toLowerCase b] ->
  split ":" (JS.toLowerCase t) = [JS.toLowerCase t] ->
  split ":" (txDbKey a b t ty)
  = ["txdata"; JS.toLowerCase a; JS.toLowerCase b; JS.toLowerCase t;
     leafTypeName ty].
Proof.
  intros Ha Hb Ht. unfold txDbKey.
  change ("txdata:" ++ JS.toLowerCase a ++ ":" ++ JS.toLowerCase b ++ ":"
            ++ JS.toLowerCase t ++ ":" ++ leafTypeName ty)
    with ("txdata" ++ String ":" (JS.toLowerCase a ++ String ":"
            (JS.toLowerCase b ++ String ":"
               (JS.toLowerCase t ++ String ":" (leafTypeName ty))))).
  rewrite (split_app ":" "txdata") by reflexivity.
  rewrite (split_app ":" (JS.toLowerCase a)) by exact Ha.
  rewrite (split_app ":" (JS.toLowerCase b)) by exact Hb.
  rewrite (split_app ":" (JS.toLowerCase t)) by exact Ht.
  now destruct ty.
Qed.

Lemma txDbKey_prefix (a b t : string) (ty : LeafType) :
  String.prefix "txdata:" (txDbKey a b t ty) = true.
Proof. unfold txDbKey. apply prefix_app. Qed.

End LedgerHistory.

(** X19. A transaction that was added shows in the history of both
    parties. For names without a colon: after a successful
    [addTransaction], if the bucket it wrote for a party parses back to
    the entries written, every history of that party that
    [getTransactionHistory] returns holds an entry with the sender,
    receiver, token and timestamp text of the new one. *)
Theorem added_transaction_shows_in_history :
  forall (E : Externals) (st : State) (sender receiver token amount : string)
         (ts : Z) (ls lr : list TransactionEntry),
    split ":" (JS.toLowerCase sender) = [JS.toLowerCase sender] ->
    split ":" (JS.toLowerCase receiver) = [JS.toLowerCase receiver] ->
    split ":" (JS.toLowerCase token) = [JS.toLowerCase token] ->
    fst (addTransaction sender receiver token amount st) = Return ts ->
    existingTransactions st (txDbKey sender receiver token SenderLeaf) = Some ls ->
    existingTransactions st (txDbKey sender receiver token ReceiverLeaf) = Some lr ->
    let st' := snd (addTransaction sender receiver token amount st) in
    let newTx := mkTransactionEntry sender receiver token amount ts in
    (parseEntries (stringifyEntries (ls ++ [newTx])%list)
     = Some (ls ++ [newTx])%list ->
     forall h, fst (getTransactionHistory sender st') = Return h ->
       exists tx, tx ∈ h /\ historyKey tx = historyKey newTx)
    /\ (parseEntries (stringifyEntries (lr ++ [newTx])%list)
        = Some (lr ++ [newTx])%list ->
        forall h, fst (getTransactionHistory receiver st') = Return h ->
          exists tx, tx ∈ h /\ historyKey tx = historyKey newTx).
Proof.
  intros E st a b t amt ts ls lr Ha Hb Ht Hok Hls Hlr st' newTx.
  destruct (addTransaction a b t amt st) as [o st1] eqn:Hrun.
  simpl in Hok, st'. subst o st'.
  assert (Hts : ts = clock st).
  { rewrite addTransaction_secrets in Hrun.
    destruct (negb _); [discriminate|]. destruct (negb _); [discriminate|].
    cbv zeta in Hrun. rewrite bind_run in Hrun.
    destruct (updateTxLeaf _ _ _ SenderLeaf _ _ st) as [[[]|e] st2];
      [|discriminate].
    rewrite bind_run in Hrun.
    destruct (updateTxLeaf _ _ _ ReceiverLeaf _ _ st2) as [[[]|e] st3];
      [|discriminate].
    unfold ret in Hrun. now injection Hrun as <- _. }
  apply addTransaction_Return in Hrun as (ls' & lr' & Hls' & Hlr' & Hks & Hkr).
  cbv zeta in Hks, Hkr.
  assert (ls' = ls) by congruence. assert (lr' = lr) by congruence.
  subst ls' lr'. rewrite <- Hts in Hks, Hkr. fold newTx in Hks, Hkr.
  split; intros Hparse h Hh.
  - apply (getTransactionHistory_complete a st1 h _ _ (ls ++ [newTx])%list newTx
             Hh Hks); [apply txDbKey_prefix| |exact Hparse|].
    + unfold involves. rewrite split_txDbKey by assumption. simpl.
      apply orb_true_iff. left. apply andb_true_iff.
      split; first [reflexivity|now apply bool_decide_eq_true_2].
    + apply elem_of_app. right. apply list_elem_of_here.
  - apply (getTransactionHistory_complete b st1 h _ _ (lr ++ [newTx])%list newTx
             Hh Hkr); [apply txDbKey_prefix| |exact Hparse|].
    + unfold involves. rewrite split_txDbKey by assumption. simpl.
      apply orb_true_iff. right. apply andb_true_iff.
      split; first [reflexivity|now apply bool_decide_eq_true_2].
    + apply elem_of_app. right. apply list_elem_of_here.
Qed.


(* ===================================================================== *)
(** ** Rebuilding the transaction tree                                    *)
(* ===================================================================== *)

Section RebuildTx.
Context {E : Externals}.

(** One turn of the loop of [loadTransactionsFromDatabase]: it touches
    nothing but the transaction tree, which gets the leaf of the bucket,
    if it has one. *)
Lemma loadTxEntry_run (st0 s s' : State) (entry : string * string)
    (o : outcome unit) :
  kv s = kv st0 ->
  loadTxEntry entry s = (o, s') ->
  match o with
  | Return _ =>
      (forall e, ~ bucketFails st0 entry e)
      /\ match bucketLeaf st0 entry with
         | Some (k, v) => s' = set_txSmt (<[k := v]> (txSmt s)) s
         | None => s' = s
         end
  | Throw e =>
      s' = s
      /\ (bucketFails st0 entry e
          \/ exists k v, bucketLeaf st0 entry = Some (k, v) /\ txSmt s !! k = Some "")
  end.
Proof.
  intros Hkv. unfold loadTxEntry, bucketLeaf, bucketFails. cbv zeta.
  rewrite bind_run. unfold getTxSecret, dbGet. rewrite Hkv.
  destruct (JS.truthy (kv st0 !! _)) eqn:Hsec; simpl.
  2:{ intros Hrun. injection Hrun as <- <-.
      split; [intros e [Habs _]; discriminate|reflexivity]. }
  destruct (parseJson (snd entry)) as [txs|] eqn:Hparse.
  2:{ intros Hrun. injection Hrun as <- <-. split; [reflexivity|].
      left. split; [reflexivity|]. left. now split. }
  destruct (split ":" (fst entry) !! 1%nat) as [a|] eqn:H1.
  2:{ intros Hrun. injection Hrun as <- <-. split; [reflexivity|].
      left. split; [reflexivity|]. right. repeat split; [discriminate|].
      apply lookup_ge_None. apply lookup_ge_None in H1. lia. }
  destruct (split ":" (fst entry) !! 2%nat) as [b|] eqn:H2.
  2:{ intros Hrun. injection Hrun as <- <-. split; [reflexivity|].
      left. split; [reflexivity|]. right. repeat split; [discriminate|].
      apply lookup_ge_None. apply lookup_ge_None in H2. lia. }
  destruct (split ":" (fst entry) !! 3%nat) as [t|] eqn:H3.
  2:{ intros Hrun. injection Hrun as <- <-. split; [reflexivity|].
      left. split; [reflexivity|]. right. repeat split; discriminate. }
  rewrite bind_run. unfold getTxSmt. rewrite bind_run.
  rewrite smt_get_hex by apply generateTxKey_hex.
  unfold lift. cbv beta iota.
  match goal with
  | |- context [if JS.truthy (?tr !! ?k) then txSmtUpdate _ ?v else _] =>
      destruct (upsert_inv tr k v (generateTxKey_hex _ _ _ _))
        as [[Hup _]|(e & Hup & _ & _ & [[Hno _]|[_ Hempty]])];
      [| now rewrite hashParsed_hex in Hno |];
      destruct (JS.truthy (tr !! k))
  end; unfold txSmtUpdate, txSmtAdd; rewrite Hup; intros Hrun;
    injection Hrun as <- <-.
  - split; [|reflexivity].
    intros e [_ [[_ Habs]|[_ [_ Habs]]]]; discriminate.
  - split; [|reflexivity].
    intros e [_ [[_ Habs]|[_ [_ Habs]]]]; discriminate.
  - split; [reflexivity|]. right. eauto.
  - split; [reflexivity|]. right. eauto.
Qed.

Lemma bucketLeaf_padded (st : State) (entry : string * string) (k v : string) :
  bucketLeaf st entry = Some (k, v) -> (64 <= String.length v)%nat.
Proof.
  unfold bucketLeaf. cbv zeta.
  destruct (JS.truthy _); [|discriminate].
  destruct (parseJson _); [|discriminate].
  destruct (_ !! 1%nat); [|discriminate]. destruct (_ !! 2%nat); [|discriminate].
  destruct (_ !! 3%nat); [|discriminate].
  intros Heq. injection Heq as <- <-. apply normalize_padded.
Qed.

(** The loop of [loadTransactionsFromDatabase] over the buckets [l]. *)
Lemma loadTxLoop (st0 : State) (l : list (string * string)) :
  forall (s s' : State) (o : outcome unit),
    kv s = kv st0 ->
    leavesPadded (txSmt s) ->
    forEach loadTxEntry l s = (o, s') ->
    kv s' = kv s /\ kvWrites s' = kvWrites s /\ smt s' = smt s
    /\ clock s' = clock s
    /\ leavesPadded (txSmt s')
    /\ (forall k v, txSmt s' !! k = Some v ->
          txSmt s !! k = Some v
          \/ exists e, e ∈ l /\ bucketLeaf st0 e = Some (k, v))
    /\ (o = Return tt ->
        forall k v,
          (txSmt s !! k = Some v \/ exists e, e ∈ l /\ bucketLeaf st0 e = Some (k, v)) ->
          (forall e v', e ∈ l -> bucketLeaf st0 e = Some (k, v') -> v' = v) ->
          txSmt s' !! k = Some v)
    /\ (o = Return tt -> forall e err, e ∈ l -> ~ bucketFails st0 e err)
    /\ (forall err, o = Throw err -> exists e, e ∈ l /\ bucketFails st0 e err).
Proof.
  induction l as [|e0 r IH]; intros s s' o Hkv Hp Hrun.
  - simpl in Hrun. injection Hrun as <- <-.
    do 4 (split; [reflexivity|]). split; [exact Hp|].
    split; [now left|]. split; [|split].
    + intros _ k v [Hk|(e & He & _)] _; [exact Hk|]. now apply elem_of_nil in He.
    + intros _ e err He. now apply elem_of_nil in He.
    + discriminate.
  - simpl in Hrun. rewrite bind_run in Hrun.
    destruct (loadTxEntry e0 s) as [[[]|err0] s1] eqn:Hstep;
      apply (loadTxEntry_run st0) in Hstep; try exact Hkv.
    + destruct Hstep as (Hnf & Hstep).
      assert (Hs1 : kv s1 = kv s /\ kvWrites s1 = kvWrites s /\ smt s1 = smt s
                    /\ clock s1 = clock s /\ leavesPadded (txSmt s1)).
      { destruct (bucketLeaf st0 e0) as [[k0 v0]|] eqn:Hleaf; subst s1; simpl;
          (do 4 (split; [reflexivity|])); [|exact Hp].
        apply leavesPadded_insert; [exact Hp|].
        now apply (bucketLeaf_padded st0 e0 k0). }
      destruct Hs1 as (Hk1 & Hw1 & Ht1 & Hc1 & Hp1).
      apply IH in Hrun as (Hk2 & Hw2 & Ht2 & Hc2 & Hp2 & Hfrom & Hto & Hall & Herr);
        [|congruence|exact Hp1].
      do 4 (split; [congruence|]). split; [exact Hp2|].
      split; [|split; [|split]].
      * intros k v Hkv'. apply Hfrom in Hkv' as [Hin1|(e & He & Hl)].
        -- destruct (bucketLeaf st0 e0) as [[k0 v0]|] eqn:Hleaf; subst s1.
           ++ simpl in Hin1. destruct (decide (k0 = k)) as [->|Hne].
              ** rewrite lookup_insert_eq in Hin1. injection Hin1 as ->.
                 right. exists e0. split; [apply list_elem_of_here|exact Hleaf].
              ** rewrite lookup_insert_ne in Hin1 by exact Hne. now left.
           ++ now left.
        -- right. exists e. split; [now apply list_elem_of_further|exact Hl].
      * intros Ho k v Hsrc Hagree. apply (Hto Ho).
        -- destruct (bucketLeaf st0 e0) as [[k0 v0]|] eqn:Hleaf; subst s1; simpl.
           ++ destruct (decide (k0 = k)) as [->|Hne].
              ** left. rewrite lookup_insert_eq. f_equal.
                 apply (Hagree e0); [apply list_elem_of_here|exact Hleaf].
              ** rewrite lookup_insert_ne by exact Hne.
                 destruct Hsrc as [Hk|(e & He & Hl)]; [now left|].
                 apply elem_of_cons in He as [->|He].
                 --- rewrite Hleaf in Hl. injection Hl as -> ->. contradiction.
                 --- right. eauto.
           ++ destruct Hsrc as [Hk|(e & He & Hl)]; [now left|].
              apply elem_of_cons in He as [->|He]; [congruence|].
              right. eauto.
        -- intros e v' He. apply Hagree. now apply list_elem_of_further.
      * intros Ho e err He. apply elem_of_cons in He as [->|He];
          [apply Hnf|now apply Hall].
      * intros err Ho. destruct (Herr err Ho) as (e & He & Hf).
        exists e. split; [now apply list_elem_of_further|exact Hf].
    + destruct Hstep as (-> & Hwhy). injection Hrun as <- <-.
      do 4 (split; [reflexivity|]). split; [exact Hp|].
      split; [now left|]. split; [discriminate|]. split; [discriminate|].
      intros err Ho. injection Ho as <-.
      destruct Hwhy as [Hf|(k & v & _ & Hempty)].
      * exists e0. split; [apply list_elem_of_here|exact Hf].
      * now apply leavesPadded_nonempty in Hempty.
Qed.


(** [initializeTransactionService] is the loop over the buckets under
    [txdata:], from the empty tree. *)
Lemma initializeTransactionService_loop (st : State) :
  exists l,
    (forall e, e ∈ l <->
       kv st !! fst e = Some (snd e) /\ String.prefix "txdata:" (fst e) = true)
    /\ initializeTransactionService st
       = forEach loadTxEntry l (set_txSmt ∅ st).
Proof.
  destruct (dbGetAll_run "txdata:" (set_txSmt ∅ st)) as (l & Hrun & Hl).
  exists l. split; [exact Hl|].
  unfold initializeTransactionService. rewrite bind_run.
  unfold loadTransactionsFromDatabase. rewrite bind_run, Hrun.
  destruct l; reflexivity.
Qed.

End RebuildTx.

(** X20. A successful [initializeTransactionService] leaves the store, its
    write budget, the balance tree and the clock as they were, and the
    tree it builds holds nothing of the tree it replaces: every leaf is
    the hash of the entries of a bucket under [txdata:] whose owner has a
    transaction secret, and has the padded width. *)
Theorem initializeTransactionService_rebuilds_from_store :
  forall (E : Externals) (st : State),
    fst (initializeTransactionService st) = Return tt ->
    let st' := snd (initializeTransactionService st) in
    kv st' = kv st /\ kvWrites st' = kvWrites st /\ smt st' = smt st
    /\ clock st' = clock st
    /\ leavesPadded (txSmt st')
    /\ forall k v : string,
         txSmt st' !! k = Some v ->
         exists dbKey text : string,
           kv st !! dbKey = Some text
           /\ String.prefix "txdata:" dbKey = true
           /\ bucketLeaf st (dbKey, text) = Some (k, v).
Proof.
  intros E st Hok st'.
  destruct (initializeTransactionService_loop st) as (l & Hl & Hinit).
  destruct (initializeTransactionService st) as [o s1] eqn:Hrun.
  simpl in Hok, st'. subst o st'. symmetry in Hinit.
  apply (loadTxLoop st) in Hinit
    as (Hk & Hw & Ht & Hc & Hp & Hfrom & _); [|reflexivity|apply leavesPadded_empty].
  do 5 (split; [assumption|]).
  intros k v Hkv. apply Hfrom in Hkv as [Habs|([dbKey text] & He & Hleaf)].
  - simpl in Habs. now rewrite lookup_empty in Habs.
  - apply Hl in He as (Hrec & Hpre). now exists dbKey, text.
Qed.

(** X21. The ledger leaves survive a restart. For names without a colon:
    when the store holds a bucket that parses and the transaction secret
    of its owner (under the owner's lower-case name), and no other bucket
    lands on the same tree key, a successful
    [initializeTransactionService] puts the hash of the bucket's entries
    at that key. *)
Theorem restart_restores_ledger_leaf :
  forall (E : Externals) (st : State) (sender receiver token : string)
         (type : LeafType) (text secret : string) (l : list TransactionEntry),
    split ":" (JS.toLowerCase sender) = [JS.toLowerCase sender] ->
    split ":" (JS.toLowerCase receiver) = [JS.toLowerCase receiver] ->
    split ":" (JS.toLowerCase token) = [JS.toLowerCase token] ->
    kv st !! txDbKey sender receiver token type = Some text ->
    parseEntries text = Some l ->
    kv st !! ("secret:tx:" ++ JS.toLowerCase (match type with
                                               | SenderLeaf => sender
                                               | ReceiverLeaf => receiver
                                               end)) = Some secret ->
    secret <> "" ->
    (forall dbKey text' v : string,
        kv st !! dbKey = Some text' ->
        String.prefix "txdata:" dbKey = true ->
        bucketLeaf st (dbKey, text')
        = Some (generateTxKey sender receiver token secret, v) ->
        dbKey = txDbKey sender receiver token type) ->
    fst (initializeTransactionService st) = Return tt ->
    txSmt (snd (initializeTransactionService st))
      !! generateTxKey sender receiver token secret
    = Some (hashTransactions l).
Proof.
  intros E st a b t ty text secret l Ha Hb Ht Hrec Hparse Hsec Hne Hother Hok.
  destruct (initializeTransactionService_loop st) as (es & Hl & Hinit).
  destruct (initializeTransactionService st) as [o s1] eqn:Hrun.
  simpl in Hok. simpl. subst o. symmetry in Hinit.
  pose proof (split_txDbKey a b t ty Ha Hb Ht) as Hparts.
  assert (Hkey : generateTxKey (JS.toLowerCase a) (JS.toLowerCase b)
                   (JS.toLowerCase t) secret = generateTxKey a b t secret).
  { unfold generateTxKey, generateTxKeyInput. now rewrite !toLowerCase_idem. }
  pose proof (loadTxLoop st es (set_txSmt ∅ st) _ _ eq_refl leavesPadded_empty
                Hinit) as (_ & _ & _ & _ & _ & _ & Hto & _).
  assert (Hin : (txDbKey a b t ty, text) ∈ es).
  { apply Hl. split; [exact Hrec|apply txDbKey_prefix]. }
  assert (Hpj : parseJson text = Some (ParsedEntries l)).
  { unfold parseEntries in Hparse.
    destruct (parseJson text) as [[l'|other]|]; try discriminate Hparse.
    now injection Hparse as ->. }
  assert (Hleaf : bucketLeaf st (txDbKey a b t ty, text)
                  = Some (generateTxKey a b t secret, hashTransactions l)).
  { unfold bucketLeaf. cbv zeta. simpl fst. simpl snd. rewrite Hparts.
    destruct ty; simpl; simpl in Hsec; rewrite Hsec; simpl;
      (destruct (String.eqb_spec secret ""); [contradiction|]); simpl;
      now rewrite Hpj, Hkey. }
  apply (Hto eq_refl).
  - right. eauto.
  - intros [dbKey text'] v' He Hl'. apply Hl in He as (Hr' & Hpre).
    simpl in Hr', Hpre.
    pose proof (Hother dbKey text' v' Hr' Hpre Hl') as ->.
    rewrite Hrec in Hr'. injection Hr' as <-. congruence.
Qed.

(** X22. The rebuild of the transaction tree stops only at a bucket it
    cannot load: when [initializeTransactionService] throws, the store and
    the balance tree are as they were, and some bucket under [txdata:]
    whose owner has a secret either holds a text that does not parse (a
    SyntaxError) or has a key without a token part (the TypeError of a
    missing name); adding a leaf never fails. *)
Theorem initializeTransactionService_failure :
  forall (E : Externals) (st : State) (err : exn),
    fst (initializeTransactionService st) = Throw err ->
    let st' := snd (initializeTransactionService st) in
    kv st' = kv st /\ kvWrites st' = kvWrites st /\ smt st' = smt st
    /\ exists dbKey text : string,
         kv st !! dbKey = Some text
         /\ String.prefix "txdata:" dbKey = true
         /\ bucketFails st (dbKey, text) err.
Proof.
  intros E st err Hok st'.
  destruct (initializeTransactionService_loop st) as (l & Hl & Hinit).
  destruct (initializeTransactionService st) as [o s1] eqn:Hrun.
  simpl in Hok, st'. subst o st'. symmetry in Hinit.
  apply (loadTxLoop st) in Hinit
    as (Hk & Hw & Ht & _ & _ & _ & _ & _ & Herr);
    [|reflexivity|apply leavesPadded_empty].
  do 3 (split; [assumption|]).
  destruct (Herr err eq_refl) as ([dbKey text] & He & Hf).
  apply Hl in He as (Hrec & Hpre). now exists dbKey, text.
Qed.


(* ===================================================================== *)
(** ** The balances of a wallet                                           *)
(* ===================================================================== *)

Section AllBalances.
Context {E : Externals}.

Lemma getProof_state (w t : string) (st : State) :
  snd (getProof w t st) = st.
Proof.
  rewrite getProof_unfold. destruct (negb _); [reflexivity|].
  cbv zeta. destruct (fst (getBalance w t st)) as [bal|e]; [|reflexivity].
  now destruct (toHexBalance bal).
Qed.

Lemma getProof_no_secret (w t : string) (st : State) :
  JS.truthy (kv st !! ("secret:balance:" ++ w)) = false ->
  getProof w t st = (Throw (Error "User has not set balance secret"), st).
Proof.
  intros Hs. unfold getProof. rewrite bind_run.
  unfold getBalanceSecret, dbGet. now rewrite Hs.
Qed.

Lemma balanceItem_state (wallet : string) (entry : string * string) (st : State) :
  snd (balanceItem wallet entry st) = st.
Proof.
  unfold balanceItem. destruct (_ !! 2%nat) as [token|].
  - rewrite bind_run. pose proof (getProof_state wallet token st) as Hst.
    destruct (getProof wallet token st) as [[p|e] st1]; simpl in Hst; now subst.
  - rewrite bind_run. unfold getBalanceSecret, dbGet.
    now destruct (negb _).
Qed.

Lemma balanceItem_Return (wallet : string) (entry : string * string) (st : State)
    (item : BalanceWithProof) :
  fst (balanceItem wallet entry st) = Return item ->
  b_balance item = snd entry
  /\ split ":" (fst entry) !! 2%nat = Some (b_token item)
  /\ fst (getProof wallet (b_token item) st) = Return (b_proof item).
Proof.
  unfold balanceItem. destruct (_ !! 2%nat) as [token|].
  - rewrite bind_run.
    destruct (getProof wallet token st) as [[p|e] st1] eqn:Hp; [|discriminate].
    simpl. intros Heq. injection Heq as <-. simpl. rewrite Hp. auto.
  - rewrite bind_run. unfold getBalanceSecret, dbGet.
    destruct (negb _); discriminate.
Qed.

Lemma balanceItem_no_secret (wallet : string) (entry : string * string)
    (st : State) :
  JS.truthy (kv st !! ("secret:balance:" ++ wallet)) = false ->
  balanceItem wallet entry st
  = (Throw (Error "User has not set balance secret"), st).
Proof.
  intros Hs. unfold balanceItem. destruct (_ !! 2%nat) as [token|].
  - rewrite bind_run. now rewrite getProof_no_secret.
  - rewrite bind_run. unfold getBalanceSecret, dbGet. now rewrite Hs.
Qed.

(** [Promise.all] over callbacks that only read. *)
Lemma mapAll_reads {A B : Type} (f : A -> M B) (l : list A) (st : State) :
  (forall x, snd (f x st) = st) ->
  snd (mapAll f l st) = st
  /\ (forall ys, fst (mapAll f l st) = Return ys ->
        Forall2 (fun x y => fst (f x st) = Return y) l ys).
Proof.
  intros Hf. induction l as [|x r [IHs IHr]]; simpl.
  - split; [reflexivity|]. intros ys Hys. injection Hys as <-. constructor.
  - rewrite bind_run. pose proof (Hf x) as Hx.
    destruct (f x st) as [[y|e] st1] eqn:Hfx; simpl in Hx; subst st1;
      [|split; [reflexivity|discriminate]].
    rewrite bind_run.
    destruct (mapAll f r st) as [[ys|e] st2] eqn:Hr; simpl in IHs; subst st2;
      [|split; [reflexivity|discriminate]].
    split; [reflexivity|]. simpl. intros zs Hzs. injection Hzs as <-.
    constructor; [now rewrite Hfx|now apply IHr].
Qed.

Lemma getAllBalances_run (wallet : string) (st : State) :
  exists l,
    (forall e, e ∈ l <->
       kv st !! fst e = Some (snd e)
       /\ String.prefix ("balance:" ++ JS.toLowerCase wallet ++ ":") (fst e) = true)
    /\ getAllBalances wallet st = mapAll (balanceItem wallet) l st.
Proof.
  destruct (dbGetAll_run ("balance:" ++ JS.toLowerCase wallet ++ ":") st)
    as (l & Hrun & Hl).
  exists l. split; [exact Hl|].
  unfold getAllBalances. cbv zeta. rewrite bind_run, Hrun. reflexivity.
Qed.

End AllBalances.

(** X23. [getAllBalances] reads and never writes. When it returns, the
    items stand for the records under [balance:{wallet}:], one for one:
    the balance of an item is the text of its record as stored, its token
    the third part of the record's key, and its proof the one [getProof]
    gives for that token. With no record it returns the empty list, secret
    or not; with a record and no balance secret it throws. *)
Theorem getAllBalances_lists_the_records :
  forall (E : Externals) (st : State) (wallet : string),
    let prefix := "balance:" ++ JS.toLowerCase wallet ++ ":" in
    let isRecord (dbKey text : string) :=
      kv st !! dbKey = Some text /\ String.prefix prefix dbKey = true in
    snd (getAllBalances wallet st) = st
    /\ (forall items, fst (getAllBalances wallet st) = Return items ->
          (forall item, item ∈ items ->
             exists dbKey, isRecord dbKey (b_balance item)
               /\ split ":" dbKey !! 2%nat = Some (b_token item)
               /\ fst (getProof wallet (b_token item) st)
                  = Return (b_proof item))
          /\ (forall dbKey text, isRecord dbKey text ->
                exists item, item ∈ items /\ b_balance item = text
                  /\ split ":" dbKey !! 2%nat = Some (b_token item)))
    /\ ((forall dbKey text, ~ isRecord dbKey text) ->
        fst (getAllBalances wallet st) = Return [])
    /\ (JS.truthy (kv st !! ("secret:balance:" ++ wallet)) = false ->
        (exists dbKey text, isRecord dbKey text) ->
        fst (getAllBalances wallet st)
        = Throw (Error "User has not set balance secret")).
Proof.
  intros E st wallet prefix isRecord.
  destruct (getAllBalances_run wallet st) as (l & Hl & Hrun). fold prefix in Hl.
  rewrite Hrun.
  destruct (mapAll_reads (balanceItem wallet) l st
              (fun x => balanceItem_state wallet x st)) as [Hst Hitems].
  split; [exact Hst|]. split; [|split].
  - intros items Hok. apply Hitems in Hok. split.
    + intros item Hin.
      apply list_elem_of_lookup in Hin as [i Hi].
      destruct (Forall2_lookup_r _ _ _ i item Hok Hi) as ([dbKey text] & He & Hf).
      apply balanceItem_Return in Hf as (Hb & Ht & Hp). simpl in Hb, Ht.
      apply list_elem_of_lookup_2, Hl in He. simpl in He. subst text.
      exists dbKey. auto.
    + intros dbKey text Hrec.
      assert (Hin : (dbKey, text) ∈ l) by now apply Hl.
      apply list_elem_of_lookup in Hin as [i Hi].
      destruct (Forall2_lookup_l _ _ _ i _ Hok Hi) as (item & Hit & Hf).
      apply balanceItem_Return in Hf as (Hb & Ht & _).
      exists item. split; [now apply list_elem_of_lookup_2 in Hit|]. auto.
  - intros Hnone. destruct l as [|[dbKey text] r]; [reflexivity|].
    exfalso. apply (Hnone dbKey text). apply (Hl (dbKey, text)).
    apply list_elem_of_here.
  - intros Hs [dbKey [text Hrec]].
    destruct l as [|e0 r].
    + assert (Hin : (dbKey, text) ∈ []) by now apply Hl.
      now apply elem_of_nil in Hin.
    + simpl. rewrite bind_run. now rewrite balanceItem_no_secret.
Qed.

(* ===================================================================== *)
(** ** Letter case of the names                                           *)
(* ===================================================================== *)

Section LetterCase.
Context {E : Externals}.

Lemma generateKey_lower (w t s : string) :
  generateKey (JS.toLowerCase w) (JS.toLowerCase t) s = generateKey w t s.
Proof. unfold generateKey, generateKeyInput. now rewrite !toLowerCase_idem. Qed.

Lemma generateKey_lower_token (w t s : string) :
  generateKey w (JS.toLowerCase t) s = generateKey w t s.
Proof. unfold generateKey, generateKeyInput. now rewrite toLowerCase_idem. Qed.

Lemma balanceDbKey_lower_token (w t : string) :
  balanceDbKey w (JS.toLowerCase t) = balanceDbKey w t.
Proof. unfold balanceDbKey. now rewrite toLowerCase_idem. Qed.

Lemma generateTxKey_lower (a b t s : string) :
  generateTxKey (JS.toLowerCase a) (JS.toLowerCase b) (JS.toLowerCase t) s
  = generateTxKey a b t s.
Proof. unfold generateTxKey, generateTxKeyInput. now rewrite !toLowerCase_idem. Qed.

End LetterCase.

(** X24. The letter case of a token never matters to the balance service,
    nor that of the three names to a transaction proof: [getBalance],
    [setBalance], [updateBalance] and [getProof] behave on a token as on
    its lower-case spelling, with the same leaf and the same record, and
    [getTxProof] on a sender, receiver and token as on theirs. *)
Theorem token_case_is_ignored :
  forall (E : Externals) (st : State) (wallet token balance : string),
    getBalance wallet (JS.toLowerCase token) st = getBalance wallet token st
    /\ setBalance wallet (JS.toLowerCase token) balance st
       = setBalance wallet token balance st
    /\ updateBalance wallet (JS.toLowerCase token) balance st
       = updateBalance wallet token balance st
    /\ getProof wallet (JS.toLowerCase token) st = getProof wallet token st
    /\ (forall sender receiver forWallet : string,
          getTxProof (JS.toLowerCase sender) (JS.toLowerCase receiver)
            (JS.toLowerCase token) forWallet st
          = getTxProof sender receiver token forWallet st).
Proof.
  intros E st wallet token balance.
  assert (Hget : getBalance wallet (JS.toLowerCase token) st
                 = getBalance wallet token st).
  { unfold getBalance. rewrite !bind_run. unfold getBalanceSecret, dbGet.
    destruct (negb _); [reflexivity|]. now rewrite generateKey_lower_token. }
  assert (Hupd : updateBalance wallet (JS.toLowerCase token) balance st
                 = updateBalance wallet token balance st).
  { rewrite !updateBalance_unfold.
    now rewrite generateKey_lower_token, balanceDbKey_lower_token. }
  split; [exact Hget|]. split; [now rewrite !setBalance_updateBalance|].
  split; [exact Hupd|]. split.
  - rewrite !getProof_unfold, Hget.
    now rewrite generateKey_lower_token.
  - intros sender receiver forWallet. unfold getTxProof. rewrite !bind_run.
    unfold getTxSecret, dbGet. destruct (negb _); [reflexivity|].
    now rewrite generateTxKey_lower.
Qed.


(* ===================================================================== *)
(** ** The further theorems at concrete inputs                            *)
(* ===================================================================== *)

(** The leaf of 1.5 is read back as 1.5. *)
Lemma leaf_written_is_read_back_witness :
  exists v : Z,
    JS.toBigInt (JS.floor (JS.mul (JS.parseFloat "1.5") (JS.ofBigInt PRECISION)))
    = Some v
    /\ fromHexBalance (JS.repeatChar 48 "0" ++ "14d1120d7b160000")
       = Return (JS.toString (JS.div (JS.ofBigInt v) (JS.ofBigInt PRECISION)))
    /\ JS.toString (JS.div (JS.ofBigInt v) (JS.ofBigInt PRECISION)) = "1.5".
Proof.
  destruct (leaf_written_is_read_back "1.5"
              (JS.repeatChar 48 "0" ++ "14d1120d7b160000")
              ltac:(vm_compute; reflexivity)) as (v & Hv & _ & Hpos & _).
  exists v. split; [exact Hv|].
  assert (Hval : v = 1500000000000000000%Z).
  { vm_compute in Hv. now injection Hv as <-. }
  split.
  - apply Hpos. rewrite Hval. lia.
  - rewrite Hval. vm_compute. reflexivity.
Defined.

(** A wallet that has set no secret reads a balance of 0. *)
Lemma getBalance_only_reads_witness :
  let W := Demo.world false in
  let carol := "0x" ++ JS.repeatChar 40 "d" in
  fst (getBalance (E := W) carol Demo.usdc (Demo.funded "100" "5")) = Return "0".
Proof.
  intros W carol.
  apply (proj1 (proj2 (getBalance_only_reads W (Demo.funded "100" "5") carol
                         Demo.usdc))).
  vm_compute. reflexivity.
Defined.

(** The balance [abc] is refused and nothing is written. *)
Lemma setBalance_refuses_before_writing_witness :
  let W := Demo.world false in
  setBalance (E := W) Demo.alice Demo.usdc "abc" Demo.unlocked
  = (Throw RangeError, Demo.unlocked).
Proof.
  intros W.
  apply (proj2 (setBalance_refuses_before_writing W Demo.unlocked Demo.alice
                  Demo.usdc "abc")); vm_compute; reflexivity.
Defined.

(** Alice's balance is set to 100 and read back. *)
Lemma setBalance_then_getBalance_witness :
  let W := Demo.world false in
  let st' := snd (setBalance (E := W) Demo.alice Demo.usdc "100" Demo.unlocked) in
  exists secret hex : string,
    toHexBalance "100" = Return hex
    /\ smt st' !! generateKey (E := W) Demo.alice Demo.usdc secret = Some hex
    /\ kv st' !! balanceDbKey Demo.alice Demo.usdc = Some "100"
    /\ getBalance (E := W) Demo.alice Demo.usdc st' = (fromHexBalance hex, st').
Proof.
  intros W st'.
  destruct (setBalance_then_getBalance W Demo.unlocked Demo.alice Demo.usdc "100"
              ltac:(vm_compute; reflexivity))
    as (secret & hex & _ & Hhex & Hleaf & Hrec & Hget & _).
  exists secret, hex. auto.
Defined.

(** The first balance of Alice is inserted; a balance of -1, whose
    encoding has a minus sign, is refused by the tree. *)
Lemma setBalance_inserts_or_updates_witness :
  let W := Demo.world false in
  let st := Demo.unlocked in
  let secret := "0x" ++ JS.repeatChar 64 "1" in
  let hex := JS.repeatChar 47 "0" ++ "56bc75e2d63100000" in
  let minus := JS.repeatChar 48 "0" ++ "-de0b6b3a7640000" in
  setBalance (E := W) Demo.alice Demo.usdc "100" st
  = (Return tt,
     set_kv (<[balanceDbKey Demo.alice Demo.usdc := "100"]> (kv st))
            (pred <$> kvWrites st)
            (set_smt (<[generateKey (E := W) Demo.alice Demo.usdc secret := hex]>
                        (smt st)) st))
  /\ setBalance (E := W) Demo.alice Demo.usdc "-1" st
     = (Throw (notHexadecimal minus), st).
Proof.
  intros W st secret hex minus. split.
  - refine (proj1 (setBalance_inserts_or_updates W st Demo.alice Demo.usdc "100"
                     secret hex _ _ _ _ _) _).
    + apply leavesPadded_empty.
    + vm_compute. reflexivity.
    + vm_compute. discriminate.
    + vm_compute. reflexivity.
    + vm_compute. discriminate.
    + vm_compute. reflexivity.
  - refine (proj2 (setBalance_inserts_or_updates W st Demo.alice Demo.usdc "-1"
                     secret minus _ _ _ _ _) _).
    + apply leavesPadded_empty.
    + vm_compute. reflexivity.
    + vm_compute. discriminate.
    + vm_compute. reflexivity.
    + vm_compute. discriminate.
    + vm_compute. reflexivity.
Defined.

(** The two calls of [setBalance] that fund Alice and Bob keep the
    leaves padded, and so does the transfer of 40 that follows and
    returns: it leaves two leaves in each tree, all of them padded. *)
Lemma leaves_stay_padded_witness :
  let W := Demo.world false in
  let st := Demo.funded "100" "0" in
  let r := transfer (E := W) (Demo.request "40") st in
  (exists res, fst r = Return res)
  /\ (leavesPadded (smt st) /\ leavesPadded (txSmt st))
  /\ (leavesPadded (smt (snd r)) /\ leavesPadded (txSmt (snd r)))
  /\ size (smt (snd r)) = 2%nat
  /\ size (txSmt (snd r)) = 2%nat.
Proof.
  intros W st r.
  pose proof (proj1 (leaves_stay_padded W Demo.unlocked leavesPadded_empty
                       leavesPadded_empty) Demo.alice Demo.usdc "100")
    as (Ha & Hatx & _).
  pose proof (proj1 (leaves_stay_padded W _ Ha Hatx) Demo.bob Demo.usdc "0")
    as (Hb & Hbtx & _).
  assert (Hrun : let r' := transfer (E := W) (Demo.request "40") st in
                 (exists res, fst r' = Return res)
                 /\ size (smt (snd r')) = 2%nat
                 /\ size (txSmt (snd r')) = 2%nat)
    by (vm_compute; split; [eexists; reflexivity|split; reflexivity]).
  destruct Hrun as (Hres & Hsize & Hsizetx).
  split; [exact Hres|].
  split; [split; [exact Hb|exact Hbtx]|].
  split; [exact (proj2 (proj2 (leaves_stay_padded W st Hb Hbtx))
                   (Demo.request "40"))|].
  split; [exact Hsize|exact Hsizetx].
Defined.

(** Alice's proof of her ledger with Bob is accepted. *)
Lemma getTxProof_verifies_witness :
  let W := Demo.world false in
  let st := Demo.unlocked in
  exists p : Proof,
    getTxProof (E := W) Demo.alice Demo.bob Demo.usdc Demo.alice st = (Return p, st)
    /\ value p = "0"
    /\ verifyTxProof (E := W) p st = (Return true, st).
Proof.
  intros W st.
  destruct (proj2 (proj2 (getTxProof_verifies W st Demo.alice Demo.bob Demo.usdc
                            Demo.alice))
              ("0x" ++ JS.repeatChar 64 "2")
              ltac:(vm_compute; reflexivity) ltac:(vm_compute; discriminate))
    as (p & Hp & Hk & Hv & Hver).
  exists p. split; [exact Hp|]. split; [|exact Hver].
  rewrite Hv, Hk. vm_compute. reflexivity.
Defined.

(** A sender that has set no transaction secret cannot add a transaction. *)
Lemma addTransaction_needs_both_secrets_witness :
  let W := Demo.world false in
  let carol := "0x" ++ JS.repeatChar 40 "d" in
  addTransaction (E := W) carol Demo.bob Demo.usdc "1" Demo.unlocked
  = (Throw (Error "Sender has not set transaction secret"), Demo.unlocked).
Proof.
  intros W carol.
  apply (proj1 (addTransaction_needs_both_secrets W Demo.unlocked carol Demo.bob
                  Demo.usdc "1")).
  vm_compute. reflexivity.
Defined.

(** The first transaction from Alice to Bob. *)
Lemma addTransaction_commits_to_buckets_witness :
  let W := Demo.world false in
  let st := Demo.unlocked in
  let st' := snd (addTransaction (E := W) Demo.alice Demo.bob Demo.usdc "40" st) in
  smt st' = smt st
  /\ exists (ss sr : string) (ls lr : list TransactionEntry),
       kv st !! ("secret:tx:" ++ Demo.alice) = Some ss
       /\ kv st !! ("secret:tx:" ++ Demo.bob) = Some sr
       /\ txSmt st' !! generateTxKey (E := W) Demo.alice Demo.bob Demo.usdc sr
          = Some (hashTransactions (E := W)
                    (lr ++ [mkTransactionEntry Demo.alice Demo.bob Demo.usdc "40"
                              (clock st)])).
Proof.
  intros W st st'.
  destruct (addTransaction_commits_to_buckets W st Demo.alice Demo.bob Demo.usdc
              "40" 1700000000000%Z ltac:(vm_compute; reflexivity))
    as (_ & Hsmt & ss & sr & ls & lr & Hss & Hsr & _ & _ & _ & _ & Hleaf & _).
  split; [exact Hsmt|]. exists ss, sr, ls, lr. auto.
Defined.

(** Alice asks to send [abc]. *)
Lemma transfer_nan_amount_range_error_witness :
  let W := Demo.world false in
  let st := Demo.funded "100" "0" in
  transfer (E := W) (Demo.request "abc") st = (Throw RangeError, st).
Proof.
  intros W st.
  apply (transfer_nan_amount_range_error W st (Demo.request "abc") "100").
  - vm_compute. reflexivity.
  - vm_compute. discriminate.
  - vm_compute. reflexivity.
  - vm_compute. reflexivity.
  - left. vm_compute. reflexivity.
  - vm_compute. reflexivity.
  - vm_compute. reflexivity.
Defined.

(** Alice and Bob hold 100 each and Alice asks to send -5: the call
    returns, her record goes to 105 and his to 95. *)
Lemma transfer_accepts_negative_amount_witness :
  let W := Demo.world false in
  let st := Demo.funded "100" "100" in
  let r := transfer (E := W) (Demo.request "-5") st in
  (exists res, fst r = Return res)
  /\ kv (snd r) !! balanceDbKey Demo.bob Demo.usdc = Some "95"
  /\ kv (snd r) !! balanceDbKey Demo.alice Demo.usdc = Some "105".
Proof.
  intros W st r.
  assert (Hres : exists res, fst r = Return res)
    by (vm_compute; eexists; reflexivity).
  split; [exact Hres|]. destruct Hres as [res Hres].
  split; [vm_compute; reflexivity|].
  assert (Hrun : transfer (E := W) (Demo.request "-5") st = (Return res, snd r)).
  { fold r. destruct r as [o s]. simpl in *. now subst o. }
  refine (eq_trans
           (proj2 (transfer_accepts_negative_amount W st (Demo.request "-5") "100"
                    5629499534213120%positive (-50)%Z
                    ltac:(vm_compute; reflexivity)
                    ltac:(vm_compute; discriminate)
                    ltac:(vm_compute; reflexivity)
                    ltac:(vm_compute; reflexivity)
                    ltac:(left; vm_compute; reflexivity)
                    ltac:(vm_compute; reflexivity)
                    ltac:(vm_compute; reflexivity)
                    ltac:(vm_compute; reflexivity)) res (snd r) Hrun) _).
  vm_compute. reflexivity.
Defined.


(** The tree of Alice and Bob is rebuilt from their two records. *)
Lemma initializeBalanceService_rebuilds_from_store_witness :
  let W := Demo.world false in
  let st := Demo.funded "100" "5" in
  let st' := snd (initializeBalanceService (E := W) st) in
  kv st' = kv st /\ txSmt st' = txSmt st /\ leavesPadded (smt st').
Proof.
  intros W st st'.
  destruct (initializeBalanceService_rebuilds_from_store W st
              ltac:(vm_compute; reflexivity)) as (Hk & _ & Ht & _ & Hp & _).
  exact (conj Hk (conj Ht Hp)).
Defined.

(** After a restart Alice's balance of 100 is read back. *)
Lemma restart_restores_balance_witness :
  let W := Demo.world false in
  let st := Demo.funded "100" "5" in
  let st' := snd (initializeBalanceService (E := W) st) in
  exists hex : string,
    toHexBalance "100" = Return hex
    /\ smt st' !! generateKey (E := W) Demo.alice Demo.usdc
                    ("0x" ++ JS.repeatChar 64 "1") = Some hex
    /\ fst (getBalance (E := W) Demo.alice Demo.usdc st') = fromHexBalance hex.
Proof.
  intros W st st'.
  apply (restart_restores_balance W st Demo.alice Demo.usdc "100"
           ("0x" ++ JS.repeatChar 64 "1")).
  - vm_compute. reflexivity.
  - vm_compute. reflexivity.
  - vm_compute. reflexivity.
  - vm_compute. reflexivity.
  - vm_compute. reflexivity.
  - vm_compute. discriminate.
  - intros dbKey text v Hrec Hpre Hleaf.
    apply elem_of_map_to_list, list_elem_of_In in Hrec.
    assert (Hlist : exists l, map_to_list (kv st) = l
              /\ l = ltac:(let l := eval vm_compute in (map_to_list (kv st)) in
                           exact l)).
    { eexists. split; [|reflexivity]. vm_compute. reflexivity. }
    destruct Hlist as (l & Hl & ->). rewrite Hl in Hrec. clear Hl.
    simpl in Hrec.
    repeat (destruct Hrec as [Hrec|Hrec]); try contradiction;
      injection Hrec as <- <-.
    all: try solve [vm_in Hpre; discriminate Hpre].
    all: try solve [vm_in Hleaf; discriminate Hleaf].
    all: vm_compute; reflexivity.
  - vm_compute. reflexivity.
Defined.

(** A record of Alice that holds -5 stops the rebuild with the Error of
    the tree package, which refuses the minus sign of its encoding. *)
Lemma initializeBalanceService_failure_witness :
  let W := Demo.world false in
  let st := set_kv (<[balanceDbKey Demo.alice Demo.usdc := "-5"]>
                      (kv Demo.unlocked)) None Demo.unlocked in
  let err := notHexadecimal
               (JS.repeatChar 47 "0" ++ "-4563918244f40000") in
  fst (initializeBalanceService (E := W) st) = Throw err
  /\ kv (snd (initializeBalanceService (E := W) st)) = kv st
  /\ exists dbKey balance : string,
       kv st !! dbKey = Some balance
       /\ recordFails (E := W) st (dbKey, balance) err.
Proof.
  intros W st err.
  assert (Hrun : fst (initializeBalanceService (E := W) st) = Throw err)
    by (vm_compute; reflexivity).
  split; [exact Hrun|].
  destruct (initializeBalanceService_failure W st err Hrun)
    as (Hkv & _ & _ & (dbKey & balance & Hrec & _ & Hf) & _).
  split; [exact Hkv|]. exists dbKey, balance. auto.
Defined.

(** Alice sends 40 to Bob, a second later 7 to herself, and another
    second later Bob sends her 3. The transaction to herself stands in two
    of her buckets, which are read before the other two: of the four
    entries gathered her history holds three, the newest first. *)
Lemma history_newest_first_without_duplicates_witness :
  let W := Demo.world false in
  let s1 := snd (addTransaction (E := W) Demo.alice Demo.bob Demo.usdc "40"
                   Demo.unlocked) in
  let s2 := snd (addTransaction (E := W) Demo.alice Demo.alice Demo.usdc "7"
                   (Demo.later 1000 s1)) in
  let st := snd (addTransaction (E := W) Demo.bob Demo.alice Demo.usdc "3"
                   (Demo.later 1000 s2)) in
  let toBob := mkTransactionEntry Demo.alice Demo.bob Demo.usdc "40"
                 1700000000000 in
  let toSelf := mkTransactionEntry Demo.alice Demo.alice Demo.usdc "7"
                  1700000001000 in
  let fromBob := mkTransactionEntry Demo.bob Demo.alice Demo.usdc "3"
                   1700000002000 in
  let h := [fromBob; toSelf; toBob] in
  (fst (dbGetAll "txdata:" st)
   = Return
       [(txDbKey Demo.alice Demo.alice Demo.usdc ReceiverLeaf,
         Demo.showEntries [toSelf]);
        (txDbKey Demo.alice Demo.alice Demo.usdc SenderLeaf,
         Demo.showEntries [toSelf]);
        (txDbKey Demo.alice Demo.bob Demo.usdc ReceiverLeaf,
         Demo.showEntries [toBob]);
        (txDbKey Demo.alice Demo.bob Demo.usdc SenderLeaf,
         Demo.showEntries [toBob]);
        (txDbKey Demo.bob Demo.alice Demo.usdc ReceiverLeaf,
         Demo.showEntries [fromBob]);
        (txDbKey Demo.bob Demo.alice Demo.usdc SenderLeaf,
         Demo.showEntries [fromBob])])
  /\ fst (getTransactionHistory (E := W) Demo.alice st) = Return h
  /\ snd (getTransactionHistory (E := W) Demo.alice st) = st
  /\ newestFirst h
  /\ NoDup (List.map historyKey h).
Proof.
  intros W s1 s2 st toBob toSelf fromBob h.
  assert (Hh : fst (getTransactionHistory (E := W) Demo.alice st) = Return h)
    by (vm_compute; reflexivity).
  split; [vm_compute; reflexivity|]. split; [exact Hh|].
  exact (history_newest_first_without_duplicates W st Demo.alice h Hh).
Defined.

Lemma history_lists_the_buckets_of_the_wallet_witness :
  let W := Demo.world false in
  let st := snd (transfer (E := W) (Demo.request "40") (Demo.funded "100" "0")) in
  let tx := mkTransactionEntry Demo.alice Demo.bob Demo.usdc "40" 1700000000000 in
  exists (dbKey text : string) (l : list TransactionEntry),
    kv st !! dbKey = Some text
    /\ involves (JS.toLowerCase Demo.bob) dbKey = true
    /\ parseEntries (E := W) text = Some l /\ tx ∈ l.
Proof.
  intros W st tx.
  destruct (proj1 (history_lists_the_buckets_of_the_wallet W st Demo.bob [tx]
                     ltac:(vm_compute; reflexivity)) tx (list_elem_of_here _ _))
    as (dbKey & text & l & Hrec & _ & Hinv & Hp & Hin).
  exists dbKey, text, l. auto.
Defined.

(** A bucket of Alice that holds the number 5, which parses and cannot
    be spread: her history throws a TypeError. A bucket of hers that does
    not parse: her history throws. *)
Lemma history_fails_on_unparsable_bucket_witness :
  let W := Demo.world false in
  let bucket := txDbKey Demo.alice Demo.bob Demo.usdc SenderLeaf in
  let st := set_kv (<[bucket := "5"]> (kv Demo.unlocked)) None Demo.unlocked in
  let st' := set_kv (<[bucket := "garbage"]> (kv Demo.unlocked)) None
               Demo.unlocked in
  (fst (getTransactionHistory (E := W) Demo.alice st) = Throw TypeError
   /\ snd (getTransactionHistory (E := W) Demo.alice st) = st
   /\ exists dbKey text : string,
        kv st !! dbKey = Some text
        /\ involves (JS.toLowerCase Demo.alice) dbKey = true
        /\ exists other : string,
             parseJson (Externals := W) text = Some (ParsedOther other))
  /\ (exists err, fst (getTransactionHistory (E := W) Demo.alice st') = Throw err).
Proof.
  intros W bucket st st'. split.
  - assert (Hrun : fst (getTransactionHistory (E := W) Demo.alice st)
                   = Throw TypeError) by (vm_compute; reflexivity).
    split; [exact Hrun|].
    destruct (proj2 (history_fails_on_unparsable_bucket W st Demo.alice)
                TypeError Hrun)
      as (Hst & dbKey & text & Hrec & _ & Hinv & [[Habs _]|[_ Hother]]);
      [discriminate Habs|].
    split; [exact Hst|]. exists dbKey, text. auto.
  - apply (proj1 (history_fails_on_unparsable_bucket W st' Demo.alice)).
    exists bucket, "garbage". repeat split; vm_compute; reflexivity.
Defined.

(** The first transaction from Alice to Bob shows in both histories. *)
Lemma added_transaction_shows_in_history_witness :
  let W := Demo.world false in
  let st' := snd (addTransaction (E := W) Demo.alice Demo.bob Demo.usdc "40"
                    Demo.unlocked) in
  let newTx := mkTransactionEntry Demo.alice Demo.bob Demo.usdc "40"
                 1700000000000 in
  (exists tx, tx ∈ [newTx] /\ historyKey tx = historyKey newTx)
  /\ fst (getTransactionHistory (E := W) Demo.bob st') = Return [newTx].
Proof.
  intros W st' newTx.
  assert (Hh : fst (getTransactionHistory (E := W) Demo.bob st') = Return [newTx])
    by (vm_compute; reflexivity).
  split; [|exact Hh].
  apply (proj2 (added_transaction_shows_in_history W Demo.unlocked Demo.alice
                  Demo.bob Demo.usdc "40" 1700000000000%Z [] []
                  ltac:(vm_compute; reflexivity) ltac:(vm_compute; reflexivity)
                  ltac:(vm_compute; reflexivity) ltac:(vm_compute; reflexivity)
                  ltac:(vm_compute; reflexivity) ltac:(vm_compute; reflexivity))
           ltac:(vm_compute; reflexivity) [newTx] Hh).
Defined.

(** The ledger tree is rebuilt from the two buckets of a transfer. *)
Lemma initializeTransactionService_rebuilds_from_store_witness :
  let W := Demo.world false in
  let st := snd (transfer (E := W) (Demo.request "40") (Demo.funded "100" "0")) in
  let st' := snd (initializeTransactionService (E := W) st) in
  kv st' = kv st /\ smt st' = smt st /\ leavesPadded (txSmt st').
Proof.
  intros W st st'.
  destruct (initializeTransactionService_rebuilds_from_store W st
              ltac:(vm_compute; reflexivity)) as (Hk & _ & Ht & _ & Hp & _).
  exact (conj Hk (conj Ht Hp)).
Defined.

(** After a restart the sender's leaf holds the hash of the one entry. *)
Lemma restart_restores_ledger_leaf_witness :
  let W := Demo.world false in
  let st := snd (transfer (E := W) (Demo.request "40") (Demo.funded "100" "0")) in
  let tx := mkTransactionEntry Demo.alice Demo.bob Demo.usdc "40" 1700000000000 in
  txSmt (snd (initializeTransactionService (E := W) st))
    !! generateTxKey (E := W) Demo.alice Demo.bob Demo.usdc
         ("0x" ++ JS.repeatChar 64 "2")
  = Some (hashTransactions (E := W) [tx]).
Proof.
  intros W st tx.
  apply (restart_restores_ledger_leaf W st Demo.alice Demo.bob Demo.usdc
           SenderLeaf
           (Demo.showEntries [tx]) ("0x" ++ JS.repeatChar 64 "2") [tx]).
  - vm_compute. reflexivity.
  - vm_compute. reflexivity.
  - vm_compute. reflexivity.
  - vm_compute. reflexivity.
  - vm_compute. reflexivity.
  - vm_compute. reflexivity.
  - vm_compute. discriminate.
  - intros dbKey text v Hrec Hpre Hleaf.
    apply elem_of_map_to_list, list_elem_of_In in Hrec.
    assert (Hlist : exists l, map_to_list (kv st) = l
              /\ l = ltac:(let l := eval vm_compute in (map_to_list (kv st)) in
                           exact l)).
    { eexists. split; [|reflexivity]. vm_compute. reflexivity. }
    destruct Hlist as (l & Hl & ->). rewrite Hl in Hrec. clear Hl.
    simpl in Hrec.
    repeat (destruct Hrec as [Hrec|Hrec]); try contradiction;
      injection Hrec as <- <-.
    all: try solve [vm_in Hpre; discriminate Hpre].
    all: try solve [vm_in Hleaf; discriminate Hleaf].
    all: vm_compute; reflexivity.
  - vm_compute. reflexivity.
Defined.

(** A bucket of Alice that does not parse stops the rebuild. *)
Lemma initializeTransactionService_failure_witness :
  let W := Demo.world false in
  let st := set_kv (<[txDbKey Demo.alice Demo.bob Demo.usdc SenderLeaf := "garbage"]>
                      (kv Demo.unlocked)) None Demo.unlocked in
  exists dbKey text : string,
    kv st !! dbKey = Some text
    /\ bucketFails (E := W) st (dbKey, text) SyntaxError.
Proof.
  intros W st.
  destruct (initializeTransactionService_failure W st SyntaxError
              ltac:(vm_compute; reflexivity))
    as (_ & _ & _ & dbKey & text & Hrec & _ & Hf).
  exists dbKey, text. auto.
Defined.

(** A wallet with a record and no secret. *)
Lemma getAllBalances_lists_the_records_witness :
  let W := Demo.world false in
  let carol := "0x" ++ JS.repeatChar 40 "d" in
  let st := set_kv (<[balanceDbKey carol Demo.usdc := "7"]> (kv Demo.unlocked))
              None Demo.unlocked in
  fst (getAllBalances (E := W) carol st)
  = Throw (Error "User has not set balance secret").
Proof.
  intros W carol st.
  apply (proj2 (proj2 (proj2 (getAllBalances_lists_the_records W st carol)))).
  - vm_compute. reflexivity.
  - exists (balanceDbKey carol Demo.usdc), "7". split; vm_compute; reflexivity.
Defined.

